(** * Saros DLMM copilot: band planner, advanced-order bins and backtest simulator

    A shallow embedding of the strategy service routes
    ([computeTargetBins], [buildAdvancedBins], [mapResult] and the
    [POST /rebalance/plan] and [POST /orders/advanced/plan] handlers) and of
    the analytics page ([toNumber], [toMillis], [runBacktest] and the CSV
    upload callback), followed by the properties proved about them.

    The TypeScript code computes with JavaScript numbers.  The embedding is
    written once over an interface [JsNumber] of the operations the code
    uses, with two implementations: [Float64], the IEEE-754 binary64 numbers
    of the runtime (Rocq's primitive floats), and [Exact], the same special
    values with unrounded rational arithmetic on the finite ones.  What is
    proved of the simulator is proved of [Float64]; [Exact] shows where
    rounding matters.  In the planner of bands and in the arm route a bin
    index is only compared, passed on and written out, and is kept in [Z];
    the bins of an advanced order are computed from it, and
    [AdvancedOrders] has them on the doubles. *)

From Stdlib Require Import ZArith QArith Qround Qreduction Qabs Qpower.
From Stdlib Require Import List String Ascii DecimalString Bool Lia Lqa.
From Stdlib Require Import Sorting.Sorted Sorting.Permutation.
From Stdlib Require Floats.
Import ListNotations.

Set Implicit Arguments.

(* ================================================================== *)
(** * JavaScript numbers *)
(* ================================================================== *)

(** The operations on [number] that the modelled code performs.
    [num_ltb a b] is [a < b] and [num_leb a b] is [a <= b]; [a > b] and
    [a >= b] are the same tests with the operands exchanged.
    [num_toFixed x d] is [Number(x.toFixed(d))]. *)
Class JsNumber (num : Type) : Type := {
  num_of_Z : Z -> num;
  num_neg_infinity : num;
  num_add : num -> num -> num;
  num_sub : num -> num -> num;
  num_mul : num -> num -> num;
  num_div : num -> num -> num;
  num_ltb : num -> num -> bool;
  num_leb : num -> num -> bool;
  num_isFinite : num -> bool;
  num_toFixed : num -> nat -> num
}.

Declare Scope js_scope.
Delimit Scope js_scope with js.
Notation "a + b" := (num_add a b) : js_scope.
Notation "a - b" := (num_sub a b) : js_scope.
Notation "a * b" := (num_mul a b) : js_scope.
Notation "a / b" := (num_div a b) : js_scope.
Notation "a <? b" := (num_ltb a b) : js_scope.
Notation "a <=? b" := (num_leb a b) : js_scope.
Notation "a >? b" := (num_ltb b a)
  (at level 70, no associativity, only parsing) : js_scope.
Notation "a >=? b" := (num_leb b a)
  (at level 70, no associativity, only parsing) : js_scope.

(** ** Laws *)

(** The order: [<] is irreflexive, and of [a < b] and [b <= a] at most
    one holds (both fail when an operand is NaN); [<=] is transitive, and
    reflexive on the numbers it compares; 0 is at most 1. *)
Class JsOrder (num : Type) `{JsNumber num} : Prop := {
  num_ltb_irrefl : forall a : num, (a <? a)%js = false;
  num_ltb_not_leb : forall a b : num, (a <? b)%js = true -> (b <=? a)%js = false;
  num_leb_not_ltb : forall a b : num, (a <=? b)%js = true -> (b <? a)%js = false;
  num_leb_trans : forall a b c : num,
    (a <=? b)%js = true -> (b <=? c)%js = true -> (a <=? c)%js = true;
  num_leb_refl : forall a b : num,
    (a <=? b)%js = true -> (a <=? a)%js = true /\ (b <=? b)%js = true;
  num_zero_leb_one : (num_of_Z 0 <=? num_of_Z 1)%js = true
}.

(** Rounding to decimals.  [toFixed] accepts from 0 to 100 decimals (it
    throws a [RangeError] outside); with these, [Number(x.toFixed(d))] is
    monotone on the numbers that are not negative, and keeps 0 and 1. *)
Class JsRounding (num : Type) `{JsNumber num} : Prop := {
  num_toFixed_mono : forall (a b : num) (d : nat),
    (d <= 100)%nat ->
    (num_of_Z 0 <=? a)%js = true -> (a <=? b)%js = true ->
    (num_toFixed a d <=? num_toFixed b d)%js = true;
  num_toFixed_zero : forall d : nat,
    (d <= 100)%nat -> num_toFixed (num_of_Z 0) d = num_of_Z 0;
  num_toFixed_one : forall d : nat,
    (d <= 100)%nat -> num_toFixed (num_of_Z 1) d = num_of_Z 1
}.

(** Arithmetic and the order, as they are without rounding: integers
    keep their order, a quotient of positive integers is positive, adding
    what is not negative does not lower a number, and products and
    differences have the expected signs. *)
Class JsArith (num : Type) `{JsNumber num} : Prop := {
  num_of_Z_leb : forall a b : Z,
    (a <= b)%Z -> (num_of_Z a <=? num_of_Z b)%js = true;
  num_of_Z_ltb : forall a b : Z,
    (a < b)%Z -> (Z.abs a <= 2 ^ 53)%Z -> (Z.abs b <= 2 ^ 53)%Z ->
    (num_of_Z a <? num_of_Z b)%js = true;
  num_of_Z_isFinite : forall a : Z,
    (Z.abs a <= 2 ^ 53)%Z -> num_isFinite (num_of_Z a) = true;
  num_div_pos : forall a b : Z,
    (0 < a <= 2 ^ 53)%Z -> (0 < b <= 2 ^ 53)%Z ->
    (num_of_Z 0 <? num_of_Z a / num_of_Z b)%js = true
    /\ num_isFinite (num_of_Z a / num_of_Z b)%js = true;
  num_add_nonneg : forall a g : num,
    (num_of_Z 0 <=? a)%js = true -> (num_of_Z 0 <=? g)%js = true ->
    (a <=? a + g)%js = true;
  num_mul_nonneg : forall a b : num,
    (num_of_Z 0 <=? a)%js = true -> (num_of_Z 0 <? b)%js = true ->
    num_isFinite b = true -> (num_of_Z 0 <=? a * b)%js = true;
  num_sub_nonneg : forall a b : num,
    (b <=? a)%js = true -> num_isFinite b = true ->
    (num_of_Z 0 <=? a - b)%js = true
}.

(** Arithmetic without rounding: adding a positive share [b] of a number
    to it is multiplying it by [1 + b].  Binary64 arithmetic does not
    satisfy this. *)
Class JsExact (num : Type) `{JsNumber num} : Prop := {
  num_add_share : forall a b : num,
    (num_of_Z 0 <? b)%js = true ->
    (a + a * b)%js = ((num_of_Z 1 + b) * a)%js
}.

Arguments JsOrder num {_}.
Arguments JsRounding num {_}.
Arguments JsArith num {_}.
Arguments JsExact num {_}.

(** ** binary64 *)

Module Float64.
Import Floats.

(** The double nearest to an integer (ties to even), as an integer literal
    or an integer-valued computation yields it. *)
Definition of_Z (z : Z) : float :=
  SF2Prim (binary_normalize prec emax z 0 false).

(** [Number.prototype.toFixed], the integer [n] of the standard: the
    integer nearest to [m * 2^e * 10^d], the larger one on a tie. *)
Definition toFixed_digits (m : positive) (e : Z) (d : nat) : Z :=
  let p := (Z.pos m * 10 ^ Z.of_nat d)%Z in
  if (0 <=? e)%Z then (p * 2 ^ e)%Z
  else ((2 * p + 2 ^ (- e)) / 2 ^ (1 - e))%Z.

(** The integer nearest to [a / b], the even one on a tie. *)
Definition round_half_even (a b : Z) : Z :=
  let q := (a / b)%Z in
  match (2 * (a mod b) ?= b)%Z with
  | Lt => q
  | Gt => (q + 1)%Z
  | Eq => if Z.even q then q else (q + 1)%Z
  end.

(** The [E] with [C * 2^E <= N < C * 2^(E+1)], for [N >= 2 * C]. *)
Definition binade (N C : Z) : Z :=
  let E0 := (Z.log2 N - Z.log2 C)%Z in
  if (N <? C * 2 ^ E0)%Z then (E0 - 1)%Z else E0.

(** The double nearest to the quotient [n / c] of two integers, the one
    with the even mantissa on a tie: what reading a decimal numeral
    yields.  With [n] scaled by [2^400] the quotient lies in the binade
    [E]; it is rounded to the 53 bits of a mantissa, which may carry into
    the next binade.  (For a quotient from [2^-340] to [2^600], within
    the range of the normal doubles.) *)
Definition nearest (n c : positive) : spec_float :=
  let N := (Z.pos n * 2 ^ 400)%Z in
  let E := binade N (Z.pos c) in
  let m := round_half_even N (Z.pos c * 2 ^ (E - 52)) in
  if (m =? 2 ^ 53)%Z
  then S754_finite false (Z.to_pos (2 ^ 52)) (E - 451)
  else S754_finite false (Z.to_pos m) (E - 452).

(** The double that [Number] reads back from the digits [n] with [d]
    decimals and sign [s]: the double nearest to [n / 10^d]. *)
Definition of_decimal (s : bool) (n : Z) (d : nat) : float :=
  match n with
  | Z.pos p =>
      let r := nearest p (Z.to_pos (10 ^ Z.of_nat d)) in
      SF2Prim (if s then SFopp r else r)
  | _ => SF2Prim (S754_zero s)
  end.

(** [Number(x.toFixed(d))].  A non-finite [x] and an [x] of magnitude
    [10^21] or more print as [String(x)], which reads back as [x]. *)
Definition toFixed (x : float) (d : nat) : float :=
  match Prim2SF x with
  | S754_finite s m e =>
      if (abs x <? of_Z (10 ^ 21))%float
      then of_decimal s (toFixed_digits m e d) d
      else x
  | S754_zero _ => zero
  | _ => x
  end.

#[export] Instance float_JsNumber : JsNumber float := {|
  num_of_Z := of_Z;
  num_neg_infinity := neg_infinity;
  num_add := PrimFloat.add;
  num_sub := PrimFloat.sub;
  num_mul := PrimFloat.mul;
  num_div := PrimFloat.div;
  num_ltb := PrimFloat.ltb;
  num_leb := PrimFloat.leb;
  num_isFinite := PrimFloat.is_finite;
  num_toFixed := toFixed
|}.

(** *** The order of the doubles

    The doubles that are not NaN are ordered as integers are: a finite
    double [m * 2^e], whose [e] is at least [-1074], by [m * 2^(e+1074)]
    with its sign, and the infinities beyond all of these. *)
Definition scaled (m : positive) (e : Z) : Z := (Z.pos m * 2 ^ (e + 1074))%Z.

Definition infinite_key : Z := (2 ^ 2100)%Z.

Definition key (x : spec_float) : Z :=
  match x with
  | S754_zero _ => 0
  | S754_infinity s => if s then - infinite_key else infinite_key
  | S754_nan => 0
  | S754_finite s m e => if s then - scaled m e else scaled m e
  end%Z.

Definition is_nan (x : spec_float) : bool :=
  match x with S754_nan => true | _ => false end.

(** [toFixed_digits] and [toFixed] in terms of keys: the digits of a
    number of key [k], the key of the double read from digits, and the
    key of [Number(x.toFixed(d))] for an [x] of key [k >= 0]. *)
Definition digits_of (k : Z) (d : nat) : Z :=
  ((2 * k * 10 ^ Z.of_nat d + 2 ^ 1074) / 2 ^ 1075)%Z.

Definition threshold : Z := (10 ^ 21 * 2 ^ 1074)%Z.

Definition decimal_key (n : Z) (d : nat) : Z :=
  match n with
  | Z.pos p => key (nearest p (Z.to_pos (10 ^ Z.of_nat d)))
  | _ => 0%Z
  end.

Definition fixed_key (k : Z) (d : nat) : Z :=
  if (k <? threshold)%Z then decimal_key (digits_of k d) d else k.

(** Equality of two doubles as data. *)
Definition SF_eqb (x y : spec_float) : bool :=
  match x, y with
  | S754_zero s, S754_zero s' => Bool.eqb s s'
  | S754_infinity s, S754_infinity s' => Bool.eqb s s'
  | S754_nan, S754_nan => true
  | S754_finite s m e, S754_finite s' m' e' =>
      Bool.eqb s s' && Pos.eqb m m' && Z.eqb e e'
  | _, _ => false
  end.

(** The same quotient as [SFdiv] rounds it, the division of the
    library's specification of IEEE arithmetic; [nearest] is checked
    against it on samples. *)
Definition quotient (n c : positive) : spec_float :=
  SFdiv prec emax (S754_finite false n 0) (S754_finite false c 0).

End Float64.

(** ** Exact arithmetic *)

Module Exact.

(** A number is a rational, an infinity or NaN.  Finite results are kept
    in lowest terms, so that equal values are equal terms. *)
Inductive xnum : Type :=
| XFin (q : Q)
| XPosInf
| XNegInf
| XNaN.

Definition Qsign (q : Q) : comparison := (Qnum q ?= 0)%Z.

Definition inf_of_sign (c : comparison) : xnum :=
  match c with Gt => XPosInf | Lt => XNegInf | Eq => XNaN end.

Definition xneg (a : xnum) : xnum :=
  match a with
  | XFin q => XFin (Qred (- q))
  | XPosInf => XNegInf
  | XNegInf => XPosInf
  | XNaN => XNaN
  end.

Definition xadd (a b : xnum) : xnum :=
  match a, b with
  | XNaN, _ | _, XNaN => XNaN
  | XFin p, XFin q => XFin (Qred (p + q))
  | XPosInf, XNegInf | XNegInf, XPosInf => XNaN
  | XPosInf, _ | _, XPosInf => XPosInf
  | XNegInf, _ | _, XNegInf => XNegInf
  end.

Definition xsub (a b : xnum) : xnum := xadd a (xneg b).

Definition mul_sign (c1 c2 : comparison) : comparison :=
  match c1, c2 with
  | Eq, _ | _, Eq => Eq
  | Gt, Gt | Lt, Lt => Gt
  | _, _ => Lt
  end.

Definition xmul (a b : xnum) : xnum :=
  match a, b with
  | XNaN, _ | _, XNaN => XNaN
  | XFin p, XFin q => XFin (Qred (p * q))
  | XFin p, i => inf_of_sign (mul_sign (Qsign p) (match i with XNegInf => Lt | _ => Gt end))
  | i, XFin q => inf_of_sign (mul_sign (match i with XNegInf => Lt | _ => Gt end) (Qsign q))
  | XPosInf, XPosInf | XNegInf, XNegInf => XPosInf
  | _, _ => XNegInf
  end.

(** Zero has no sign here: a finite non-zero number divided by zero is
    the infinity of the dividend's sign. *)
Definition xdiv (a b : xnum) : xnum :=
  match a, b with
  | XNaN, _ | _, XNaN => XNaN
  | XFin p, XFin q =>
      match Qsign q with
      | Eq => inf_of_sign (Qsign p)
      | _ => XFin (Qred (p / q))
      end
  | XFin _, _ => XFin 0
  | i, XFin q =>
      inf_of_sign (mul_sign (match i with XNegInf => Lt | _ => Gt end)
                            (match Qsign q with Lt => Lt | _ => Gt end))
  | _, _ => XNaN
  end.

Definition Qltb (p q : Q) : bool := negb (Qle_bool q p).

Definition xltb (a b : xnum) : bool :=
  match a, b with
  | XNaN, _ | _, XNaN => false
  | XFin p, XFin q => Qltb p q
  | XNegInf, XNegInf | XPosInf, _ => false
  | XNegInf, _ | _, XPosInf => true
  | _, XNegInf => false
  end.

Definition xleb (a b : xnum) : bool :=
  match a, b with
  | XNaN, _ | _, XNaN => false
  | XFin p, XFin q => Qle_bool p q
  | XNegInf, _ | _, XPosInf => true
  | XPosInf, _ | _, XNegInf => false
  end.

Definition xisFinite (a : xnum) : bool :=
  match a with XFin _ => true | _ => false end.

Definition pow10 (d : nat) : Z := (10 ^ Z.of_nat d)%Z.

(** The integer nearest to [q * 10^d], a tie going away from zero:
    [toFixed] rounds the magnitude, the larger integer on a tie. *)
Definition toFixed_digits (q : Q) (d : nat) : Z :=
  let scaled := Qabs q * inject_Z (pow10 d) in
  let n := Qfloor (scaled + (1 # 2)) in
  match Qsign q with Lt => (- n)%Z | _ => n end.

(** [q] rounded to [d] decimals. *)
Definition rounded (q : Q) (d : nat) : Q :=
  inject_Z (toFixed_digits q d) / inject_Z (pow10 d).

(** [Number(x.toFixed(d))]; as in binary64, a magnitude of [10^21] or
    more is kept. *)
Definition xtoFixed (a : xnum) (d : nat) : xnum :=
  match a with
  | XFin q =>
      if Qltb (Qabs q) (inject_Z (10 ^ 21))
      then XFin (Qred (rounded q d))
      else a
  | _ => a
  end.

#[export] Instance xnum_JsNumber : JsNumber xnum := {|
  num_of_Z := fun z => XFin (inject_Z z);
  num_neg_infinity := XNegInf;
  num_add := xadd;
  num_sub := xsub;
  num_mul := xmul;
  num_div := xdiv;
  num_ltb := xltb;
  num_leb := xleb;
  num_isFinite := xisFinite;
  num_toFixed := xtoFixed
|}.

End Exact.

(* ================================================================== *)
(** * Strategy service routes *)
(* ================================================================== *)

Module Strategy.

Open Scope string_scope.

(** ** Gateway results and problem responses *)

Inductive DomainError : Type :=
| InvalidInput | NotFound | RateLimited | RpcError | SdkError.

Definition DomainError_code (e : DomainError) : string :=
  match e with
  | InvalidInput => "InvalidInput"
  | NotFound => "NotFound"
  | RateLimited => "RateLimited"
  | RpcError => "RpcError"
  | SdkError => "SdkError"
  end.

(** [Result<T>]: [{ ok: true, value }] or [{ ok: false, error, detail? }]. *)
Inductive Result (T : Type) : Type :=
| Success (value : T)
| Failure (error : DomainError) (detail : option string).
Arguments Success {T} value.
Arguments Failure {T} error detail.

Record ProblemDetail : Type := {
  problem_type : option string;
  problem_title : string;
  problem_status : Z;
  problem_detail : option string;
  problem_code : option string
}.

(** The object [sendProblem] passes to [reply.send]. *)
Record ProblemBody : Type := {
  body_type : string;
  body_title : string;
  body_status : Z;
  body_detail : option string;
  body_code : option string
}.

Definition defaultProblemType : string :=
  "https://datatracker.ietf.org/doc/html/rfc7807".

Definition statusByError (e : DomainError) : option Z :=
  Some match e with
       | InvalidInput => 400
       | NotFound => 404
       | RateLimited => 429
       | RpcError => 502
       | SdkError => 502
       end%Z.

(** [a ?? b] *)
Definition nullish {A : Type} (a : option A) (b : A) : A :=
  match a with Some x => x | None => b end.

(** [s ? { key: s } : {}]: an absent or empty string leaves the key out. *)
Definition if_truthy (s : option string) : option string :=
  match s with
  | Some EmptyString => None
  | _ => s
  end.

(** ** Advanced-order bins *)

Inductive AdvancedKind : Type := limitBuy | limitSell | stopLoss.

Inductive Side : Type := base | quote.

(** The bins as the arm route writes them out, on integer bin indices:
    there [Number.isFinite] holds and [Math.trunc] changes nothing.  The
    sums are those of the integers, as they are for the doubles below
    [2^53]: [AdvancedOrders] has the function on the doubles, which
    returns the same bins there. *)
Definition Number_isFinite (bin : Z) : bool := true.
Definition Math_trunc (bin : Z) : Z := bin.

(** [Array.from(new Set(xs))]: the first occurrence of each value, in
    order of insertion. *)
Definition Set_add (seen : list Z) (x : Z) : list Z :=
  if existsb (Z.eqb x) seen then seen else (seen ++ [x])%list.

Definition Array_from_Set (xs : list Z) : list Z :=
  fold_left Set_add xs [].

(** [xs.sort(compare)]: a stable sort by the sign of [compare]. *)
Fixpoint sort_insert (compare : Z -> Z -> Z) (x : Z) (sorted : list Z) : list Z :=
  match sorted with
  | [] => [x]
  | y :: rest =>
      if (compare y x <=? 0)%Z then y :: sort_insert compare x rest
      else x :: sorted
  end.

Definition Array_sort (compare : Z -> Z -> Z) (xs : list Z) : list Z :=
  fold_left (fun sorted x => sort_insert compare x sorted) xs [].

Definition coreBins (kind : AdvancedKind) (baseIndex : Z) : list Z :=
  match kind with
  | limitSell => [baseIndex; baseIndex + 1; baseIndex + 2]
  | _ => [baseIndex; baseIndex - 1; baseIndex - 2]
  end%Z.

Definition sanitized (kind : AdvancedKind) (baseIndex : Z) : list Z :=
  map Math_trunc
    (filter (fun bin => Number_isFinite bin && (bin >=? 0)%Z)
            (coreBins kind baseIndex)).

Definition buildAdvancedBins (kind : AdvancedKind) (baseIndex : Z) : list Z :=
  let unique := Array_from_Set (sanitized kind baseIndex) in
  let unique :=
    if (List.length unique =? 0)%nat
    then (unique ++ [Z.max 0 (Math_trunc baseIndex)])%list
    else unique in
  Array_sort (fun a b => a - b)%Z unique.

Definition singleSidedForKind (kind : AdvancedKind) : Side :=
  match kind with
  | limitSell | stopLoss => base
  | limitBuy => quote
  end.

Definition noteForKind (kind : AdvancedKind) : string :=
  match kind with
  | limitSell =>
      "Places base-only liquidity at/above the target to sell into strength."
  | stopLoss =>
      "Places base-only liquidity below the trigger so fills convert to quote once price crosses lower."
  | limitBuy =>
      "Places quote-only liquidity at/below the target to accumulate base when price trades down."
  end.

(** ** Handlers *)

Section Routes.

Context {num : Type} `{JsNumber num}.

(** The gateway is outside the service: each call reads and may change a
    world the handlers do not see, and returns a tagged result. *)
Variable World : Type.
Variable currentMidPrice : string -> World -> Result num * World.
Variable priceToBinIndex : string -> num -> World -> Result Z * World.

(** [new PublicKey(value)] succeeds. *)
Variable isPublicKey : string -> bool.
(** The message of a schema failure. *)
Variable schemaMessage : string.

(** A gateway call with the result it returned. *)
Inductive GatewayCall : Type :=
| CallCurrentMidPrice (pool : string) (result : Result num)
| CallPriceToBinIndex (pool : string) (price : num) (result : Result Z).

Definition failure_of {T : Type} (result : Result T)
  : option (DomainError * option string) :=
  match result with
  | Success _ => None
  | Failure error detail => Some (error, detail)
  end.

Definition call_failure (call : GatewayCall)
  : option (DomainError * option string) :=
  match call with
  | CallCurrentMidPrice _ result => failure_of result
  | CallPriceToBinIndex _ _ result => failure_of result
  end.

Record RebalancePlan : Type := {
  plan_inBand : bool;
  plan_binLower : Z;
  plan_binUpper : Z;
  plan_midPrice : num;
  plan_binIndex : Z
}.

(** What a handler passed to [reply.send], with the status code set. *)
Inductive Sent : Type :=
| SentProblem (code : Z) (body : ProblemBody)
| SentRebalancePlan (plan : RebalancePlan).

(** The state a handler runs in: the gateway's world, the gateway calls
    awaited so far and what was sent on the reply, both oldest first. *)
Record Ctx : Type := {
  ctx_world : World;
  ctx_calls : list GatewayCall;
  ctx_sent : list Sent
}.

Definition Handler (A : Type) : Type := Ctx -> A * Ctx.

Definition ret {A : Type} (a : A) : Handler A := fun c => (a, c).

Definition bind {A B : Type} (m : Handler A) (k : A -> Handler B) : Handler B :=
  fun c => let (a, c') := m c in k a c'.

Notation "x <- m ;; k" := (bind m (fun x => k))
  (at level 61, m at next level, right associativity).
Notation "m ;;; k" := (bind m (fun _ => k))
  (at level 61, right associativity).

Definition await_currentMidPrice (pool : string) : Handler (Result num) :=
  fun c =>
    let (r, w) := currentMidPrice pool (ctx_world c) in
    (r, {| ctx_world := w;
           ctx_calls := (ctx_calls c ++ [CallCurrentMidPrice pool r])%list;
           ctx_sent := ctx_sent c |}).

Definition await_priceToBinIndex (pool : string) (price : num) : Handler (Result Z) :=
  fun c =>
    let (r, w) := priceToBinIndex pool price (ctx_world c) in
    (r, {| ctx_world := w;
           ctx_calls := (ctx_calls c ++ [CallPriceToBinIndex pool price r])%list;
           ctx_sent := ctx_sent c |}).

Definition reply_send (s : Sent) : Handler unit :=
  fun c =>
    (tt, {| ctx_world := ctx_world c;
            ctx_calls := ctx_calls c;
            ctx_sent := (ctx_sent c ++ [s])%list |}).

Definition sendProblem (problem : ProblemDetail) : Handler unit :=
  reply_send
    (SentProblem (problem_status problem)
       {| body_type := nullish (problem_type problem) defaultProblemType;
          body_title := problem_title problem;
          body_status := problem_status problem;
          body_detail := if_truthy (problem_detail problem);
          body_code := if_truthy (problem_code problem) |}).

Definition buildProblem (status : Z) (title : string)
    (detail code : option string) : Handler unit :=
  sendProblem {| problem_type := Some defaultProblemType;
                 problem_title := title;
                 problem_status := status;
                 problem_detail := detail;
                 problem_code := code |}.

(** [mapResult]: the value of a success; on a failure the problem is sent
    and the caller gets [undefined]. *)
Definition mapResult {T : Type} (result : Result T)
    (title : string) (type : option string) : Handler (option T) :=
  match result with
  | Success value => ret (Some value)
  | Failure error detail =>
      sendProblem {| problem_type := Some (nullish type defaultProblemType);
                     problem_title := title;
                     problem_status := nullish (statusByError error) 500%Z;
                     problem_detail := detail;
                     problem_code := Some (DomainError_code error) |} ;;;
      ret None
  end.

Record TargetBins : Type := {
  binLower : Z;
  binUpper : Z;
  currentBin : Z
}.

Definition computeTargetBins (pool : string) (midPrice bandBps : num)
  : Handler (option TargetBins) :=
  let ratio := (bandBps / num_of_Z 10000)%js in
  let lowerPrice := (midPrice * (num_of_Z 1 - ratio))%js in
  let upperPrice := (midPrice * (num_of_Z 1 + ratio))%js in
  currentBinResult <- await_priceToBinIndex pool midPrice ;;
  currentBin <- mapResult currentBinResult "Failed to determine active bin" None ;;
  match currentBin with
  | None => ret None
  | Some currentBin =>
      lowerResult <- await_priceToBinIndex pool lowerPrice ;;
      lowerBin <- mapResult lowerResult "Failed to compute lower band bin" None ;;
      match lowerBin with
      | None => ret None
      | Some lowerBin =>
          upperResult <- await_priceToBinIndex pool upperPrice ;;
          upperBin <- mapResult upperResult "Failed to compute upper band bin" None ;;
          match upperBin with
          | None => ret None
          | Some upperBin =>
              ret (Some {| binLower := Z.min lowerBin upperBin;
                           binUpper := Z.max lowerBin upperBin;
                           currentBin := currentBin |})
          end
      end
  end.

(** The body of [POST /rebalance/plan] and [/rebalance/execute]; a
    [bandBps] that is not an integer does not pass the schema. *)
Record RebalanceBody : Type := {
  req_wallet : string;
  req_pool : string;
  req_bandBps : Z
}.

Definition publicKeySchema (value : string) : bool :=
  (32 <=? String.length value)%nat && (String.length value <=? 64)%nat && isPublicKey value.

Definition poolSchema (value : string) : bool :=
  (1 <=? String.length value)%nat.

Definition rebalanceBodySchema (body : RebalanceBody) : bool :=
  publicKeySchema (req_wallet body) && poolSchema (req_pool body)
  && (1 <=? req_bandBps body)%Z && (req_bandBps body <=? 10000)%Z.

Definition rebalance_plan (body : RebalanceBody) : Handler unit :=
  if negb (rebalanceBodySchema body) then
    buildProblem 400 "Invalid Request" (Some schemaMessage) (Some "InvalidInput")
  else
    let pool := req_pool body in
    let bandBps := req_bandBps body in
    midPriceResult <- await_currentMidPrice pool ;;
    midPrice <- mapResult midPriceResult "Failed to fetch mid price" None ;;
    match midPrice with
    | None => ret tt
    | Some midPrice =>
        band <- computeTargetBins pool midPrice (num_of_Z bandBps) ;;
        match band with
        | None => ret tt
        | Some band =>
            let inBand :=
              (currentBin band >=? binLower band)%Z
              && (currentBin band <=? binUpper band)%Z in
            reply_send
              (SentRebalancePlan
                 {| plan_inBand := inBand;
                    plan_binLower := binLower band;
                    plan_binUpper := binUpper band;
                    plan_midPrice := midPrice;
                    plan_binIndex := currentBin band |})
        end
    end.

(** The body of [POST /orders/advanced/plan]. *)
Record AdvancedPlanReq : Type := {
  adv_wallet : string;
  adv_pool : string;
  adv_kind : AdvancedKind;
  adv_targetPrice : num;
  adv_sizeQuote : option string;
  adv_sizeBase : option string
}.

Definition AdvancedPlanReq_schema (body : AdvancedPlanReq) : bool :=
  (32 <=? String.length (adv_wallet body))%nat
  && (1 <=? String.length (adv_pool body))%nat
  && (adv_targetPrice body >? num_of_Z 0)%js.

(** A handler starts with no gateway call made and nothing sent. *)
Definition initial (w : World) : Ctx :=
  {| ctx_world := w; ctx_calls := []; ctx_sent := [] |}.

End Routes.

End Strategy.

(* ================================================================== *)
(** * Analytics page: CSV candles and the backtest simulator *)
(* ================================================================== *)

Module Analytics.

Open Scope string_scope.

Definition REQUIRED_HEADERS : list string :=
  ["timestamp"; "open"; "high"; "low"; "close"].

Section Page.

Context {num : Type} `{JsNumber num}.

(** [0.0002]: the number nearest to that decimal, which is the quotient
    of the integers 2 and 10000. *)
Definition FEE_PER_EXIT : num := (num_of_Z 2 / num_of_Z 10000)%js.

Record CandleRow : Type := {
  row_t : num;
  row_o : num;
  row_h : num;
  row_l : num;
  row_c : num
}.

Record EquityPoint : Type := {
  point_t : num;
  point_equity : num
}.

Record BacktestResult : Type := {
  equitySeries : list EquityPoint;
  exits : nat;
  totalFeesPct : num;
  finalEquity : num
}.

(** ** Cell values *)

(** A value of type [unknown] as [toNumber] tells them apart: a number, a
    string, or anything else ([undefined] for a missing field, [null],
    a boolean). *)
Inductive JsValue : Type :=
| JsNum (n : num)
| JsStr (s : string)
| JsOther.

(** [Number(s)] on a string. *)
Variable Number_of_string : string -> num.

(** White space and line terminators among the characters below 256. *)
Definition is_white_space (c : ascii) : bool :=
  let n := nat_of_ascii c in
  ((9 <=? n) && (n <=? 13) || (n =? 32) || (n =? 160))%nat.

Fixpoint trimStart (s : string) : string :=
  match s with
  | String c rest => if is_white_space c then trimStart rest else s
  | EmptyString => EmptyString
  end.

Definition string_rev (s : string) : string :=
  string_of_list_ascii (rev (list_ascii_of_string s)).

Definition trim (s : string) : string :=
  string_rev (trimStart (string_rev (trimStart s))).

Definition toNumber (value : JsValue) : option num :=
  match value with
  | JsNum n => if num_isFinite n then Some n else None
  | JsStr s =>
      if (0 <? String.length (trim s))%nat then
        let numeric := Number_of_string s in
        if num_isFinite numeric then Some numeric else None
      else None
  | JsOther => None
  end.

Definition toMillis (rawTimestamp : num) : num :=
  if (rawTimestamp >? num_of_Z 1000000000000)%js
  then rawTimestamp
  else (rawTimestamp * num_of_Z 1000)%js.

(** ** The simulator *)

Record Band : Type := {
  band_lower : num;
  band_upper : num
}.

Definition toBand (ratio price : num) : Band :=
  {| band_lower := (price * (num_of_Z 1 - ratio))%js;
     band_upper := (price * (num_of_Z 1 + ratio))%js |}.

(** The variables of [runBacktest] that the loop updates. *)
Record BacktestState : Type := {
  st_equitySeries : list EquityPoint;
  st_equity : num;
  st_exits : nat;
  st_lastExitTs : num;
  st_band : Band
}.

Definition row_isFinite (row : CandleRow) : bool :=
  num_isFinite (row_t row) && num_isFinite (row_h row)
  && num_isFinite (row_l row) && num_isFinite (row_c row).

Definition canExit (cooldownSec : num) (s : BacktestState) (row : CandleRow) : bool :=
  (row_t row >=? st_lastExitTs s + cooldownSec * num_of_Z 1000)%js.

Definition hitUpper (s : BacktestState) (row : CandleRow) : bool :=
  (row_h row >? band_upper (st_band s))%js.

Definition hitLower (s : BacktestState) (row : CandleRow) : bool :=
  (row_l row <? band_lower (st_band s))%js.

(** The [if (canExit && (hitUpper || hitLower))] block. *)
Definition exit_update (ratio : num) (s : BacktestState) (row : CandleRow)
  : BacktestState :=
  let gain := (st_equity s * FEE_PER_EXIT)%js in
  {| st_equitySeries := st_equitySeries s;
     st_equity := (st_equity s + gain)%js;
     st_exits := st_exits s + 1;
     st_lastExitTs := row_t row;
     st_band := toBand ratio (row_c row) |}.

Definition push_point (s : BacktestState) (row : CandleRow) : BacktestState :=
  {| st_equitySeries :=
       (st_equitySeries s
        ++ [{| point_t := row_t row;
               point_equity := num_toFixed (st_equity s) 6 |}])%list;
     st_equity := st_equity s;
     st_exits := st_exits s;
     st_lastExitTs := st_lastExitTs s;
     st_band := st_band s |}.

(** One iteration of [for (const row of rows)]. *)
Definition backtest_step (ratio cooldownSec : num)
    (s : BacktestState) (row : CandleRow) : BacktestState :=
  if negb (row_isFinite row) then s
  else
    let s' :=
      if canExit cooldownSec s row && (hitUpper s row || hitLower s row)
      then exit_update ratio s row
      else s in
    push_point s' row.

Definition backtest_init (ratio : num) (rows : list CandleRow) : BacktestState :=
  {| st_equitySeries := [];
     st_equity := num_of_Z 1;
     st_exits := 0;
     st_lastExitTs := num_neg_infinity;
     st_band :=
       toBand ratio
         (match rows with row :: _ => row_c row | [] => num_of_Z 1 end) |}.

Definition backtest_loop (rows : list CandleRow) (bandBps cooldownSec : num)
  : BacktestState :=
  let ratio := (bandBps / num_of_Z 10000)%js in
  fold_left (backtest_step ratio cooldownSec) rows (backtest_init ratio rows).

Definition runBacktest (rows : list CandleRow) (bandBps cooldownSec : num)
  : BacktestResult :=
  let final := backtest_loop rows bandBps cooldownSec in
  let equity := st_equity final in
  let totalFeesPct :=
    if (equity >? num_of_Z 0)%js
    then ((equity - num_of_Z 1) * num_of_Z 100)%js
    else num_of_Z 0 in
  {| equitySeries := st_equitySeries final;
     exits := st_exits final;
     totalFeesPct := num_toFixed totalFeesPct 4;
     finalEquity := num_toFixed equity 6 |}.

(** The equity after [n] exits: [equity += equity * FEE_PER_EXIT], [n]
    times from 1. *)
Definition compound_step (equity : num) : num :=
  (equity + equity * FEE_PER_EXIT)%js.

Definition compounded (n : nat) : num :=
  Nat.iter n compound_step (num_of_Z 1).

(** [(1 + FEE_PER_EXIT)^n] as a product of [n] factors. *)
Definition fee_power (n : nat) : num :=
  Nat.iter n (fun acc => ((num_of_Z 1 + FEE_PER_EXIT) * acc)%js) (num_of_Z 1).

(** ** What the loop keeps true *)

(** The accumulator is the compounding of the exits counted so far. *)
Definition compounding (s : BacktestState) : Prop :=
  st_equity s = compounded (st_exits s).

(** The order of the equity series. *)
Definition point_le (p q : EquityPoint) : Prop :=
  (point_equity p <=? point_equity q)%js = true.

(** The accumulator is the compounding of the exits, and the series is
    sorted, with every point between 1 and the rounded accumulator. *)
Record ordered (s : BacktestState) : Prop := {
  ordered_compounding : compounding s;
  ordered_series : StronglySorted point_le (st_equitySeries s);
  ordered_low :
    Forall (fun p => (num_of_Z 1 <=? point_equity p)%js = true)
           (st_equitySeries s);
  ordered_high :
    Forall (fun p => (point_equity p <=? num_toFixed (st_equity s) 6)%js = true)
           (st_equitySeries s)
}.

(** ** CSV upload *)

Record CsvRow : Type := {
  csv_timestamp : JsValue;
  csv_open : JsValue;
  csv_high : JsValue;
  csv_low : JsValue;
  csv_close : JsValue
}.

(** What the parser hands to [complete]: the rows ([None] for a row that
    is [null] or [undefined]), the messages of its errors, and the header
    fields. *)
Record ParseResult : Type := {
  res_data : list (option CsvRow);
  res_errors : list (option string);
  res_fields : option (list string)
}.

Inductive Toast : Type :=
| toast_error (message : string)
| toast_success (message : string).

(** The state the callback leaves: the toast shown and the arguments of
    [setBacktestRows] and [setCsvName]. *)
Record UploadOutcome : Type := {
  out_toast : Toast;
  out_backtestRows : list CandleRow;
  out_csvName : string
}.

Definition nullish_message (message : option string) : string :=
  match message with Some m => m | None => "Unknown parse error" end.

Definition decimal (n : nat) : string :=
  DecimalString.NilZero.string_of_uint (Nat.to_uint n).

Definition rejected (message : string) : UploadOutcome :=
  {| out_toast := toast_error message;
     out_backtestRows := [];
     out_csvName := "" |}.

Definition empty_row_message (index : nat) : string :=
  "Malformed CSV: empty row encountered (row " ++ decimal (index + 2) ++ ")".

Definition numeric_message (index : nat) : string :=
  "Malformed CSV: numeric values required (row " ++ decimal (index + 2) ++ ")".

(** One row of the loop: the candle, or the message of the toast. *)
Definition parse_row (index : nat) (row : option CsvRow) : string + CandleRow :=
  match row with
  | None => inl (empty_row_message index)
  | Some row =>
      match toNumber (csv_timestamp row), toNumber (csv_open row),
            toNumber (csv_high row), toNumber (csv_low row),
            toNumber (csv_close row) with
      | Some ts, Some open, Some high, Some low, Some close =>
          inr {| row_t := toMillis ts;
                 row_o := open;
                 row_h := high;
                 row_l := low;
                 row_c := close |}
      | _, _, _, _, _ => inl (numeric_message index)
      end
  end.

(** [for (let index = ...; index < results.data.length; index += 1)] from
    [index] on, with the candles pushed so far: the message of the row
    that ends the loop early, or all the candles. *)
Fixpoint parse_rows (index : nat) (data : list (option CsvRow))
    (parsed : list CandleRow) : string + list CandleRow :=
  match data with
  | [] => inr parsed
  | row :: rest =>
      match parse_row index row with
      | inl message => inl message
      | inr candle => parse_rows (index + 1) rest (parsed ++ [candle])%list
      end
  end.

Definition missingHeaders (fields : list string) : list string :=
  filter (fun header => negb (existsb (String.eqb header) fields))
         REQUIRED_HEADERS.

(** The [complete] callback of [handleCsvUpload]. *)
Definition csv_complete (fileName : string) (results : ParseResult)
  : UploadOutcome :=
  match res_errors results with
  | parseError :: _ =>
      rejected ("Malformed CSV: " ++ nullish_message parseError)
  | [] =>
      let fields := match res_fields results with Some f => f | None => [] end in
      match missingHeaders fields with
      | _ :: _ as missing =>
          rejected ("Malformed CSV: missing columns " ++ String.concat ", " missing)
      | [] =>
          match parse_rows 0 (res_data results) [] with
          | inl message => rejected message
          | inr [] => rejected "Malformed CSV: no valid rows found."
          | inr parsed =>
              {| out_toast :=
                   toast_success
                     ("Successfully loaded " ++ decimal (List.length parsed)
                      ++ " candles from " ++ fileName);
                 out_backtestRows := parsed;
                 out_csvName := fileName |}
          end
      end
  end.

(** ** What the upload is checked against *)

Definition is_numeric (value : JsValue) : bool :=
  match toNumber value with Some _ => true | None => false end.

(** A row that is empty, or has a required field that is missing or not
    numeric. *)
Definition malformed_row (row : option CsvRow) : bool :=
  match row with
  | None => true
  | Some row =>
      negb (is_numeric (csv_timestamp row) && is_numeric (csv_open row)
            && is_numeric (csv_high row) && is_numeric (csv_low row)
            && is_numeric (csv_close row))
  end.

(** Some required column is not among the header fields. *)
Definition header_incomplete (results : ParseResult) : bool :=
  existsb (fun header =>
             negb (existsb (String.eqb header)
                     (match res_fields results with Some f => f | None => [] end)))
          REQUIRED_HEADERS.

(** The same parse with other rows. *)
Definition with_data (results : ParseResult) (data : list (option CsvRow))
  : ParseResult :=
  {| res_data := data;
     res_errors := res_errors results;
     res_fields := res_fields results |}.

Definition is_error (toast : Toast) : bool :=
  match toast with toast_error _ => true | toast_success _ => false end.

(** The message that names row [index] of the data, which is line
    [index + 2] of the file. *)
Definition row_message (index : nat) (row : option CsvRow) : string :=
  match row with
  | None => empty_row_message index
  | Some _ => numeric_message index
  end.

End Page.

(** ** The accumulator and the order

    What the order of the equity series needs of the accumulator: however
    many exits there have been, it is at least 1, the next exit does not
    lower it, and the fees computed from it are not negative. *)
Class JsCompounding (num : Type) `{JsNumber num} : Prop := {
  compounded_ge_one : forall n : nat,
    (num_of_Z 1 <=? compounded n)%js = true;
  compounded_step : forall n : nat,
    (compounded n <=? compounded (S n))%js = true;
  compounded_fees : forall n : nat,
    (num_of_Z 0 <=? (compounded n - num_of_Z 1) * num_of_Z 100)%js = true
}.

Arguments JsCompounding num {_}.

End Analytics.

(* ================================================================== *)
(** * Test gateways and requests *)
(* ================================================================== *)

Module Stub.
Import Floats.
Import Strategy.
Import Float64.

Open Scope string_scope.

Definition wallet : string := "11111111111111111111111111111111".

Definition pool : string := "MOCK_POOL_SOL_USDC".

Definition anyPublicKey (value : string) : bool := true.

Definition body : RebalanceBody :=
  {| req_wallet := wallet; req_pool := pool; req_bandBps := 100 |}.

(** The mid price of the mock mode, 1.2345. *)
Definition midPrice : PrimFloat.float := (of_Z 12345 / of_Z 10000)%float.

Definition fixed_currentMidPrice (pool : string) (w : unit)
  : Result PrimFloat.float * unit :=
  (Success midPrice, w).

(** An inverted mapping: the higher the price, the lower the bin. *)
Definition inverted_priceToBinIndex (pool : string) (price : PrimFloat.float)
    (w : unit) : Result Z * unit :=
  (Success (if (price <? midPrice)%float then 130
            else if (midPrice <? price)%float then 110
            else 123)%Z, w).

(** A mapping that sends every price of the band to one bin. *)
Definition flat_priceToBinIndex (pool : string) (price : PrimFloat.float)
    (w : unit) : Result Z * unit :=
  (Success 123%Z, w).

Definition failing_currentMidPrice (pool : string) (w : unit)
  : Result PrimFloat.float * unit :=
  (Failure RpcError (Some "connection refused"), w).

(** A gateway whose world counts the calls: the second lookup is rate
    limited, and later ones would succeed again. *)
Definition counting_currentMidPrice (pool : string) (w : nat)
  : Result PrimFloat.float * nat :=
  (Success midPrice, S w).

Definition flaky_priceToBinIndex (pool : string) (price : PrimFloat.float)
    (w : nat) : Result Z * nat :=
  (if (w =? 2)%nat then Failure RateLimited (Some "Rate limit exceeded")
   else Success 123%Z, S w).

Definition rate_limited_call : GatewayCall :=
  CallPriceToBinIndex pool
    (midPrice * (of_Z 1 - of_Z 100 / of_Z 10000))%float
    (Failure RateLimited (Some "Rate limit exceeded")).

(** What the inverted mapping yields for [body]. *)
Definition inverted_band : TargetBins :=
  {| binLower := 110; binUpper := 130; currentBin := 123 |}.

Definition inverted_plan : RebalancePlan :=
  {| plan_inBand := true;
     plan_binLower := 110;
     plan_binUpper := 130;
     plan_midPrice := midPrice;
     plan_binIndex := 123 |}.

End Stub.

Module Candles.
Import Floats.
Import Float64.
Import Analytics.

Open Scope string_scope.

(** The double written as the decimal [n / d], [d] a power of ten. *)
Definition dec (n d : Z) : PrimFloat.float := (of_Z n / of_Z d)%float.

Definition candle (t : Z) (h l c : PrimFloat.float)
  : CandleRow (num := PrimFloat.float) :=
  {| row_t := of_Z t; row_o := c; row_h := h; row_l := l; row_c := c |}.

(** Three candles, one second apart, each with a high above the band of
    100 basis points around 1. *)
Definition first : CandleRow := candle 0 (dec 105 100) (dec 95 100) (of_Z 1).
Definition second : CandleRow :=
  candle 1000 (dec 13 10) (dec 12 10) (dec 125 100).
Definition third : CandleRow :=
  candle 2000 (dec 13 10) (dec 12 10) (dec 125 100).

Definition bandBps : PrimFloat.float := of_Z 100.
Definition cooldownSec : PrimFloat.float := of_Z 900.
Definition ratio : PrimFloat.float := (bandBps / of_Z 10000)%float.

(** [n] candles, one second apart, each with a low of one half. *)
Definition breaching (n : nat) : list CandleRow :=
  map (fun k => candle (Z.of_nat k * 1000) (of_Z 2) (dec 1 2) (of_Z 1))
      (seq 0 n).

(** The same three candles in exact arithmetic. *)
Definition exact_candle (t : Z) (h l c : Q) : CandleRow (num := Exact.xnum) :=
  {| row_t := Exact.XFin (inject_Z t);
     row_o := Exact.XFin c;
     row_h := Exact.XFin h;
     row_l := Exact.XFin l;
     row_c := Exact.XFin c |}.

Definition exact_rows : list CandleRow :=
  [exact_candle 0 (105 # 100) (95 # 100) 1;
   exact_candle 1000 (13 # 10) (12 # 10) (125 # 100);
   exact_candle 2000 (13 # 10) (12 # 10) (125 # 100)].

(** After dynamic typing a cell that is still a string is not a number. *)
Definition no_number (s : string) : PrimFloat.float := nan.

Definition csv_row (ts o h l c : JsValue (num := PrimFloat.float)) : CsvRow :=
  {| csv_timestamp := ts; csv_open := o; csv_high := h; csv_low := l;
     csv_close := c |}.

Definition good_row : CsvRow :=
  csv_row (JsNum (of_Z 1700000000)) (JsNum (of_Z 1)) (JsNum (dec 105 100))
          (JsNum (dec 95 100)) (JsNum (of_Z 1)).

Definition bad_row : CsvRow :=
  csv_row (JsNum (of_Z 1700000060)) (JsNum (of_Z 1)) (JsNum (dec 105 100))
          (JsNum (dec 95 100)) (JsStr "n/a").

Definition upload : ParseResult :=
  {| res_data := [Some good_row; Some bad_row; Some good_row];
     res_errors := [];
     res_fields := Some REQUIRED_HEADERS |}.

End Candles.

(** ** Decimal numerals *)

Module Decimals.
Import Floats.
Import Float64.

Definition numerators : list positive :=
  [1; 2; 3; 7; 10; 999999; 1000000; 1000200; 1000400; 1234567;
   9007199254740991; 9007199254740992; 9007199254740993;
   18014398509481985; 18014398509481987; 123456789012345678;
   999999999999999999999999999; 1000000000000000000000000000]%positive.

Definition decimals : list nat := [0; 4; 6; 20]%nat.

Definition agree (d : nat) (n : positive) : bool :=
  let c := Z.to_pos (10 ^ Z.of_nat d) in
  SF_eqb (nearest n c) (quotient n c).

End Decimals.

(** ** The accumulator in binary64 *)

Module Accumulator.
Import Floats.
Import Float64.
Import Analytics.

(** What is checked of an accumulator [e]: it is at least 1, an exit does
    not lower it, and the fees computed from it are not negative. *)
Definition accumulator_ok (e : PrimFloat.float) : bool :=
  (1 <=? e)%float
  && (e <=? e + e * 0x1.a36e2eb1c432dp-13)%float
  && (0 <=? (e - 1) * 100)%float.

(** One exit, and the check of the accumulator before it. *)
Definition scan_step (s : PrimFloat.float * bool) : PrimFloat.float * bool :=
  let (e, ok) := s in
  ((e + e * 0x1.a36e2eb1c432dp-13)%float, ok && accumulator_ok e).

(** A number of exits by which the accumulator has become infinite. *)
Definition overflow_exits : positive := 3600000.

End Accumulator.

(* ================================================================== *)
(** * JavaScript maps and strings *)
(* ================================================================== *)

(** A [Map]: its entries in insertion order, a key at most once. *)
Module JsMap.

Section Map.

Variables K V : Type.
Variable eqb : K -> K -> bool.

Definition t : Type := list (K * V).

(** [map.get(key)] *)
Fixpoint get (key : K) (map : t) : option V :=
  match map with
  | [] => None
  | (k, v) :: rest => if eqb key k then Some v else get key rest
  end.

(** [map.has(key)] *)
Definition has (key : K) (map : t) : bool :=
  match get key map with Some _ => true | None => false end.

(** [map.set(key, value)]: the value of an entry is replaced where the
    entry is, a new entry comes last. *)
Fixpoint set (key : K) (value : V) (map : t) : t :=
  match map with
  | [] => [(key, value)]
  | (k, v) :: rest =>
      if eqb key k then (k, value) :: rest else (k, v) :: set key value rest
  end.

(** [map.delete(key)] *)
Definition delete (key : K) (map : t) : t :=
  filter (fun entry => negb (eqb key (fst entry))) map.

End Map.

End JsMap.

Module JsString.

Open Scope string_scope.

(** [s.slice(0, n)] *)
Definition slice_to (n : nat) (s : string) : string := substring 0 n s.

(** [s.slice(-n)] *)
Definition slice_last (n : nat) (s : string) : string :=
  substring (String.length s - n) n s.

(** [String(n)] and [`${n}`] on an integer. *)
Definition of_int (n : Z) : string :=
  DecimalString.NilZero.string_of_int (Z.to_int n).

End JsString.

(* ================================================================== *)
(** * Telegram link codes *)
(* ================================================================== *)

Module LinkStore.

Open Scope string_scope.

Record PendingCode : Type := {
  pending_wallet : string;
  pending_createdAt : Z;
  pending_ttlMs : Z
}.

Record Binding : Type := {
  binding_wallet : string;
  binding_linkedAt : Z
}.

(** The two maps of the module. *)
Record Store : Type := {
  pendingByCode : JsMap.t string PendingCode;
  walletByTelegram : JsMap.t Z Binding
}.

Inductive ConsumeResult : Type :=
| Consumed (wallet : string)
| Invalid
| Expired.

Definition CODE_LENGTH : nat := 8.
Definition CODE_ALPHABET : string := "ABCDEFGHJKLMNPQRSTUVWXYZ23456789".

(** [CODE_ALPHABET[byte % CODE_ALPHABET.length]] appended to a string; an
    index outside a string gives [undefined]. *)
Definition code_char (byte : N) : string :=
  match String.get (N.to_nat (byte mod N.of_nat (String.length CODE_ALPHABET)))
                   CODE_ALPHABET with
  | Some c => String c ""
  | None => "undefined"
  end.

(** The loop of [generateCode] from [index] on, for [count] more rounds;
    [bytes.at(index) ?? 0]. *)
Fixpoint generateCode_loop (bytes : list N) (index count : nat) (code : string)
  : string :=
  match count with
  | O => code
  | S count =>
      let byte := nth index bytes 0%N in
      generateCode_loop bytes (index + 1) count (code ++ code_char byte)
  end.

(** [generateCode], on the bytes that [randomBytes(CODE_LENGTH)] returned. *)
Definition generateCode (bytes : list N) : string :=
  generateCode_loop bytes 0 CODE_LENGTH "".

(** [while (pendingByCode.has(code) && attempt < 5)]: [attempts] is how
    many attempts remain, [draw k] what the [k]-th call of [randomBytes]
    returns. *)
Fixpoint createCode_retry (pending : JsMap.t string PendingCode)
    (draw : nat -> list N) (attempts k : nat) (code : string) : string :=
  match attempts with
  | O => code
  | S attempts =>
      if JsMap.has String.eqb code pending
      then createCode_retry pending draw attempts (k + 1)
             (generateCode (draw (k + 1)%nat))
      else code
  end.

(** [createCode(wallet, ttlMs)], with [now] for [Date.now()]. *)
Definition createCode (wallet : string) (ttlMs : Z) (draw : nat -> list N)
    (now : Z) (store : Store) : string * Store :=
  let code :=
    createCode_retry (pendingByCode store) draw 5 0 (generateCode (draw 0%nat)) in
  (code,
   {| pendingByCode :=
        JsMap.set String.eqb code
          {| pending_wallet := wallet;
             pending_createdAt := now;
             pending_ttlMs := ttlMs |}
          (pendingByCode store);
      walletByTelegram := walletByTelegram store |}).

(** The default of [ttlMs]. *)
Definition default_ttlMs : Z := 10 * 60 * 1000.

(** [consumeCode(code, telegramId)]; [now] and [later] are the two
    readings of [Date.now()]. *)
Definition consumeCode (code : string) (telegramId : Z) (now later : Z)
    (store : Store) : ConsumeResult * Store :=
  match JsMap.get String.eqb code (pendingByCode store) with
  | None => (Invalid, store)
  | Some pending =>
      let age := (now - pending_createdAt pending)%Z in
      if (age >? pending_ttlMs pending)%Z then
        (Expired,
         {| pendingByCode := JsMap.delete String.eqb code (pendingByCode store);
            walletByTelegram := walletByTelegram store |})
      else
        (Consumed (pending_wallet pending),
         {| pendingByCode := JsMap.delete String.eqb code (pendingByCode store);
            walletByTelegram :=
              JsMap.set Z.eqb telegramId
                {| binding_wallet := pending_wallet pending;
                   binding_linkedAt := later |}
                (walletByTelegram store) |})
  end.

(** [getWallet(telegramId)] *)
Definition getWallet (telegramId : Z) (store : Store) : option string :=
  option_map binding_wallet (JsMap.get Z.eqb telegramId (walletByTelegram store)).

Definition clearPending (store : Store) : Store :=
  {| pendingByCode := []; walletByTelegram := walletByTelegram store |}.

Definition clearBindings (store : Store) : Store :=
  {| pendingByCode := pendingByCode store; walletByTelegram := [] |}.

(** The store when the module is loaded. *)
Definition empty : Store := {| pendingByCode := []; walletByTelegram := [] |}.

End LinkStore.

(* ================================================================== *)
(** * Strategy service: the other routes *)
(* ================================================================== *)

Module Service.
Import Strategy.

Open Scope string_scope.

(** ** [maskUrl] *)

(** [!value] holds of [undefined] and of the empty string. *)
Definition maskUrl (value : option string) : string :=
  match value with
  | None | Some EmptyString => "unknown"
  | Some value =>
      let trimmed := Analytics.trim value in
      if (String.length trimmed <=? 32)%nat then trimmed
      else
        let prefix := JsString.slice_to 24 trimmed in
        let suffix := JsString.slice_last 6 trimmed in
        prefix ++ "..." ++ suffix
  end.

(** ** Schemas *)

Definition is_upper_alphanumeric (c : ascii) : bool :=
  let n := nat_of_ascii c in
  ((65 <=? n) && (n <=? 90) || (48 <=? n) && (n <=? 57))%nat.

Fixpoint string_forallb (f : ascii -> bool) (s : string) : bool :=
  match s with
  | EmptyString => true
  | String c rest => f c && string_forallb f rest
  end.

(** [z.string().min(6).max(16).regex(/^[A-Z0-9]+$/)] *)
Definition linkCodeSchema (code : string) : bool :=
  (6 <=? String.length code)%nat && (String.length code <=? 16)%nat
  && (1 <=? String.length code)%nat
  && string_forallb is_upper_alphanumeric code.

(** [z.number().int().positive()], on an integer. *)
Definition telegramIdSchema (telegramId : Z) : bool := (0 <? telegramId)%Z.

(** ** The cooldown of a wallet *)

Definition walletCooldownMs : Z := 15000.

Inductive CooldownCheck : Type :=
| CooldownOk
| CooldownWait (retryAfter : Z).

(** [Math.ceil(ms / 1000)] on an integer number of milliseconds. *)
Definition ceil_seconds (ms : Z) : Z := (- ((- ms) / 1000))%Z.

(** [checkCooldown(wallet)], with [now] for [Date.now()] and the map
    [walletCooldown] passed through.  Times are integers. *)
Definition checkCooldown (wallet : string) (now : Z)
    (walletCooldown : JsMap.t string Z) : CooldownCheck * JsMap.t string Z :=
  let nextAllowed := nullish (JsMap.get String.eqb wallet walletCooldown) 0%Z in
  if (now <? nextAllowed)%Z then
    (CooldownWait (ceil_seconds (nextAllowed - now)), walletCooldown)
  else
    (CooldownOk,
     JsMap.set String.eqb wallet (now + walletCooldownMs)%Z walletCooldown).

(** ** Replies *)

(** The object that [sendProblem] sends, with the status code set. *)
Definition problem_body (problem : ProblemDetail) : ProblemBody :=
  {| body_type := nullish (problem_type problem) defaultProblemType;
     body_title := problem_title problem;
     body_status := problem_status problem;
     body_detail := if_truthy (problem_detail problem);
     body_code := if_truthy (problem_code problem) |}.

(** The problem of [mapResult] for a failure. *)
Definition failure_problem (title : string) (error : DomainError)
    (detail : option string) : ProblemDetail :=
  {| problem_type := Some defaultProblemType;
     problem_title := title;
     problem_status := nullish (statusByError error) 500%Z;
     problem_detail := detail;
     problem_code := Some (DomainError_code error) |}.

Section Handlers.

Context {num : Type} `{JsNumber num}.

Variable World : Type.
Variable currentMidPrice : string -> World -> Result num * World.
Variable priceToBinIndex : string -> num -> World -> Result Z * World.
Variable isPublicKey : string -> bool.
(** The message of a schema failure. *)
Variable schemaMessage : string.
(** [env.MOCK_MODE] *)
Variable MOCK_MODE : bool.
(** [createHash('md5').update(text).digest('hex')] *)
Variable md5_hex : string -> string.
(** [JSON.stringify] of the payloads of [mockTxId]. *)
Variable stringify_rebalance : RebalanceBody -> string.
Variable stringify_arm : AdvancedPlanReq (num := num) -> list Z -> string.
Variable stringify_disarm : string -> string -> string.
(** [Number(s)] on a string. *)
Variable Number_of_string : string -> num.

(** What a handler sends. *)
Inductive Reply : Type :=
| ReplyProblem (code : Z) (body : ProblemBody)
| ReplyMidPrice (midPrice : num)
| ReplyTxids (txids : list string)
| ReplyTxid (txid : string).

Definition sendProblem (problem : ProblemDetail) : Reply :=
  ReplyProblem (problem_status problem) (problem_body problem).

Definition buildProblem (status : Z) (title : string)
    (detail code : option string) : Reply :=
  sendProblem {| problem_type := Some defaultProblemType;
                 problem_title := title;
                 problem_status := status;
                 problem_detail := detail;
                 problem_code := code |}.

Definition mockTxId (prefix payload : string) : string :=
  "MOCK-" ++ JsString.slice_to 32 (md5_hex (prefix ++ ":" ++ payload)).

Definition handleNotImplemented (action : string) : Reply :=
  buildProblem 501 "Not Implemented"
    (Some (action ++ " is not implemented for live mode yet."))
    (Some "NotImplemented").

Definition retry_message (retryAfter : Z) : string :=
  "Try again in " ++ JsString.of_int retryAfter ++ " seconds.".

(** The state of the service that these handlers read and write: the
    gateway's world and the map [walletCooldown]. *)
Record State : Type := {
  st_world : World;
  st_walletCooldown : JsMap.t string Z
}.

(** [GET /price/:pool] *)
Definition price (pool : string) (st : State) : Reply * State :=
  if negb (poolSchema pool) then
    (buildProblem 400 "Invalid Request" (Some schemaMessage) (Some "InvalidInput"),
     st)
  else
    let (midPriceResult, w) := currentMidPrice pool (st_world st) in
    let st' := {| st_world := w; st_walletCooldown := st_walletCooldown st |} in
    match midPriceResult with
    | Failure error detail =>
        (sendProblem (failure_problem "Failed to fetch mid price" error detail), st')
    | Success midPrice => (ReplyMidPrice midPrice, st')
    end.

(** [POST /rebalance/execute], with [now] for [Date.now()]. *)
Definition rebalance_execute (now : Z) (body : RebalanceBody) (st : State)
  : Reply * State :=
  if negb (rebalanceBodySchema isPublicKey body) then
    (buildProblem 400 "Invalid Request" (Some schemaMessage) (Some "InvalidInput"),
     st)
  else
    let (cooldown, walletCooldown) :=
      checkCooldown (req_wallet body) now (st_walletCooldown st) in
    let st' := {| st_world := st_world st; st_walletCooldown := walletCooldown |} in
    match cooldown with
    | CooldownWait retryAfter =>
        (buildProblem 429 "Too Many Requests" (Some (retry_message retryAfter))
           (Some "RateLimited"), st')
    | CooldownOk =>
        if MOCK_MODE then
          (ReplyTxids [mockTxId "rebalance-execute" (stringify_rebalance body)], st')
        else (handleNotImplemented "Rebalance execution", st')
    end.

(** [!amount || Number(amount) <= 0] *)
Definition no_positive_size (amount : option string) : bool :=
  match amount with
  | None | Some EmptyString => true
  | Some amount => (Number_of_string amount <=? num_of_Z 0)%js
  end.

Definition is_base (side : Side) : bool :=
  match side with base => true | quote => false end.

(** [POST /orders/advanced/arm] *)
Definition advanced_arm (now : Z) (body : AdvancedPlanReq) (st : State)
  : Reply * State :=
  if negb (AdvancedPlanReq_schema body) then
    (sendProblem {| problem_type := Some defaultProblemType;
                    problem_title := "Invalid Request";
                    problem_status := 400;
                    problem_detail := Some schemaMessage;
                    problem_code := Some "InvalidInput" |}, st)
  else
    let (cooldown, walletCooldown) :=
      checkCooldown (adv_wallet body) now (st_walletCooldown st) in
    match cooldown with
    | CooldownWait retryAfter =>
        (sendProblem {| problem_type := Some defaultProblemType;
                        problem_title := "Too Many Requests";
                        problem_status := 429;
                        problem_detail := Some (retry_message retryAfter);
                        problem_code := Some "RateLimited" |},
         {| st_world := st_world st; st_walletCooldown := walletCooldown |})
    | CooldownOk =>
        let (indexResult, w) :=
          priceToBinIndex (adv_pool body) (adv_targetPrice body) (st_world st) in
        let st' := {| st_world := w; st_walletCooldown := walletCooldown |} in
        match indexResult with
        | Failure error detail =>
            (sendProblem
               (failure_problem "Failed to calculate target bin" error detail), st')
        | Success baseIndex =>
            let bins := buildAdvancedBins (adv_kind body) baseIndex in
            let singleSided := singleSidedForKind (adv_kind body) in
            let amountBase :=
              if is_base singleSided then adv_sizeBase body else None in
            let amountQuote :=
              if is_base singleSided then None else adv_sizeQuote body in
            if is_base singleSided && no_positive_size amountBase then
              (sendProblem
                 {| problem_type := Some defaultProblemType;
                    problem_title := "Invalid Request";
                    problem_status := 400;
                    problem_detail :=
                      Some "Provide a positive base size for this advanced order.";
                    problem_code := Some "InvalidInput" |}, st')
            else if negb (is_base singleSided) && no_positive_size amountQuote then
              (sendProblem
                 {| problem_type := Some defaultProblemType;
                    problem_title := "Invalid Request";
                    problem_status := 400;
                    problem_detail :=
                      Some "Provide a positive quote size for this advanced order.";
                    problem_code := Some "InvalidInput" |}, st')
            else if MOCK_MODE then
              (ReplyTxid (mockTxId "advanced-arm" (stringify_arm body bins)), st')
            else
              (sendProblem
                 {| problem_type := Some defaultProblemType;
                    problem_title := "Not Implemented";
                    problem_status := 501;
                    problem_detail :=
                      Some "Advanced order arming is not implemented for live mode yet.";
                    problem_code := Some "NotImplemented" |}, st')
        end
    end.

(** [AdvancedDisarmReq] *)
Definition AdvancedDisarmReq_schema (wallet pool : string) : bool :=
  (32 <=? String.length wallet)%nat && (1 <=? String.length pool)%nat.

(** [POST /orders/advanced/disarm] *)
Definition advanced_disarm (now : Z) (wallet pool : string) (st : State)
  : Reply * State :=
  if negb (AdvancedDisarmReq_schema wallet pool) then
    (sendProblem {| problem_type := Some defaultProblemType;
                    problem_title := "Invalid Request";
                    problem_status := 400;
                    problem_detail := Some schemaMessage;
                    problem_code := Some "InvalidInput" |}, st)
  else
    let (cooldown, walletCooldown) :=
      checkCooldown wallet now (st_walletCooldown st) in
    let st' := {| st_world := st_world st; st_walletCooldown := walletCooldown |} in
    match cooldown with
    | CooldownWait retryAfter =>
        (sendProblem {| problem_type := Some defaultProblemType;
                        problem_title := "Too Many Requests";
                        problem_status := 429;
                        problem_detail := Some (retry_message retryAfter);
                        problem_code := Some "RateLimited" |}, st')
    | CooldownOk =>
        if MOCK_MODE then
          (ReplyTxid (mockTxId "advanced-disarm" (stringify_disarm wallet pool)), st')
        else
          (sendProblem
             {| problem_type := Some defaultProblemType;
                problem_title := "Not Implemented";
                problem_status := 501;
                problem_detail :=
                  Some "Advanced order disarming is not implemented for live mode yet.";
                problem_code := Some "NotImplemented" |}, st')
    end.

End Handlers.

End Service.

(* ================================================================== *)
(** * Strategy service: the routes of the Telegram bot *)
(* ================================================================== *)

Module Bot.
Import Strategy.
Import LinkStore.
Import Service.

Open Scope string_scope.

Definition linkRateLimitMs : Z := 10000.

(** What a handler sends; [BotThrows] when the response fails its own
    schema, so that [parse] throws and nothing of the handler is sent. *)
Inductive BotReply : Type :=
| BotProblem (code : Z) (body : ProblemBody)
| BotLinkCode (code : string) (deeplink note : option string)
| BotWallet (wallet : string)
| BotThrows.

Definition buildProblem (status : Z) (title : string)
    (detail code : option string) : BotReply :=
  BotProblem status
    (problem_body {| problem_type := Some defaultProblemType;
                     problem_title := title;
                     problem_status := status;
                     problem_detail := detail;
                     problem_code := code |}).

(** The state these handlers read and write: the map
    [linkCooldownByWallet] and the two maps of the link store. *)
Record BotState : Type := {
  bot_linkCooldownByWallet : JsMap.t string Z;
  bot_store : Store
}.

(** [walletToUse], from the trimmed wallet of the request. *)
Definition walletToUse (requestedWallet : string) : string :=
  if String.eqb requestedWallet "WALLET_MOCK"
  then "11111111111111111111111111111111"
  else requestedWallet.

Section Routes.

(** [env.MOCK_MODE] *)
Variable MOCK_MODE : bool.
(** [new PublicKey(value)] succeeds. *)
Variable isPublicKey : string -> bool.
(** The messages of a schema failure and of a wallet that is no key. *)
Variable schemaMessage : string.
Variable walletMessage : string.
(** [process.env.BOT_USERNAME] and [env.BOT_USERNAME] *)
Variable process_BOT_USERNAME : option string.
Variable env_BOT_USERNAME : option string.
(** [z.string().url()] accepts. *)
Variable isUrl : string -> bool.

(** [linkCodeResponseSchema] *)
Definition linkCodeResponseSchema (code : string) (deeplink : option string)
  : bool :=
  (6 <=? String.length code)%nat
  && match deeplink with Some url => isUrl url | None => true end.

(** [z.object({ wallet: z.string().min(32) })] *)
Definition walletResponseSchema (wallet : string) : bool :=
  (32 <=? String.length wallet)%nat.

(** [POST /bot/link-code]; [now] is the handler's reading of
    [Date.now()], [created] that of [createCode]. *)
Definition link_code (now created : Z) (draw : nat -> list N)
    (wallet : string) (st : BotState) : BotReply * BotState :=
  if negb (1 <=? String.length wallet)%nat then
    (buildProblem 400 "Invalid Request" (Some schemaMessage) (Some "InvalidInput"),
     st)
  else
    let requestedWallet := Analytics.trim wallet in
    if String.eqb requestedWallet "WALLET_MOCK" && negb MOCK_MODE then
      (buildProblem 400 "Invalid Request"
         (Some "Mock wallet unavailable in live mode.") (Some "InvalidInput"), st)
    else
      let walletToUse := walletToUse requestedWallet in
      if negb (publicKeySchema isPublicKey walletToUse) then
        (buildProblem 400 "Invalid Wallet" (Some walletMessage)
           (Some "InvalidInput"), st)
      else
        let nextAllowed :=
          nullish (JsMap.get String.eqb walletToUse (bot_linkCooldownByWallet st))
                  0%Z in
        if (now <? nextAllowed)%Z then
          let retryAfter := ceil_seconds (nextAllowed - now) in
          (buildProblem 429 "Rate Limited" (Some (retry_message retryAfter))
             (Some "RateLimited"), st)
        else
          let linkCooldownByWallet :=
            JsMap.set String.eqb walletToUse (now + linkRateLimitMs)%Z
              (bot_linkCooldownByWallet st) in
          let (code, store) :=
            createCode walletToUse default_ttlMs draw created (bot_store st) in
          let st' := {| bot_linkCooldownByWallet := linkCooldownByWallet;
                        bot_store := store |} in
          let botUsername :=
            Analytics.trim
              (nullish process_BOT_USERNAME (nullish env_BOT_USERNAME "")) in
          let deeplink :=
            if (0 <? String.length botUsername)%nat
            then Some ("https://t.me/" ++ botUsername ++ "?start=link_" ++ code)
            else None in
          let note :=
            if (0 <? String.length botUsername)%nat then None
            else Some "Send /link <CODE> to your bot to complete linking." in
          if linkCodeResponseSchema code deeplink
          then (BotLinkCode code deeplink note, st')
          else (BotThrows, st').

(** [POST /bot/consume-link]; [now] and [later] are the two readings of
    [Date.now()] in [consumeCode]. *)
Definition consume_link (now later : Z) (code : string) (telegramId : Z)
    (st : BotState) : BotReply * BotState :=
  if negb (linkCodeSchema code && telegramIdSchema telegramId) then
    (buildProblem 400 "Invalid Request" (Some schemaMessage) (Some "InvalidInput"),
     st)
  else
    let (outcome, store) := consumeCode code telegramId now later (bot_store st) in
    let st' := {| bot_linkCooldownByWallet := bot_linkCooldownByWallet st;
                  bot_store := store |} in
    match outcome with
    | Expired =>
        (buildProblem 400 "Invalid Link Code" (Some "Link code expired")
           (Some "InvalidInput"), st')
    | Invalid =>
        (buildProblem 400 "Invalid Link Code" (Some "Invalid link code")
           (Some "InvalidInput"), st')
    | Consumed wallet =>
        if walletResponseSchema wallet then (BotWallet wallet, st')
        else (BotThrows, st')
    end.

(** [GET /bot/wallet/:telegramId]; [telegramId] is the number of the
    parameter when it is an integer. *)
Definition wallet_by_telegram (telegramId : option Z) (st : BotState) : BotReply :=
  match telegramId with
  | None =>
      buildProblem 400 "Invalid Request" (Some schemaMessage) (Some "InvalidInput")
  | Some telegramId =>
      if negb (telegramIdSchema telegramId) then
        buildProblem 400 "Invalid Request" (Some schemaMessage)
          (Some "InvalidInput")
      else
        match getWallet telegramId (bot_store st) with
        | None | Some EmptyString =>
            buildProblem 404 "Not Found"
              (Some "No wallet linked for this Telegram user.") (Some "NotFound")
        | Some wallet =>
            if walletResponseSchema wallet then BotWallet wallet else BotThrows
        end
  end.

End Routes.

End Bot.

(* ================================================================== *)
(** * The gateway: [priceToBinIndex] and [currentMidPrice] *)
(* ================================================================== *)

Module Gateway.
Import Strategy.

Open Scope string_scope.

Section Client.

Context {num : Type} `{JsNumber num}.

(** What the SDK client reads and may change. *)
Variable World : Type.
(** [isMockMode()] *)
Variable MOCK_MODE : bool.
(** The values that are thrown, [new Error(message)] and [mapError]. *)
Variable Thrown : Type.
Variable Error : string -> Thrown.
Variable mapError : Thrown -> DomainError * option string.
(** [getClient(env.SOLANA_RPC_URL)] followed by
    [client.fetchPoolMetadata(pool)]: it throws or returns the metadata. *)
Variable Metadata : Type.
Variable fetchPoolMetadata : string -> World -> (Thrown + Metadata) * World.
Variable computeMidPriceFromMetadata : Metadata -> num.
(** [Math.round], to the integer that the routes take a bin for. *)
Variable Math_round : num -> Z.
(** [summarizeIssues] of a failed validation. *)
Variable poolIssues : string -> string.
Variable priceIssues : string -> num -> string.

Definition BIN_SCALING : num := num_of_Z 100.

(** [z.string().min(1)] *)
Definition poolIdSchema (pool : string) : bool :=
  (1 <=? String.length pool)%nat.

(** [{ pool: poolIdSchema, targetPrice: z.number().positive() }] *)
Definition priceRequestSchema (pool : string) (targetPrice : num) : bool :=
  poolIdSchema pool && (targetPrice >? num_of_Z 0)%js.

(** [wrap], on what the wrapped function did. *)
Definition wrap {T : Type} (outcome : Thrown + T) : Result T :=
  match outcome with
  | inr value => Success value
  | inl error =>
      let mapped := mapError error in
      Failure (fst mapped) (snd mapped)
  end.

Definition priceToBinIndex (pool : string) (targetPrice : num) (w : World)
  : Result Z * World :=
  if negb (priceRequestSchema pool targetPrice) then
    (Failure InvalidInput (Some (priceIssues pool targetPrice)), w)
  else if MOCK_MODE then
    (Success (Math_round (targetPrice * num_of_Z 100)%js), w)
  else
    let (metadata, w') := fetchPoolMetadata pool w in
    (wrap match metadata with
          | inl error => inl error
          | inr _ => inr (Math_round (targetPrice * BIN_SCALING)%js)
          end, w').

(** The mid price of the mock mode, 1.2345. *)
Definition mock_midPrice : num := (num_of_Z 12345 / num_of_Z 10000)%js.

Definition currentMidPrice (pool : string) (w : World) : Result num * World :=
  if negb (poolIdSchema pool) then
    (Failure InvalidInput (Some (poolIssues pool)), w)
  else if MOCK_MODE then (Success mock_midPrice, w)
  else
    let (metadata, w') := fetchPoolMetadata pool w in
    (wrap match metadata with
          | inl error => inl error
          | inr metadata =>
              let price := computeMidPriceFromMetadata metadata in
              if (price <=? num_of_Z 0)%js then
                inl (Error "Unable to derive mid price from pool reserves")
              else inr price
          end, w').

End Client.

End Gateway.

(* ================================================================== *)
(** * The bands of the mock mode *)
(* ================================================================== *)

Module MockBands.
Import Floats.
Import Float64.

(** The prices that [computeTargetBins] asks the bins of at the band
    [bandBps] are positive, and in order when scaled by 100; [zero],
    [one], [scale] and [hundred] are the doubles of 0, 1, 10000 and 100. *)
Definition band_check (zero one scale hundred midPrice : PrimFloat.float)
    (bandBps : Z) : bool :=
  let ratio := (of_Z bandBps / scale)%float in
  let lowerPrice := (midPrice * (one - ratio))%float in
  let upperPrice := (midPrice * (one + ratio))%float in
  (zero <? midPrice)%float
  && (zero <? lowerPrice)%float
  && (zero <? upperPrice)%float
  && (lowerPrice * hundred <=? midPrice * hundred)%float
  && (midPrice * hundred <=? upperPrice * hundred)%float.

(** The check at the mid price of the mock mode. *)
Definition band_ok : Z -> bool :=
  band_check (of_Z 0) (of_Z 1) (of_Z 10000) (of_Z 100) Gateway.mock_midPrice.

(** The band widths from 1 to 9999. *)
Definition widths : list Z := map Z.of_nat (seq 1 (Z.to_nat 9999)).

(** [Math.round] on a finite double: the integer nearest to it, the
    larger one on a tie, from its key. *)
Definition Math_round (x : PrimFloat.float) : Z :=
  ((2 * key (Prim2SF x) + 2 ^ 1074) / 2 ^ 1075)%Z.

End MockBands.

(* ================================================================== *)
(** * More test data *)
(* ================================================================== *)

Module Samples.
Import Floats.
Import Strategy.
Import Analytics.
Import Service.
Import Float64.

Open Scope string_scope.

(** Two candles inside the band of 100 basis points around 1. *)
Definition quiet : list CandleRow :=
  [Candles.candle 0 (Candles.dec 1005 1000) (Candles.dec 995 1000) (of_Z 1);
   Candles.candle 1000 (Candles.dec 1009 1000) (Candles.dec 991 1000)
     (Candles.dec 1001 1000)].

(** A candle whose close is NaN, before candles that leave every band. *)
Definition blank : CandleRow (num := PrimFloat.float) :=
  Candles.candle 0 (of_Z 2) (Candles.dec 1 2) nan.

(** A file of two well-formed rows. *)
Definition accepted_upload : ParseResult :=
  {| res_data := [Some Candles.good_row; Some Candles.good_row];
     res_errors := [];
     res_fields := Some REQUIRED_HEADERS |}.

(** A request to arm a limit sell of 5, and one whose size is no number. *)
Definition sell (sizeBase : option string) : AdvancedPlanReq :=
  {| adv_wallet := Stub.wallet;
     adv_pool := Stub.pool;
     adv_kind := limitSell;
     adv_targetPrice := Stub.midPrice;
     adv_sizeQuote := None;
     adv_sizeBase := sizeBase |}.

(** [Number] on the sizes of the requests. *)
Definition size_of_string (s : string) : PrimFloat.float :=
  if String.eqb s "5" then of_Z 5 else nan.

(** Stand-ins for the hash and for [JSON.stringify]. *)
Definition plain_hash (text : string) : string := text.
Definition stringify_rebalance (body : RebalanceBody) : string :=
  req_wallet body ++ "," ++ req_pool body.
Definition stringify_arm (body : AdvancedPlanReq (num := PrimFloat.float))
    (bins : list Z) : string :=
  adv_wallet body ++ "," ++ adv_pool body.
Definition stringify_disarm (wallet pool : string) : string :=
  wallet ++ "," ++ pool.

(** The service before any request. *)
Definition fresh : State unit := {| st_world := tt; st_walletCooldown := [] |}.

(** A body with the widest band that the schema lets through. *)
Definition full_band : RebalanceBody :=
  {| req_wallet := Stub.wallet; req_pool := Stub.pool; req_bandBps := 10000 |}.

(** An SDK client that finds every pool, with reserves that give the mid
    price of the mock mode. *)
Definition thrown_message (message : string) : string := message.
Definition mapError (message : string) : DomainError * option string :=
  (SdkError, Some message).
Definition fetchPoolMetadata (pool : string) (w : unit) : (string + unit) * unit :=
  (inr tt, w).
Definition computeMidPriceFromMetadata (metadata : unit) : PrimFloat.float :=
  Stub.midPrice.
Definition poolIssues (pool : string) : string := "input: Pool address is required".
Definition priceIssues (pool : string) (price : PrimFloat.float) : string :=
  "targetPrice: Number must be greater than 0".

(** The bot's routes before any request, a random source that returns
    the bytes 0 to 7 and a check of links that accepts every text. *)
Definition bot_fresh : Bot.BotState :=
  {| Bot.bot_linkCooldownByWallet := []; Bot.bot_store := LinkStore.empty |}.
Definition bytes (k : nat) : list N := [0; 1; 2; 3; 4; 5; 6; 7]%N.
Definition anyUrl (url : string) : bool := true.

End Samples.

(* ================================================================== *)
(** * Advanced-order bins on the doubles *)
(* ================================================================== *)

Module AdvancedOrders.
Import Floats.
Import Strategy.
Import Float64.

(** A double that has the sign [s] and is neither a zero nor NaN. *)
Definition signed (s : bool) (x : spec_float) : Prop :=
  match x with
  | S754_finite s' _ _ | S754_infinity s' => s' = s
  | _ => False
  end.

(** A double that is a zero or a finite number. *)
Definition is_number (x : spec_float) : bool :=
  match x with
  | S754_zero _ | S754_finite _ _ _ => true
  | _ => false
  end.

(** The double of the integer [n] of [d] binary digits, at most 53, with
    the sign [s]: the mantissa is [n] shifted to 53 bits. *)
Definition of_integer (s : bool) (n : Z) : spec_float :=
  match n with
  | Z.pos p =>
      let d := Z.pos (digits2_pos p) in
      S754_finite s (Z.to_pos (Z.pos p * 2 ^ (53 - d))) (d - 53)
  | _ => S754_zero s
  end.

(** [Math.trunc]: the integer part, with the sign of the number. *)
Definition Math_trunc (x : PrimFloat.float) : PrimFloat.float :=
  match Prim2SF x with
  | S754_finite s m e =>
      if (0 <=? e)%Z then x
      else SF2Prim (of_integer s (Z.pos m / 2 ^ (- e)))
  | _ => x
  end.

(** [Math.round]: the nearest integer, the larger one of two, with the
    sign of the number when that integer is zero. *)
Definition Math_round (x : PrimFloat.float) : PrimFloat.float :=
  match Prim2SF x with
  | S754_finite s m e =>
      if (0 <=? e)%Z then x
      else
        let n := if s then (2 * Z.pos m + 2 ^ (- e) - 1) / 2 ^ (1 - e)
                 else (2 * Z.pos m + 2 ^ (- e)) / 2 ^ (1 - e) in
        SF2Prim (of_integer s n)
  | _ => x
  end%Z.

(** [Math.max(a, b)]: NaN when an argument is NaN, and [+0] above [-0]. *)
Definition Math_max (a b : PrimFloat.float) : PrimFloat.float :=
  if PrimFloat.is_nan a || PrimFloat.is_nan b then nan
  else if (a <? b)%float then b
  else if (b <? a)%float then a
  else if get_sign a then b else a.

(** [Number.isFinite] and [Number.isInteger] *)
Definition Number_isFinite (x : PrimFloat.float) : bool := PrimFloat.is_finite x.

Definition Number_isInteger (x : PrimFloat.float) : bool :=
  PrimFloat.is_finite x && (Math_trunc x =? x)%float.

(** The equality of a [Set]: NaN is equal to NaN and [-0] to [+0]. *)
Definition SameValueZero (a b : PrimFloat.float) : bool :=
  (a =? b)%float || (PrimFloat.is_nan a && PrimFloat.is_nan b).

(** [set.add(x)]: a value that the set holds is not added again, and
    [-0] is stored as [+0]. *)
Definition Set_add (seen : list PrimFloat.float) (x : PrimFloat.float)
  : list PrimFloat.float :=
  if existsb (SameValueZero x) seen then seen
  else (seen ++ [if is_zero x then zero else x])%list.

(** [Array.from(new Set(xs))]: the values in order of insertion. *)
Definition Array_from_Set (xs : list PrimFloat.float) : list PrimFloat.float :=
  fold_left Set_add xs [].

(** The comparison of [sort]: a comparator's NaN counts as [+0]. *)
Definition SortCompare (compare : PrimFloat.float -> PrimFloat.float -> PrimFloat.float)
    (x y : PrimFloat.float) : PrimFloat.float :=
  let v := compare x y in
  if PrimFloat.is_nan v then zero else v.

(** [xs.sort(compare)]: a stable sort by the sign of the comparison. *)
Fixpoint sort_insert (compare : PrimFloat.float -> PrimFloat.float -> PrimFloat.float)
    (x : PrimFloat.float) (sorted : list PrimFloat.float) : list PrimFloat.float :=
  match sorted with
  | [] => [x]
  | y :: rest =>
      if (SortCompare compare y x <=? zero)%float
      then y :: sort_insert compare x rest
      else x :: sorted
  end.

Definition Array_sort (compare : PrimFloat.float -> PrimFloat.float -> PrimFloat.float)
    (xs : list PrimFloat.float) : list PrimFloat.float :=
  fold_left (fun sorted x => sort_insert compare x sorted) xs [].

(** A bin that [sanitized] keeps: a finite integer that is not negative. *)
Definition is_bin (x : PrimFloat.float) : Prop :=
  PrimFloat.is_finite x = true
  /\ (of_Z 0 <=? x)%float = true
  /\ Number_isInteger x = true.

(** Values that are different from one another, and values in strictly
    ascending order. *)
Definition distinct (l : list PrimFloat.float) : Prop :=
  StronglySorted (fun a b => (a =? b)%float = false) l.

Definition ascending (l : list PrimFloat.float) : Prop :=
  StronglySorted (fun a b => (a <? b)%float = true) l.

(** The integers whose doubles are exact: those below [2^53] in absolute
    value. *)
Definition small (n : Z) : Prop := (Z.abs n < 2 ^ 53)%Z.

Definition coreBins (kind : AdvancedKind) (baseIndex : PrimFloat.float)
  : list PrimFloat.float :=
  match kind with
  | limitSell => [baseIndex; baseIndex + of_Z 1; baseIndex + of_Z 2]
  | _ => [baseIndex; baseIndex - of_Z 1; baseIndex - of_Z 2]
  end%float.

Definition sanitized (kind : AdvancedKind) (baseIndex : PrimFloat.float)
  : list PrimFloat.float :=
  map Math_trunc
    (filter (fun bin => Number_isFinite bin && (of_Z 0 <=? bin)%float)
            (coreBins kind baseIndex)).

Definition buildAdvancedBins (kind : AdvancedKind) (baseIndex : PrimFloat.float)
  : list PrimFloat.float :=
  let unique := Array_from_Set (sanitized kind baseIndex) in
  let unique :=
    if (List.length unique =? 0)%nat
    then (unique ++ [Math_max (of_Z 0) (Math_trunc baseIndex)])%list
    else unique in
  Array_sort (fun a b => a - b)%float unique.

(** ** [POST /orders/advanced/plan] over the gateway *)

Section Plan.

Open Scope string_scope.

(** What the SDK client reads and may change. *)
Variable World : Type.
(** [isMockMode()] *)
Variable MOCK_MODE : bool.
(** The values that are thrown and [mapError]. *)
Variable Thrown : Type.
Variable mapError : Thrown -> DomainError * option string.
(** [getClient(env.SOLANA_RPC_URL)] followed by
    [client.fetchPoolMetadata(pool)]: it throws or returns the metadata. *)
Variable Metadata : Type.
Variable fetchPoolMetadata : string -> World -> (Thrown + Metadata) * World.
(** [summarizeIssues] of a failed validation, and the message of a
    schema failure of the route. *)
Variable priceIssues : string -> PrimFloat.float -> string.
Variable schemaMessage : string.

(** [priceToBinIndex] of the gateway; the bin is the double that
    [Math.round] returns. *)
Definition priceToBinIndex (pool : string) (targetPrice : PrimFloat.float)
    (w : World) : Result PrimFloat.float * World :=
  if negb (Gateway.priceRequestSchema pool targetPrice) then
    (Failure InvalidInput (Some (priceIssues pool targetPrice)), w)
  else if MOCK_MODE then
    (Success (Math_round (targetPrice * of_Z 100)%float), w)
  else
    let (metadata, w') := fetchPoolMetadata pool w in
    (Gateway.wrap mapError
       match metadata with
       | inl error => inl error
       | inr _ => inr (Math_round (targetPrice * Gateway.BIN_SCALING)%float)
       end, w').

(** What the handler sends; [PlanThrows] when the response fails
    [AdvancedPlanResp], so that [parse] throws and no plan is sent. *)
Inductive PlanReply : Type :=
| PlanProblem (code : Z) (body : ProblemBody)
| PlanSent (bins : list PrimFloat.float) (singleSided : Side) (note : string)
| PlanThrows.

(** [AdvancedPlanResp]: [bins] is [z.array(z.number().int())]. *)
Definition AdvancedPlanResp_schema (bins : list PrimFloat.float) : bool :=
  forallb Number_isInteger bins.

(** [POST /orders/advanced/plan] *)
Definition advanced_plan (body : AdvancedPlanReq) (w : World)
  : PlanReply * World :=
  if negb (AdvancedPlanReq_schema body) then
    (PlanProblem 400
       (Service.problem_body
          {| problem_type := Some defaultProblemType;
             problem_title := "Invalid Request";
             problem_status := 400;
             problem_detail := Some schemaMessage;
             problem_code := Some "InvalidInput" |}), w)
  else
    let (indexResult, w') :=
      priceToBinIndex (adv_pool body) (adv_targetPrice body) w in
    match indexResult with
    | Failure error detail =>
        let problem :=
          Service.failure_problem "Failed to calculate target bin" error detail in
        (PlanProblem (problem_status problem) (Service.problem_body problem), w')
    | Success baseIndex =>
        let bins := buildAdvancedBins (adv_kind body) baseIndex in
        let singleSided := singleSidedForKind (adv_kind body) in
        let note := noteForKind (adv_kind body) in
        if AdvancedPlanResp_schema bins
        then (PlanSent bins singleSided note, w')
        else (PlanThrows, w')
    end.

End Plan.

(** A request to plan a limit sell at the price [1e308]. *)
Definition dear : AdvancedPlanReq :=
  {| adv_wallet := Stub.wallet;
     adv_pool := Stub.pool;
     adv_kind := limitSell;
     adv_targetPrice := of_Z (10 ^ 308);
     adv_sizeQuote := None;
     adv_sizeBase := None |}.

End AdvancedOrders.

(* ================================================================== *)
(** * The laws in the two arithmetics *)
(* ================================================================== *)

Module Float64Laws.
Import Floats.
Import Float64.
Import Analytics.
Import Accumulator.
#[local] Open Scope Z_scope.

(** ** Valid doubles and their keys *)

(** A mantissa of [d] binary digits lies from [2^(d-1)] up to [2^d]. *)
Lemma digits2_pos_bounds (m : positive) :
  2 ^ (Z.pos (digits2_pos m) - 1) <= Z.pos m < 2 ^ Z.pos (digits2_pos m).
Proof.
  induction m as [m IH | m IH |]; simpl digits2_pos.
  - rewrite Pos2Z.inj_succ. change (Z.pos m~1) with (2 * Z.pos m + 1).
    replace (Z.succ (Z.pos (digits2_pos m)) - 1)
      with (Z.succ (Z.pos (digits2_pos m) - 1)) by lia.
    rewrite !Z.pow_succ_r by lia. lia.
  - rewrite Pos2Z.inj_succ. change (Z.pos m~0) with (2 * Z.pos m).
    replace (Z.succ (Z.pos (digits2_pos m)) - 1)
      with (Z.succ (Z.pos (digits2_pos m) - 1)) by lia.
    rewrite !Z.pow_succ_r by lia. lia.
  - simpl. lia.
Qed.

(** A finite double has an exponent from [-1074] to [971] and a mantissa
    below [2^53], of 53 bits unless the exponent is the least one. *)
Lemma valid_finite (s : bool) (m : positive) (e : Z) :
  valid_binary (S754_finite s m e) = true ->
  -1074 <= e <= 971 /\ Z.pos m < 2 ^ 53 /\ (-1074 < e -> 2 ^ 52 <= Z.pos m).
Proof.
  unfold valid_binary, bounded, canonical_mantissa, fexp, SpecFloat.emin.
  change prec with 53. change emax with 1024.
  intros H. apply andb_true_iff in H as [Hc He].
  apply Z.eqb_eq in Hc. apply Z.leb_le in He.
  pose proof (digits2_pos_bounds m) as [Hlo Hhi].
  set (d := Z.pos (digits2_pos m)) in *.
  assert (d <= 53 /\ (-1074 < e -> d = 53)) as [Hd Hd'] by lia.
  repeat split; try lia.
  - eapply Z.lt_le_trans; [exact Hhi|]. apply Z.pow_le_mono_r; lia.
  - intros Hgt. rewrite (Hd' Hgt) in Hlo. exact Hlo.
Qed.

(** The key of a positive finite double lies between those of 0 and of
    [Infinity]. *)
Lemma scaled_pos (s : bool) (m : positive) (e : Z) :
  valid_binary (S754_finite s m e) = true -> 0 < scaled m e < infinite_key.
Proof.
  intros H. apply valid_finite in H as (He & Hm & _). unfold scaled, infinite_key.
  assert (0 < 2 ^ (e + 1074)) as Hp by (apply Z.pow_pos_nonneg; lia).
  split; [lia|].
  apply Z.lt_le_trans with (2 ^ 53 * 2 ^ (e + 1074)).
  - apply Z.mul_lt_mono_pos_r; assumption.
  - rewrite <- Z.pow_add_r by lia. apply Z.pow_le_mono_r; lia.
Qed.

(** Of two positive doubles the one with the larger exponent is the
    larger. *)
Lemma scaled_lt (s1 s2 : bool) (m1 m2 : positive) (e1 e2 : Z) :
  valid_binary (S754_finite s1 m1 e1) = true ->
  valid_binary (S754_finite s2 m2 e2) = true ->
  e1 < e2 -> scaled m1 e1 < scaled m2 e2.
Proof.
  intros H1 H2 Hlt.
  apply valid_finite in H1 as (He1 & Hm1 & _).
  apply valid_finite in H2 as (He2 & _ & Hm2).
  specialize (Hm2 ltac:(lia)). unfold scaled.
  assert (0 < 2 ^ (e1 + 1074)) as Hp by (apply Z.pow_pos_nonneg; lia).
  apply Z.lt_le_trans with (2 ^ 53 * 2 ^ (e1 + 1074)).
  - apply Z.mul_lt_mono_pos_r; assumption.
  - apply Z.le_trans with (2 ^ 52 * 2 ^ (e2 + 1074)).
    + change (2 ^ 53) with (2 ^ 52 * 2). rewrite <- Z.mul_assoc.
      apply Z.mul_le_mono_nonneg_l; [lia|].
      rewrite <- Z.pow_succ_r by lia. apply Z.pow_le_mono_r; lia.
    + apply Z.mul_le_mono_nonneg_r; [|assumption].
      apply Z.pow_nonneg. lia.
Qed.

(** Keys are compared as [SFcompare] compares: exponents first, then
    mantissas. *)
Lemma scaled_compare (s1 s2 : bool) (m1 m2 : positive) (e1 e2 : Z) :
  valid_binary (S754_finite s1 m1 e1) = true ->
  valid_binary (S754_finite s2 m2 e2) = true ->
  (scaled m1 e1 ?= scaled m2 e2)
  = match e1 ?= e2 with
    | Lt => Lt
    | Gt => Gt
    | Eq => Pos.compare_cont Eq m1 m2
    end.
Proof.
  intros H1 H2. destruct (Z.compare_spec e1 e2) as [-> | Hlt | Hgt].
  - fold (Pos.compare m1 m2). unfold scaled.
    apply valid_finite in H1 as (He & _ & _).
    assert (0 < 2 ^ (e2 + 1074)) as Hp by (apply Z.pow_pos_nonneg; lia).
    destruct (Pos.compare_spec m1 m2) as [-> | Hm | Hm].
    + apply Z.compare_refl.
    + apply Z.compare_lt_iff, Z.mul_lt_mono_pos_r; [assumption | lia].
    + apply Z.compare_gt_iff, Z.mul_lt_mono_pos_r; [assumption | lia].
  - apply Z.compare_lt_iff. eapply scaled_lt; eassumption.
  - apply Z.compare_gt_iff. eapply scaled_lt; eassumption.
Qed.

(** On valid floats that are not NaN, comparison is the order of the keys. *)
Lemma SFcompare_key (x y : spec_float) :
  valid_binary x = true -> valid_binary y = true ->
  is_nan x = false -> is_nan y = false ->
  SFcompare x y = Some (key x ?= key y).
Proof.
  intros Vx Vy Nx Ny.
  destruct x as [sx | sx | | sx mx ex]; try discriminate;
    destruct y as [sy | sy | | sy my ey]; try discriminate;
    try (pose proof (scaled_pos _ _ _ Vx) as Px);
    try (pose proof (scaled_pos _ _ _ Vy) as Py);
    assert (0 < infinite_key) as Pinf by reflexivity;
    cbn [SFcompare key]; f_equal; symmetry;
    repeat match goal with
    | s : bool |- _ => destruct s
    end;
    try reflexivity;
    try (apply Z.compare_lt_iff; lia);
    try (apply Z.compare_gt_iff; lia);
    try (apply Z.compare_eq_iff; lia).
  - rewrite Z.compare_opp. rewrite (scaled_compare _ _ _ _ _ _ Vy Vx).
    rewrite (Z.compare_antisym ey ex).
    destruct (ey ?= ex); simpl; try reflexivity.
    fold (Pos.compare my mx). fold (Pos.compare mx my).
    rewrite (Pos.compare_antisym my mx). now rewrite CompOpp_involutive.
  - apply (scaled_compare _ _ _ _ _ _ Vx Vy).
Qed.

(** [<=] and [<] on doubles, by keys. *)
Lemma SFleb_key (x y : spec_float) :
  valid_binary x = true -> valid_binary y = true ->
  SFleb x y = true <-> is_nan x = false /\ is_nan y = false /\ key x <= key y.
Proof.
  intros Vx Vy. unfold SFleb. split.
  - intros H.
    assert (is_nan x = false /\ is_nan y = false) as [Nx Ny].
    { destruct x, y; try discriminate; split; reflexivity. }
    repeat split; try assumption.
    rewrite (SFcompare_key _ _ Vx Vy Nx Ny) in H.
    destruct (Z.compare_spec (key x) (key y)); try discriminate; lia.
  - intros (Nx & Ny & Hle).
    rewrite (SFcompare_key _ _ Vx Vy Nx Ny).
    destruct (Z.compare_spec (key x) (key y)); try reflexivity; lia.
Qed.

Lemma SFltb_key (x y : spec_float) :
  valid_binary x = true -> valid_binary y = true ->
  SFltb x y = true <-> is_nan x = false /\ is_nan y = false /\ key x < key y.
Proof.
  intros Vx Vy. unfold SFltb. split.
  - intros H.
    assert (is_nan x = false /\ is_nan y = false) as [Nx Ny].
    { destruct x, y; try discriminate; split; reflexivity. }
    repeat split; try assumption.
    rewrite (SFcompare_key _ _ Vx Vy Nx Ny) in H.
    destruct (Z.compare_spec (key x) (key y)); try discriminate; lia.
  - intros (Nx & Ny & Hle).
    rewrite (SFcompare_key _ _ Vx Vy Nx Ny).
    destruct (Z.compare_spec (key x) (key y)); try reflexivity; lia.
Qed.

(** ** Rounding a quotient *)

(** Rounding is to the quotient or to the next integer, and is monotone. *)
Lemma round_half_even_bounds (a b : Z) :
  a / b <= round_half_even a b <= a / b + 1.
Proof.
  unfold round_half_even.
  destruct (2 * (a mod b) ?= b); [destruct (Z.even (a / b))| |]; lia.
Qed.

Lemma round_half_even_mono (a a' b : Z) :
  0 < b -> a <= a' -> round_half_even a b <= round_half_even a' b.
Proof.
  intros Hb Hle.
  pose proof (Z.div_le_mono a a' b Hb Hle) as Hq.
  destruct (Z.eq_dec (a / b) (a' / b)) as [E | NE].
  - assert (a mod b <= a' mod b) as Hr.
    { rewrite (Z.mod_eq a b), (Z.mod_eq a' b), E by lia. lia. }
    unfold round_half_even. rewrite E.
    destruct (Z.compare_spec (2 * (a mod b)) b),
             (Z.compare_spec (2 * (a' mod b)) b),
             (Z.even (a' / b)); lia.
  - pose proof (round_half_even_bounds a b).
    pose proof (round_half_even_bounds a' b). lia.
Qed.

(** [binade N C] is the binade of [N / C], and grows with [N]. *)
Lemma binade_spec (N C : Z) :
  0 < C -> 2 * C <= N ->
  0 <= binade N C /\ C * 2 ^ binade N C <= N < C * 2 ^ (binade N C + 1).
Proof.
  intros HC HN. unfold binade.
  assert (0 < N) as HN0 by lia.
  pose proof (Z.log2_spec N HN0) as [Na Nb].
  pose proof (Z.log2_spec C HC) as [Ca Cb].
  pose proof (Z.log2_nonneg C) as HlC.
  assert (Z.log2 C + 1 <= Z.log2 N) as Hlog.
  { pose proof (Z.log2_double C HC) as Hd.
    pose proof (Z.log2_le_mono (2 * C) N HN). lia. }
  set (a := Z.log2 N) in *. set (b := Z.log2 C) in *.
  assert (2 ^ a = 2 ^ b * 2 ^ (a - b)) as Hab.
  { rewrite <- Z.pow_add_r by lia. f_equal. lia. }
  assert (0 < 2 ^ (a - b - 1)) as Hp by (apply Z.pow_pos_nonneg; lia).
  assert (2 ^ (a - b) = 2 * 2 ^ (a - b - 1)) as Hs.
  { rewrite <- Z.pow_succ_r by lia. f_equal. lia. }
  assert (2 ^ (a - b + 1) = 2 * 2 ^ (a - b)) as Hs'.
  { rewrite <- Z.pow_succ_r by lia. f_equal. }
  rewrite Z.pow_succ_r in Nb, Cb by lia.
  destruct (Z.ltb_spec N (C * 2 ^ (a - b))) as [Hlt | Hge].
  - replace (a - b - 1 + 1) with (a - b) by lia.
    split; [lia|]. split; [|assumption]. nia.
  - split; [lia|]. split; [assumption|]. nia.
Qed.

Lemma binade_mono (C N N' E E' : Z) :
  0 < C -> 0 <= E -> 0 <= E' ->
  C * 2 ^ E <= N -> N' < C * 2 ^ (E' + 1) -> N <= N' -> E <= E'.
Proof.
  intros HC HE HE' Hlo Hhi Hle.
  destruct (Z.le_gt_cases E E') as [|Hgt]; [assumption|exfalso].
  assert (2 ^ (E' + 1) <= 2 ^ E) by (apply Z.pow_le_mono_r; lia).
  nia.
Qed.

(** A mantissa of 53 bits with an exponent in range is a double. *)
Lemma finite_valid (s : bool) (m : positive) (e : Z) :
  2 ^ 52 <= Z.pos m < 2 ^ 53 -> -1074 <= e <= 971 ->
  valid_binary (S754_finite s m e) = true.
Proof.
  intros [Hlo Hhi] He.
  pose proof (digits2_pos_bounds m) as [Dlo Dhi].
  assert (Z.pos (digits2_pos m) = 53) as Hd.
  { assert (Z.pos (digits2_pos m) - 1 < 53).
    { apply (Z.pow_lt_mono_r_iff 2); lia. }
    assert (52 < Z.pos (digits2_pos m)).
    { apply (Z.pow_lt_mono_r_iff 2); lia. }
    lia. }
  unfold valid_binary, bounded, canonical_mantissa, fexp, SpecFloat.emin.
  rewrite Hd. change prec with 53. change emax with 1024.
  apply andb_true_iff. split; [apply Z.eqb_eq | apply Z.leb_le]; lia.
Qed.

(** The result of [nearest n c] for [c] up to [2^340] and [n / c] up to
    [2^600]: the binade is in range, the rounded mantissa has 53 bits or
    is [2^53], the result is a double, and its key is the rounded
    mantissa at the binade. *)
Section Nearest.

Variables n c : positive.
Hypothesis c_range : Z.pos c <= 2 ^ 340.
Hypothesis n_range : Z.pos n <= Z.pos c * 2 ^ 600.

Let N := Z.pos n * 2 ^ 400.
Let C := Z.pos c.
Let E := binade N C.
Let D := C * 2 ^ (E - 52).

Lemma nearest_binade :
  60 <= E <= 1000 /\ C * 2 ^ E <= N < C * 2 ^ (E + 1).
Proof.
  assert (0 < C) as HC by (unfold C; lia).
  assert (2 ^ 400 <= N) as HN by (unfold N; lia).
  assert (2 * C <= N) as H2.
  { apply Z.le_trans with (2 ^ 400); [|assumption].
    unfold C. lia. }
  destruct (@binade_spec N C HC H2) as (HE & Hlo & Hhi). fold E in HE, Hlo, Hhi.
  split; [split|split; assumption].
  - apply (@binade_mono C N N 60 E); lia.
  - apply (@binade_mono C N N E 1000); unfold N in *; lia.
Qed.

Lemma nearest_mantissa :
  0 < D /\ 2 ^ 52 <= round_half_even N D <= 2 ^ 53.
Proof.
  destruct nearest_binade as ([HE _] & Hlo & Hhi).
  assert (0 < C) as HC by (unfold C; lia).
  assert (0 < 2 ^ (E - 52)) as Hp by (apply Z.pow_pos_nonneg; lia).
  assert (0 < D) as HD by (unfold D; lia).
  assert (2 ^ E = 2 ^ 52 * 2 ^ (E - 52)) as HE52.
  { rewrite <- Z.pow_add_r by lia. f_equal. lia. }
  assert (2 ^ (E + 1) = 2 ^ 53 * 2 ^ (E - 52)) as HE53.
  { rewrite <- Z.pow_add_r by lia. f_equal. lia. }
  assert (2 ^ 52 <= N / D < 2 ^ 53) as [Qlo Qhi].
  { split.
    - apply Z.div_le_lower_bound; [assumption|]. unfold D. rewrite HE52 in Hlo. lia.
    - apply Z.div_lt_upper_bound; [assumption|]. unfold D. rewrite HE53 in Hhi. lia. }
  pose proof (round_half_even_bounds N D). split; [assumption | lia].
Qed.

Lemma nearest_valid : valid_binary (nearest n c) = true.
Proof.
  destruct nearest_binade as (HE & _).
  destruct nearest_mantissa as (_ & Hlo & Hhi).
  unfold nearest. fold N C E D.
  destruct (Z.eqb_spec (round_half_even N D) (2 ^ 53)) as [Heq | Hne].
  - apply finite_valid; [|lia]. split; reflexivity.
  - apply finite_valid; [|lia]. rewrite Z2Pos.id by lia. lia.
Qed.

Lemma nearest_key :
  key (nearest n c) = round_half_even N D * 2 ^ (E + 622).
Proof.
  destruct nearest_binade as (HE & _).
  destruct nearest_mantissa as (_ & Hlo & Hhi).
  unfold nearest. fold N C E D.
  destruct (Z.eqb_spec (round_half_even N D) (2 ^ 53)) as [Heq | Hne];
    cbn [key]; unfold scaled.
  - rewrite Heq. replace (E - 451 + 1074) with (Z.succ (E + 622)) by lia.
    rewrite Z.pow_succ_r by lia. rewrite Z2Pos.id by reflexivity.
    change (2 ^ 53) with (2 ^ 52 * 2). lia.
  - rewrite Z2Pos.id by lia. f_equal. f_equal. lia.
Qed.

End Nearest.

(** [nearest] is monotone in the numerator. *)
Lemma nearest_mono (n n' c : positive) :
  Z.pos c <= 2 ^ 340 -> Z.pos n' <= Z.pos c * 2 ^ 600 ->
  (n <= n')%positive ->
  key (nearest n c) <= key (nearest n' c).
Proof.
  intros Hc Hn' Hle.
  assert (Z.pos n <= Z.pos c * 2 ^ 600) as Hn by lia.
  rewrite (@nearest_key n c Hc Hn), (@nearest_key n' c Hc Hn').
  destruct (@nearest_binade n c Hc Hn) as (HE & Hlo & Hhi).
  destruct (@nearest_binade n' c Hc Hn') as (HE' & Hlo' & Hhi').
  destruct (@nearest_mantissa n c Hc Hn) as (HD & Mlo & Mhi).
  destruct (@nearest_mantissa n' c Hc Hn') as (HD' & Mlo' & Mhi').
  set (N := Z.pos n * 2 ^ 400) in *. set (N' := Z.pos n' * 2 ^ 400) in *.
  set (E := binade N (Z.pos c)) in *. set (E' := binade N' (Z.pos c)) in *.
  assert (N <= N') as HN by (unfold N, N'; lia).
  assert (E <= E') as HEE.
  { apply (@binade_mono (Z.pos c) N N'); lia. }
  destruct (Z.eq_dec E E') as [Heq | Hne].
  - rewrite <- Heq in *. apply Z.mul_le_mono_nonneg_r.
    + apply Z.pow_nonneg. lia.
    + apply round_half_even_mono; assumption.
  - assert (0 < 2 ^ (E + 622)) as Hp by (apply Z.pow_pos_nonneg; lia).
    assert (2 * 2 ^ (E + 622) <= 2 ^ (E' + 622)) as Hpp.
    { rewrite <- Z.pow_succ_r by lia. apply Z.pow_le_mono_r; lia. }
    apply Z.le_trans with (2 ^ 53 * 2 ^ (E + 622)).
    + apply Z.mul_le_mono_nonneg_r; lia.
    + apply Z.le_trans with (2 ^ 52 * 2 ^ (E' + 622)).
      * change (2 ^ 53) with (2 ^ 52 * 2). lia.
      * apply Z.mul_le_mono_nonneg_r; lia.
Qed.

(** A common factor does not change the rounded quotient. *)
Lemma round_half_even_scale (a b t : Z) :
  0 < b -> 0 < t -> round_half_even (a * t) (b * t) = round_half_even a b.
Proof.
  intros Hb Ht. unfold round_half_even.
  rewrite Z.div_mul_cancel_r, Z.mul_mod_distr_r by lia.
  replace (2 * (a mod b * t)) with (2 * (a mod b) * t) by lia.
  destruct (Z.compare_spec (2 * (a mod b)) b) as [H | H | H].
  - rewrite H, Z.compare_refl. reflexivity.
  - assert (2 * (a mod b) * t < b * t) as H' by nia.
    apply Z.compare_lt_iff in H'. now rewrite H'.
  - assert (b * t < 2 * (a mod b) * t) as H' by nia.
    apply Z.compare_gt_iff in H'. now rewrite H'.
Qed.

(** A common factor of the two integers does not change the result. *)
Lemma nearest_scale (k t : positive) :
  Z.pos t <= 2 ^ 340 -> Z.pos k <= 2 ^ 600 ->
  nearest (k * t) t = nearest k 1.
Proof.
  intros Ht Hk.
  assert (Z.pos (k * t) <= Z.pos t * 2 ^ 600) as Hkt
    by (rewrite Pos2Z.inj_mul; nia).
  assert (Z.pos 1 <= 2 ^ 340) as H1 by (vm_compute; discriminate).
  assert (Z.pos k <= Z.pos 1 * 2 ^ 600) as Hk1 by lia.
  destruct (@nearest_binade (k * t) t Ht Hkt) as (HE & Hlo & Hhi).
  destruct (@nearest_binade k 1 H1 Hk1) as (HE' & Hlo' & Hhi').
  unfold nearest.
  set (E := binade (Z.pos (k * t) * 2 ^ 400) (Z.pos t)) in *.
  set (E' := binade (Z.pos k * 2 ^ 400) (Z.pos 1)) in *.
  rewrite Pos2Z.inj_mul in *.
  assert (E = E') as <-.
  { apply Z.le_antisymm.
    - apply (@binade_mono (Z.pos t) (Z.pos k * Z.pos t * 2 ^ 400)
               (Z.pos k * Z.pos t * 2 ^ 400)); try lia. nia.
    - apply (@binade_mono (Z.pos t) (Z.pos k * Z.pos t * 2 ^ 400)
               (Z.pos k * Z.pos t * 2 ^ 400)); try lia. nia. }
  replace (Z.pos k * Z.pos t * 2 ^ 400) with (Z.pos k * 2 ^ 400 * Z.pos t) by lia.
  replace (Z.pos t * 2 ^ (E - 52)) with (Z.pos 1 * 2 ^ (E - 52) * Z.pos t) by lia.
  rewrite round_half_even_scale; [reflexivity | | lia].
  assert (0 < 2 ^ (E - 52)) by (apply Z.pow_pos_nonneg; lia). lia.
Qed.

(** ** [toFixed] *)

(** The digits of [toFixed] are a function of the key, and a monotone
    one; an integer times [10^d] has its own digits followed by [d]
    zeros. *)
Lemma toFixed_digits_key (m : positive) (e : Z) (d : nat) :
  -1074 <= e -> toFixed_digits m e d = digits_of (scaled m e) d.
Proof.
  intros He. unfold toFixed_digits, digits_of, scaled.
  set (t := 10 ^ Z.of_nat d).
  destruct (Z.leb_spec 0 e) as [Hpos | Hneg].
  - replace (e + 1074) with (1074 + e) by lia. rewrite Z.pow_add_r by lia.
    change (2 ^ 1075) with (2 * 2 ^ 1074).
    apply Z.div_unique with (2 ^ 1074); [left; lia | ring].
  - assert (0 < 2 ^ (e + 1074)) as Hp by (apply Z.pow_pos_nonneg; lia).
    assert (0 < 2 ^ (1 - e)) as Hq by (apply Z.pow_pos_nonneg; lia).
    assert (2 ^ 1074 = 2 ^ (e + 1074) * 2 ^ (- e)) as H1.
    { rewrite <- Z.pow_add_r by lia. f_equal. lia. }
    assert (2 ^ 1075 = 2 ^ (e + 1074) * 2 ^ (1 - e)) as H2.
    { rewrite <- Z.pow_add_r by lia. f_equal. lia. }
    rewrite H2.
    replace (2 * (Z.pos m * 2 ^ (e + 1074)) * t + 2 ^ 1074)
      with (2 ^ (e + 1074) * (2 * (Z.pos m * t) + 2 ^ (- e))) by (rewrite H1; ring).
    rewrite Z.div_mul_cancel_l by lia. reflexivity.
Qed.

Lemma digits_of_mono (k k' : Z) (d : nat) :
  k <= k' -> digits_of k d <= digits_of k' d.
Proof.
  intros H. unfold digits_of. apply Z.div_le_mono; [reflexivity|].
  assert (0 < 10 ^ Z.of_nat d) by (apply Z.pow_pos_nonneg; lia). nia.
Qed.

Lemma digits_of_integer (z : Z) (d : nat) :
  digits_of (z * 2 ^ 1074) d = z * 10 ^ Z.of_nat d.
Proof.
  unfold digits_of. change (2 ^ 1075) with (2 * 2 ^ 1074).
  symmetry. apply Z.div_unique with (2 ^ 1074); [left; lia | ring].
Qed.

(** With at most 100 decimals, [10^d] and the digits of a number below
    [10^21] are within the range of [nearest]. *)
Lemma pow10_range (d : nat) :
  (d <= 100)%nat ->
  0 < 10 ^ Z.of_nat d /\ Z.pos (Z.to_pos (10 ^ Z.of_nat d)) <= 2 ^ 340.
Proof.
  intros Hd.
  assert (0 < 10 ^ Z.of_nat d) as Hp by (apply Z.pow_pos_nonneg; lia).
  split; [assumption|]. rewrite Z2Pos.id by assumption.
  apply Z.le_trans with (10 ^ 100).
  - apply Z.pow_le_mono_r; lia.
  - vm_compute. discriminate.
Qed.

Lemma digits_range (k : Z) (d : nat) :
  k <= threshold -> digits_of k d <= 10 ^ Z.of_nat d * 2 ^ 600.
Proof.
  intros Hk. apply Z.le_trans with (digits_of threshold d).
  - now apply digits_of_mono.
  - unfold threshold. rewrite digits_of_integer.
    assert (0 < 10 ^ Z.of_nat d) by (apply Z.pow_pos_nonneg; lia).
    assert (10 ^ 21 <= 2 ^ 600) by (vm_compute; discriminate). nia.
Qed.

(** The double read from digits, and its key. *)
Lemma Prim2SF_of_decimal (n : Z) (d : nat) :
  (d <= 100)%nat -> n <= 10 ^ Z.of_nat d * 2 ^ 600 ->
  valid_binary (Prim2SF (of_decimal false n d)) = true
  /\ is_nan (Prim2SF (of_decimal false n d)) = false
  /\ key (Prim2SF (of_decimal false n d)) = decimal_key n d.
Proof.
  intros Hd Hn. destruct (@pow10_range d Hd) as [Hp Hc].
  split; [apply Prim2SF_valid|].
  destruct n as [|p|p]; cbn [of_decimal decimal_key].
  - rewrite Prim2SF_SF2Prim by reflexivity. split; reflexivity.
  - assert (valid_binary (nearest p (Z.to_pos (10 ^ Z.of_nat d))) = true) as V.
    { apply (@nearest_valid); [assumption|]. rewrite Z2Pos.id by assumption. exact Hn. }
    rewrite Prim2SF_SF2Prim by exact V. split; [|reflexivity].
    unfold nearest.
    destruct (_ =? _); reflexivity.
  - rewrite Prim2SF_SF2Prim by reflexivity. split; reflexivity.
Qed.

Lemma threshold_key : key (Prim2SF (of_Z (10 ^ 21))) = threshold.
Proof. vm_compute. reflexivity. Qed.

(** [Number(x.toFixed(d))], on an [x] that is not negative, is
    [fixed_key] on keys. *)
Lemma Prim2SF_toFixed (x : float) (d : nat) :
  (d <= 100)%nat -> is_nan (Prim2SF x) = false -> 0 <= key (Prim2SF x) ->
  is_nan (Prim2SF (toFixed x d)) = false
  /\ key (Prim2SF (toFixed x d)) = fixed_key (key (Prim2SF x)) d.
Proof.
  intros Hd Hnan Hkey. unfold toFixed, fixed_key.
  pose proof (Prim2SF_valid x) as V.
  assert ((abs x <? of_Z (10 ^ 21))%float = (key (Prim2SF x) <? threshold))
    as Hlt.
  { pose proof (Prim2SF_valid (abs x)) as Va.
    rewrite ltb_spec, <- threshold_key.
    assert (is_nan (Prim2SF (abs x)) = false
            /\ key (Prim2SF (abs x)) = key (Prim2SF x)) as [Na Ka].
    { rewrite abs_spec.
      destruct (Prim2SF x) as [[] | [] | | [] m e]; try discriminate;
        try (split; reflexivity); exfalso.
      - revert Hkey. vm_compute. congruence.
      - cbn [key] in Hkey. pose proof (scaled_pos _ _ _ V). lia. }
    rewrite <- Ka.
    destruct (Z.ltb_spec (key (Prim2SF (abs x))) (key (Prim2SF (of_Z (10 ^ 21)))))
      as [H | H].
    - apply SFltb_key; auto using Prim2SF_valid.
    - destruct (SFltb (Prim2SF (abs x)) (Prim2SF (of_Z (10 ^ 21)))) eqn:E;
        [|reflexivity].
      apply SFltb_key in E; auto using Prim2SF_valid. lia. }
  rewrite Hlt. clear Hlt.
  destruct (Prim2SF x) as [s | s | | s m e] eqn:Ex; try discriminate.
  - split; reflexivity.
  - destruct s; [exfalso; revert Hkey; vm_compute; congruence|].
    rewrite Ex. split; reflexivity.
  - destruct s.
    { cbn [key] in Hkey. pose proof (scaled_pos _ _ _ V). lia. }
    apply valid_finite in V as (He & _ & _).
    cbn [key]. destruct (Z.ltb_spec (scaled m e) threshold) as [Hlt | Hge].
    + rewrite (toFixed_digits_key m d) by lia.
      apply Prim2SF_of_decimal; [assumption|]. apply digits_range. lia.
    + rewrite Ex. split; reflexivity.
Qed.

(** The key of the double read from digits is monotone in the digits. *)
Lemma decimal_key_nonneg (n : Z) (d : nat) : 0 <= decimal_key n d.
Proof.
  destruct n as [|p|p]; cbn [decimal_key]; try lia.
  unfold nearest. destruct (_ =? _); cbn [key]; unfold scaled;
    apply Z.mul_nonneg_nonneg; try lia; apply Z.pow_nonneg; lia.
Qed.

Lemma decimal_key_mono (n n' : Z) (d : nat) :
  (d <= 100)%nat -> n' <= 10 ^ Z.of_nat d * 2 ^ 600 -> n <= n' ->
  decimal_key n d <= decimal_key n' d.
Proof.
  intros Hd Hn' Hle. destruct (@pow10_range d Hd) as [Hp Hc].
  destruct n as [|p|p]; try apply decimal_key_nonneg.
  destruct n' as [|p'|p']; try lia.
  cbn [decimal_key]. apply nearest_mono; [assumption | | exact Hle].
  rewrite Z2Pos.id by assumption. exact Hn'.
Qed.

(** [10^21], printed with [d] decimals and read back, is [10^21]. *)
Lemma decimal_key_threshold (d : nat) :
  (d <= 100)%nat -> decimal_key (digits_of threshold d) d = threshold.
Proof.
  intros Hd. destruct (@pow10_range d Hd) as [Hp Hc].
  unfold threshold at 1. rewrite digits_of_integer.
  assert (10 ^ 21 * 10 ^ Z.of_nat d
          = Z.pos (Z.to_pos (10 ^ 21) * Z.to_pos (10 ^ Z.of_nat d))) as ->.
  { rewrite Pos2Z.inj_mul, (Z2Pos.id (10 ^ Z.of_nat d)) by assumption.
    reflexivity. }
  cbn [decimal_key]. rewrite nearest_scale.
  - vm_compute. reflexivity.
  - assumption.
  - vm_compute. discriminate.
Qed.

(** So [fixed_key] is monotone: below [10^21] by the digits, across
    [10^21] because that number is read back as itself, and above it
    trivially. *)
Lemma fixed_key_mono (k k' : Z) (d : nat) :
  (d <= 100)%nat -> k <= k' -> fixed_key k d <= fixed_key k' d.
Proof.
  intros Hd Hle. unfold fixed_key.
  destruct (Z.ltb_spec k threshold) as [Hk | Hk],
           (Z.ltb_spec k' threshold) as [Hk' | Hk']; try lia.
  - apply decimal_key_mono; [assumption | |now apply digits_of_mono].
    apply digits_range. lia.
  - apply Z.le_trans with threshold; [|assumption].
    rewrite <- (decimal_key_threshold Hd).
    apply decimal_key_mono; [assumption | |apply digits_of_mono; lia].
    apply digits_range. lia.
Qed.

(** The comparisons of the runtime, by keys. *)
Lemma leb_key (x y : float) :
  (x <=? y)%float = true
  <-> is_nan (Prim2SF x) = false /\ is_nan (Prim2SF y) = false
      /\ key (Prim2SF x) <= key (Prim2SF y).
Proof. rewrite leb_spec. apply SFleb_key; apply Prim2SF_valid. Qed.

Lemma ltb_key (x y : float) :
  (x <? y)%float = true
  <-> is_nan (Prim2SF x) = false /\ is_nan (Prim2SF y) = false
      /\ key (Prim2SF x) < key (Prim2SF y).
Proof. rewrite ltb_spec. apply SFltb_key; apply Prim2SF_valid. Qed.

(** [Number(x.toFixed(d))] is monotone on the numbers that are not negative. *)
Lemma float_toFixed_mono (x y : float) (d : nat) :
  (d <= 100)%nat -> (of_Z 0 <=? x)%float = true -> (x <=? y)%float = true ->
  (toFixed x d <=? toFixed y d)%float = true.
Proof.
  intros Hd H0 Hxy.
  apply leb_key in H0 as (_ & Nx & Kx). apply leb_key in Hxy as (_ & Ny & Kxy).
  change (key (Prim2SF (of_Z 0))) with 0 in Kx.
  destruct (Prim2SF_toFixed x Hd Nx Kx) as [Nfx Kfx].
  destruct (Prim2SF_toFixed y Hd Ny ltac:(lia)) as [Nfy Kfy].
  apply leb_key. repeat split; try assumption.
  rewrite Kfx, Kfy. now apply fixed_key_mono.
Qed.

(** [<=] is transitive, and reflexive on the numbers it compares. *)
Lemma float_leb_trans (x y z : float) :
  (x <=? y)%float = true -> (y <=? z)%float = true -> (x <=? z)%float = true.
Proof.
  rewrite !leb_key. intros (? & ? & ?) (? & ? & ?). repeat split; try assumption; lia.
Qed.

Lemma float_leb_refl (x y : float) :
  (x <=? y)%float = true -> (x <=? x)%float = true /\ (y <=? y)%float = true.
Proof.
  rewrite !leb_key. intros (? & ? & ?). repeat split; try assumption; lia.
Qed.

(** 0 and 1 print as themselves. *)
Lemma float_toFixed_zero (d : nat) : toFixed (of_Z 0) d = of_Z 0.
Proof. reflexivity. Qed.

Lemma float_toFixed_one (d : nat) : (d <= 100)%nat -> toFixed (of_Z 1) d = of_Z 1.
Proof.
  intros Hd. destruct (@pow10_range d Hd) as [Hp Hc].
  unfold toFixed.
  change (Prim2SF (of_Z 1)) with (S754_finite false 4503599627370496 (-52)).
  change (abs (of_Z 1) <? of_Z (10 ^ 21))%float with true. cbv iota.
  rewrite toFixed_digits_key by lia.
  change (scaled 4503599627370496 (-52)) with (1 * 2 ^ 1074).
  rewrite digits_of_integer, Z.mul_1_l.
  destruct (10 ^ Z.of_nat d) as [|p|p] eqn:E; try lia.
  cbn [of_decimal]. rewrite E. cbn [Z.to_pos].
  replace (nearest p p) with (nearest (1 * p) p) by (f_equal; lia).
  rewrite nearest_scale.
  - vm_compute. reflexivity.
  - exact Hc.
  - vm_compute. discriminate.
Qed.

(** ** The laws *)

#[export] Instance float_JsOrder : JsOrder PrimFloat.float.
Proof.
  constructor; cbn [num_ltb num_leb num_of_Z float_JsNumber].
  - intros a. destruct (a <? a)%float eqn:E; [|reflexivity].
    apply ltb_key in E. lia.
  - intros a b Hab. apply ltb_key in Hab.
    destruct (b <=? a)%float eqn:E; [|reflexivity].
    apply leb_key in E. lia.
  - intros a b Hab. apply leb_key in Hab.
    destruct (b <? a)%float eqn:E; [|reflexivity].
    apply ltb_key in E. lia.
  - exact float_leb_trans.
  - exact float_leb_refl.
  - reflexivity.
Qed.

#[export] Instance float_JsRounding : JsRounding PrimFloat.float.
Proof.
  constructor; cbn [num_leb num_of_Z num_toFixed float_JsNumber].
  - exact float_toFixed_mono.
  - intros d _. apply float_toFixed_zero.
  - exact float_toFixed_one.
Qed.

(** On the samples, [nearest] is the quotient that IEEE division yields. *)
Example nearest_quotient :
  forallb (fun d => forallb (Decimals.agree d) Decimals.numerators)
          Decimals.decimals
  = true.
Proof. vm_compute. reflexivity. Qed.

(** The constant of the page is the double written [0.0002]. *)
Example FEE_PER_EXIT_literal :
  Analytics.FEE_PER_EXIT = 0x1.a36e2eb1c432dp-13%float.
Proof. vm_compute. reflexivity. Qed.

(** ** The accumulator

    The accumulator takes finitely many values: it grows until it
    overflows to [Infinity], where it stays.  They are checked one by
    one. *)

Lemma scan_table :
  Pos.iter scan_step (1%float, true) overflow_exits = (infinity, true).
Proof. vm_compute. reflexivity. Qed.

Lemma compound_step_literal (e : PrimFloat.float) :
  compound_step e = (e + e * 0x1.a36e2eb1c432dp-13)%float.
Proof. unfold compound_step. rewrite FEE_PER_EXIT_literal. reflexivity. Qed.

(** After [n] steps the scan holds the accumulator after [n] exits, and
    its flag is still set only if every earlier accumulator passed. *)
Lemma scan_iter (n : nat) :
  fst (Nat.iter n scan_step (1%float, true)) = compounded n
  /\ (snd (Nat.iter n scan_step (1%float, true)) = true ->
      forall k, (k < n)%nat -> accumulator_ok (compounded k) = true).
Proof.
  induction n as [|n [IHe IHok]].
  - split; [reflexivity|]. intros _ k Hk. lia.
  - cbn [Nat.iter nat_rect]. fold (Nat.iter n scan_step (1%float, true)).
    destruct (Nat.iter n scan_step (1%float, true)) as [e ok].
    simpl in IHe, IHok. subst e. unfold scan_step. cbn [fst snd]. split.
    + change (compounded (S n)) with (compound_step (compounded (num := PrimFloat.float) n)).
      now rewrite compound_step_literal.
    + intros Hok k Hk. apply andb_true_iff in Hok as [Hok Hn].
      destruct (Nat.eq_dec k n) as [-> | Hne]; [assumption|].
      apply IHok; [assumption | lia].
Qed.

Lemma compounded_overflow (n : nat) :
  (Pos.to_nat overflow_exits <= n)%nat -> compounded n = infinity.
Proof.
  induction 1 as [|n Hle IH].
  - destruct (scan_iter (Pos.to_nat overflow_exits)) as [<- _].
    unfold Nat.iter. rewrite <- Pos2Nat.inj_iter, scan_table. reflexivity.
  - change (compounded (S n)) with (compound_step (compounded (num := PrimFloat.float) n)).
    rewrite IH. vm_compute. reflexivity.
Qed.

(** In binary64, whatever the number of exits, the accumulator is at
    least 1, the next exit does not lower it, and the fees computed from
    it are not negative. *)
Lemma accumulator_ok_compounded (n : nat) : accumulator_ok (compounded n) = true.
Proof.
  destruct (Nat.lt_ge_cases n (Pos.to_nat overflow_exits)) as [Hlt | Hge].
  - destruct (scan_iter (Pos.to_nat overflow_exits)) as [_ Hok].
    apply Hok; [|assumption].
    unfold Nat.iter. rewrite <- Pos2Nat.inj_iter, scan_table. reflexivity.
  - rewrite (compounded_overflow Hge). vm_compute. reflexivity.
Qed.

#[export] Instance float_JsCompounding : JsCompounding PrimFloat.float.
Proof.
  constructor; intros n; pose proof (accumulator_ok_compounded n) as H;
    unfold accumulator_ok in H;
    apply andb_true_iff in H as [H H3]; apply andb_true_iff in H as [H1 H2].
  - exact H1.
  - change (compounded (S n))
      with (compound_step (compounded (num := PrimFloat.float) n)).
    rewrite compound_step_literal. exact H2.
  - exact H3.
Qed.

End Float64Laws.

Module ExactLaws.
Import Exact.

(** ** Rationals *)

Lemma Qltb_lt (p q : Q) : Qltb p q = true <-> p < q.
Proof.
  unfold Qltb. rewrite negb_true_iff, <- not_true_iff_false, Qle_bool_iff.
  split; [apply Qnot_le_lt | apply Qlt_not_le].
Qed.

Lemma Qsign_Gt (q : Q) : Qsign q = Gt <-> 0 < q.
Proof. unfold Qsign, Qlt. simpl. rewrite Z.compare_gt_iff. lia. Qed.

Lemma Qsign_Lt (q : Q) : Qsign q = Lt <-> q < 0.
Proof. unfold Qsign, Qlt. simpl. rewrite Z.compare_lt_iff. lia. Qed.

Lemma Qsign_Eq (q : Q) : Qsign q = Eq <-> q == 0.
Proof. unfold Qsign, Qeq. simpl. rewrite Z.compare_eq_iff. lia. Qed.

Lemma Qred_inject_Z (z : Z) : Qred (inject_Z z) = inject_Z z.
Proof.
  unfold Qred, inject_Z.
  pose proof (Z.ggcd_gcd z 1) as Hg.
  pose proof (Z.ggcd_correct_divisors z 1) as Hd.
  destruct (Z.ggcd z 1) as [g [aa bb]]. simpl in *.
  rewrite Z.gcd_1_r in Hg. subst g. destruct Hd as [Ha Hb].
  assert (aa = z) as -> by lia. assert (bb = 1%Z) as -> by lia.
  reflexivity.
Qed.

Lemma Qfloor_half (k : Z) : Qfloor (inject_Z k + (1 # 2)) = k.
Proof.
  pose proof (Qfloor_le (inject_Z k + (1 # 2))) as Hle.
  pose proof (Qlt_floor (inject_Z k + (1 # 2))) as Hlt.
  set (f := Qfloor (inject_Z k + (1 # 2))) in *. clearbody f.
  assert (inject_Z f < inject_Z (k + 1)) as H1
    by (rewrite inject_Z_plus; change (inject_Z 1) with 1; lra).
  assert (inject_Z k < inject_Z (f + 1)) as H2 by lra.
  rewrite <- Zlt_Qlt in H1, H2. lia.
Qed.


Ltac q_bool :=
  repeat match goal with
    | H : Qle_bool _ _ = true |- _ => apply Qle_bool_iff in H
    | H : Qltb _ _ = true |- _ => apply Qltb_lt in H
    | |- Qle_bool _ _ = true => apply Qle_bool_iff
    | |- Qltb _ _ = true => apply Qltb_lt
    end.

Ltac q_sign H :=
  first [apply Qsign_Gt in H | apply Qsign_Lt in H | apply Qsign_Eq in H].

(** ** Rounding to [d] decimals *)

Lemma pow10_pos (d : nat) : (0 < pow10 d)%Z.
Proof. unfold pow10. apply Z.pow_pos_nonneg; lia. Qed.

Lemma inject_pow10_pos (d : nat) : 0 < inject_Z (pow10 d).
Proof. change 0 with (inject_Z 0). rewrite <- Zlt_Qlt. apply pow10_pos. Qed.

(** The digits grow with the number. *)
Lemma toFixed_digits_mono (p q : Q) (d : nat) :
  p <= q -> (toFixed_digits p d <= toFixed_digits q d)%Z.
Proof.
  intros Hpq. unfold toFixed_digits.
  pose proof (inject_pow10_pos d) as Hs.
  assert (forall x, 0 <= Qfloor (Qabs x * inject_Z (pow10 d) + (1 # 2)))%Z
    as Hfloor.
  { intros x. rewrite <- (Qfloor_Z 0). apply Qfloor_resp_le.
    pose proof (Qabs_nonneg x). change (inject_Z 0) with 0. nra. }
  destruct (Qsign p) eqn:Hp, (Qsign q) eqn:Hq;
    q_sign Hp; q_sign Hq;
    try (exfalso; lra);
    try (pose proof (Hfloor p); pose proof (Hfloor q); lia);
    try (apply Z.opp_le_mono; rewrite !Z.opp_involutive);
    apply Qfloor_resp_le;
    [ rewrite (Qabs_pos p), (Qabs_pos q) by lra
    | rewrite (Qabs_pos p), (Qabs_pos q) by lra
    | rewrite (Qabs_neg p), (Qabs_neg q) by lra
    | rewrite (Qabs_pos p), (Qabs_pos q) by lra ];
    nra.
Qed.

Lemma toFixed_digits_inject_Z (z : Z) (d : nat) :
  toFixed_digits (inject_Z z) d = (z * pow10 d)%Z.
Proof.
  unfold toFixed_digits.
  assert (Qfloor (Qabs (inject_Z z) * inject_Z (pow10 d) + (1 # 2))
          = (Z.abs z * pow10 d)%Z) as ->.
  { rewrite <- Qfloor_half. apply Qfloor_comp.
    rewrite inject_Z_mult. reflexivity. }
  unfold Qsign, inject_Z, Qnum.
  destruct (Z.compare_spec z 0); nia.
Qed.

Lemma rounded_mono (p q : Q) (d : nat) : p <= q -> rounded p d <= rounded q d.
Proof.
  intros Hpq. unfold rounded, Qdiv.
  apply Qmult_le_compat_r.
  - rewrite <- Zle_Qle. now apply toFixed_digits_mono.
  - apply Qinv_le_0_compat, Qlt_le_weak, inject_pow10_pos.
Qed.

Lemma rounded_inject_Z (z : Z) (d : nat) : rounded (inject_Z z) d == inject_Z z.
Proof.
  unfold rounded. rewrite toFixed_digits_inject_Z, inject_Z_mult.
  field. pose proof (inject_pow10_pos d). lra.
Qed.

Lemma xtoFixed_mono (a b : xnum) (d : nat) :
  xleb a b = true -> xleb (xtoFixed a d) (xtoFixed b d) = true.
Proof.
  destruct a as [p | | |], b as [q | | |]; cbn [xleb xtoFixed];
    try discriminate; try reflexivity.
  - intros Hpq. q_bool.
    set (B := inject_Z (10 ^ 21)).
    set (B' := inject_Z (- 10 ^ 21)).
    assert (B' == - B) as HB
      by (unfold B, B'; rewrite inject_Z_opp; reflexivity).
    pose proof (rounded_inject_Z (10 ^ 21) d) as Hhi. fold B in Hhi.
    pose proof (rounded_inject_Z (- 10 ^ 21) d) as Hlo. fold B' in Hlo.
    pose proof (rounded_mono d Hpq) as Hmono.
    destruct (Qltb (Qabs p) B) eqn:Hp, (Qltb (Qabs q) B) eqn:Hq;
      cbn [xleb]; q_bool; rewrite ?Qred_correct; try assumption.
    + apply Qabs_Qlt_condition in Hp.
      apply not_true_iff_false in Hq. rewrite Qltb_lt in Hq.
      assert (B <= q) as Hq'.
      { apply Qnot_lt_le. intros Hlt. apply Hq.
        apply Qabs_Qlt_condition. split; lra. }
      assert (rounded p d <= rounded B d) as Hle
        by (apply rounded_mono; lra).
      lra.
    + apply Qabs_Qlt_condition in Hq.
      apply not_true_iff_false in Hp. rewrite Qltb_lt in Hp.
      assert (p <= - B) as Hp'.
      { apply Qnot_lt_le. intros Hlt. apply Hp.
        apply Qabs_Qlt_condition. split; lra. }
      assert (rounded B' d <= rounded q d) as Hle
        by (apply rounded_mono; lra).
      lra.
  - intros _. destruct (Qltb (Qabs p) (inject_Z (10 ^ 21))); reflexivity.
  - intros _. destruct (Qltb (Qabs q) (inject_Z (10 ^ 21))); reflexivity.
Qed.

Lemma xtoFixed_of_Z (z : Z) (d : nat) :
  (Z.abs z <= 2 ^ 53)%Z ->
  xtoFixed (XFin (inject_Z z)) d = XFin (inject_Z z).
Proof.
  intros Hz. cbn [xtoFixed].
  assert (Qltb (Qabs (inject_Z z)) (inject_Z (10 ^ 21)) = true) as ->.
  { q_bool. apply Qabs_Qlt_condition.
    rewrite <- inject_Z_opp, <- !Zlt_Qlt. lia. }
  f_equal.
  rewrite <- (Qred_inject_Z z) at 2. apply Qred_complete, rounded_inject_Z.
Qed.

(** ** The laws *)

Ltac x_unfold :=
  cbn [num_of_Z num_neg_infinity num_add num_sub num_mul num_div num_ltb
       num_leb num_isFinite num_toFixed xnum_JsNumber
       xadd xsub xneg xmul xdiv xltb xleb xisFinite inf_of_sign mul_sign].

Ltac x_trivial :=
  x_unfold; intros; try congruence; try (split; congruence).

#[export] Instance xnum_JsOrder : JsOrder xnum.
Proof.
  constructor.
  - intros [p | | |]; simpl; try reflexivity.
    unfold Qltb. apply negb_false_iff. q_bool. apply Qle_refl.
  - intros [p | | |] [q | | |]; simpl; try discriminate; try reflexivity.
    unfold Qltb. apply negb_true_iff.
  - intros [p | | |] [q | | |]; simpl; try discriminate; try reflexivity.
    unfold Qltb. intros ->. reflexivity.
  - intros [p | | |] [q | | |] [r | | |]; x_trivial; q_bool; lra.
  - intros [p | | |] [q | | |]; x_trivial; split; q_bool; lra.
  - reflexivity.
Qed.

#[export] Instance xnum_JsRounding : JsRounding xnum.
Proof.
  constructor.
  - intros a b d _ _. apply xtoFixed_mono.
  - intros d _. apply (xtoFixed_of_Z 0 d). simpl. lia.
  - intros d _. apply (xtoFixed_of_Z 1 d). simpl. lia.
Qed.

#[export] Instance xnum_JsArith : JsArith xnum.
Proof.
  constructor.
  - intros a b Hab. x_unfold. q_bool. now rewrite <- Zle_Qle.
  - intros a b Hab _ _. x_unfold. q_bool. now rewrite <- Zlt_Qlt.
  - reflexivity.
  - intros a b [Ha _] [Hb _]. x_unfold.
    assert (0 < inject_Z a) as Ha'
      by (change 0 with (inject_Z 0); now rewrite <- Zlt_Qlt).
    assert (0 < inject_Z b) as Hb'
      by (change 0 with (inject_Z 0); now rewrite <- Zlt_Qlt).
    destruct (Qsign (inject_Z b)) eqn:Hs; q_sign Hs; try lra.
    split; [|reflexivity]. q_bool. rewrite Qred_correct.
    change (inject_Z 0) with 0. apply Qlt_shift_div_l; lra.
  - intros [p | | |] [g | | |]; x_trivial;
      q_bool; rewrite Qred_correct; change (inject_Z 0) with 0 in *; lra.
  - intros [p | | |] [q | | |]; x_trivial.
    + q_bool. rewrite Qred_correct. change (inject_Z 0) with 0 in *. nra.
    + q_bool. change (inject_Z 0) with 0 in *.
      assert (Qsign q = Gt) as -> by now apply Qsign_Gt.
      reflexivity.
  - intros [p | | |] [q | | |]; x_trivial;
      q_bool; rewrite !Qred_correct; change (inject_Z 0) with 0; lra.
Qed.

#[export] Instance xnum_JsExact : JsExact xnum.
Proof.
  constructor.
  intros [p | | |] [q | | |]; x_trivial.
  - f_equal. apply Qred_complete. rewrite !Qred_correct.
    change (inject_Z 1) with 1. ring.
  - destruct (Qsign p); reflexivity.
  - q_bool. change (inject_Z 0) with 0 in *.
    assert (Qsign q = Gt) as -> by now apply Qsign_Gt.
    assert (Qsign (Qred (inject_Z 1 + q)) = Gt) as ->.
    { apply Qsign_Gt. rewrite Qred_correct. change (inject_Z 1) with 1. lra. }
    reflexivity.
  - q_bool. change (inject_Z 0) with 0 in *.
    assert (Qsign q = Gt) as -> by now apply Qsign_Gt.
    assert (Qsign (Qred (inject_Z 1 + q)) = Gt) as ->.
    { apply Qsign_Gt. rewrite Qred_correct. change (inject_Z 1) with 1. lra. }
    reflexivity.
Qed.

End ExactLaws.

(* ================================================================== *)
(** * Properties of the strategy routes *)
(* ================================================================== *)

Module StrategyProofs.
Import Strategy.
Import Float64.

(** ** Handlers *)

Section RouteProofs.

Context {num : Type} `{JsNumber num}.
Variable World : Type.
Variable currentMidPrice : string -> World -> Result num * World.
Variable priceToBinIndex : string -> num -> World -> Result Z * World.
Variable isPublicKey : string -> bool.
Variable schemaMessage : string.

Abbreviation computeTargetBins := (computeTargetBins priceToBinIndex).
Abbreviation rebalance_plan :=
  (rebalance_plan currentMidPrice priceToBinIndex isPublicKey schemaMessage).

(** Runs the next gateway call of the goal and splits on its result. *)
Ltac await_next :=
  match goal with
  | |- context [priceToBinIndex ?p ?x ?w] =>
      let r := fresh "r" in
      let w' := fresh "w" in
      let E := fresh "E" in
      destruct (priceToBinIndex p x w) as [r w'] eqn:E; destruct r; simpl
  | |- context [currentMidPrice ?p ?w] =>
      let r := fresh "r" in
      let w' := fresh "w" in
      let E := fresh "E" in
      destruct (currentMidPrice p w) as [r w'] eqn:E; destruct r; simpl
  end.

Ltac unfold_handlers :=
  cbv [Strategy.rebalance_plan Strategy.computeTargetBins bind ret mapResult
       await_priceToBinIndex await_currentMidPrice sendProblem buildProblem
       reply_send initial ctx_world ctx_calls ctx_sent].

(** A target that [computeTargetBins] returns is ordered. *)
Lemma computeTargetBins_returned_ordered
    (pool : string) (midPrice bandBps : num) (c c' : Ctx World)
    (band : TargetBins) :
  computeTargetBins pool midPrice bandBps c = (Some band, c') ->
  (binLower band <= binUpper band)%Z.
Proof.
  unfold_handlers.
  repeat (await_next; try discriminate).
  intros [= <- _]. simpl. lia.
Qed.

(** C1. Whenever the three [priceToBinIndex] lookups of
    [computeTargetBins] succeed (for the mid price, then the lower and the
    upper price of the band) it returns a target, and that target has
    [binLower <= binUpper]: they are the smaller and the larger of the two
    bins found, whatever the gateway maps prices to, for every mid price
    and every band width. *)
Theorem computeTargetBins_binLower_le_binUpper
    (pool : string) (midPrice bandBps : num) (c : Ctx World)
    (current lower upper : Z) (w1 w2 w3 : World) :
  let ratio := (bandBps / num_of_Z 10000)%js in
  priceToBinIndex pool midPrice (ctx_world c) = (Success current, w1) ->
  priceToBinIndex pool (midPrice * (num_of_Z 1 - ratio))%js w1
    = (Success lower, w2) ->
  priceToBinIndex pool (midPrice * (num_of_Z 1 + ratio))%js w2
    = (Success upper, w3) ->
  exists (band : TargetBins) (c' : Ctx World),
    computeTargetBins pool midPrice bandBps c = (Some band, c')
    /\ (binLower band <= binUpper band)%Z
    /\ binLower band = Z.min lower upper
    /\ binUpper band = Z.max lower upper
    /\ currentBin band = current.
Proof.
  intros ratio Hcurrent Hlower Hupper. subst ratio.
  destruct c as [w calls sent]. simpl in Hcurrent.
  unfold_handlers. rewrite Hcurrent. simpl. rewrite Hlower. simpl.
  rewrite Hupper. simpl.
  eexists. eexists. split; [reflexivity|]. simpl. repeat split. lia.
Qed.

(** C2. In every plan that [POST /rebalance/plan] sends, [inBand] is
    true exactly when the current bin index lies in the inclusive range
    from [binLower] to [binUpper]; in particular it is true when the
    current bin index equals [binLower] and when it equals [binUpper]. *)
Theorem rebalance_plan_inBand_iff
    (body : RebalanceBody) (w : World) (plan : RebalancePlan (num := num)) :
  In (SentRebalancePlan plan) (ctx_sent (snd (rebalance_plan body (initial w)))) ->
  (plan_inBand plan = true <->
   (plan_binLower plan <= plan_binIndex plan <= plan_binUpper plan)%Z)
  /\ (plan_binIndex plan = plan_binLower plan -> plan_inBand plan = true)
  /\ (plan_binIndex plan = plan_binUpper plan -> plan_inBand plan = true).
Proof.
  unfold_handlers.
  destruct (negb (rebalanceBodySchema isPublicKey body)); simpl.
  - intros [[=] | []].
  - repeat (await_next; try solve [intros [[=] | []]]).
    intros [[= <-] | []]. simpl.
    rewrite andb_true_iff, Z.geb_le, Z.leb_le.
    repeat split; intros; lia.
Qed.

(** C9, as the code has it. When a gateway call awaited by
    [POST /rebalance/plan] fails, the handler sends one response and no
    other: a problem whose code is the error kind of the gateway (never a
    kind of the handler's own), whose detail is the gateway's detail (left
    out when it is empty), and whose status is the one [statusByError]
    gives that kind.  The failed call is the last one awaited and every
    call before it succeeded: nothing is retried, and no plan is sent. *)
Theorem rebalance_plan_gateway_failure
    (body : RebalanceBody) (w : World) (call : GatewayCall (num := num))
    (error : DomainError) (detail : option string) :
  In call (ctx_calls (snd (rebalance_plan body (initial w)))) ->
  call_failure call = Some (error, detail) ->
  exists (title : string) (before : list GatewayCall),
    ctx_sent (snd (rebalance_plan body (initial w))) =
      [SentProblem (nullish (statusByError error) 500%Z)
         {| body_type := defaultProblemType;
            body_title := title;
            body_status := nullish (statusByError error) 500%Z;
            body_detail := if_truthy detail;
            body_code := Some (DomainError_code error) |}]
    /\ ctx_calls (snd (rebalance_plan body (initial w))) = (before ++ [call])%list
    /\ Forall (fun earlier => call_failure earlier = None) before.
Proof.
  unfold_handlers.
  destruct (negb (rebalanceBodySchema isPublicKey body)); simpl.
  - intros [].
  - repeat await_next; intros Hin Hfail;
      repeat (destruct Hin as [<- | Hin]; [try discriminate Hfail|]);
      try destruct Hin;
      injection Hfail as -> ->;
      eexists;
      match goal with
      | |- exists before, _ /\ ?calls = (before ++ _)%list /\ _ =>
          exists (removelast calls)
      end;
      (split; [destruct error; reflexivity|]);
      (split; [reflexivity|]);
      simpl; repeat constructor.
Qed.

End RouteProofs.

(** ** The properties at the test gateways *)

Lemma computeTargetBins_binLower_le_binUpper_witness :
  exists (band : TargetBins) (c' : Ctx unit),
    computeTargetBins Stub.inverted_priceToBinIndex Stub.pool Stub.midPrice
      (Float64.of_Z 100) (initial tt) = (Some band, c')
    /\ (binLower band <= binUpper band)%Z
    /\ binLower band = Z.min 130 110
    /\ binUpper band = Z.max 130 110
    /\ currentBin band = 123%Z.
Proof.
  apply (@computeTargetBins_binLower_le_binUpper _ _ unit
           Stub.inverted_priceToBinIndex Stub.pool Stub.midPrice
           (Float64.of_Z 100) (initial tt) 123 130 110 tt tt tt);
    vm_compute; reflexivity.
Defined.

Lemma rebalance_plan_inBand_iff_witness :
  (plan_inBand Stub.inverted_plan = true <->
   (plan_binLower Stub.inverted_plan <= plan_binIndex Stub.inverted_plan
    <= plan_binUpper Stub.inverted_plan)%Z)
  /\ (plan_binIndex Stub.inverted_plan = plan_binLower Stub.inverted_plan ->
      plan_inBand Stub.inverted_plan = true)
  /\ (plan_binIndex Stub.inverted_plan = plan_binUpper Stub.inverted_plan ->
      plan_inBand Stub.inverted_plan = true).
Proof.
  apply (@rebalance_plan_inBand_iff _ _ unit Stub.fixed_currentMidPrice
           Stub.inverted_priceToBinIndex Stub.anyPublicKey
           "schema"%string Stub.body tt).
  vm_compute. left. reflexivity.
Defined.

(** A current bin on the edge of the band counts as inside it. *)
Example flat_band_is_inBand :
  ctx_sent (snd (rebalance_plan Stub.fixed_currentMidPrice
                   Stub.flat_priceToBinIndex Stub.anyPublicKey "schema"%string
                   Stub.body (initial tt))) =
  [SentRebalancePlan
     {| plan_inBand := true;
        plan_binLower := 123;
        plan_binUpper := 123;
        plan_midPrice := Stub.midPrice;
        plan_binIndex := 123 |}].
Proof. vm_compute. reflexivity. Qed.

(** C9, as stated, fails: a mid-price call that fails with [RpcError]
    ends in a problem whose code is [RpcError], and no response carries a
    kind named UpstreamUnavailable. *)
Lemma rebalance_plan_failure_code_counterexample :
  let after :=
    snd (rebalance_plan Stub.failing_currentMidPrice
           Stub.inverted_priceToBinIndex Stub.anyPublicKey "schema"%string
           Stub.body (initial tt)) in
  ctx_calls after =
    [CallCurrentMidPrice Stub.pool
       (Failure RpcError (Some "connection refused"%string))]
  /\ ctx_sent after =
    [SentProblem 502
       {| body_type := defaultProblemType;
          body_title := "Failed to fetch mid price"%string;
          body_status := 502;
          body_detail := Some "connection refused"%string;
          body_code := Some "RpcError"%string |}]
  /\ ~ (exists status body,
          In (SentProblem status body) (ctx_sent after)
          /\ body_code body = Some "UpstreamUnavailable"%string).
Proof.
  vm_compute. repeat split.
  intros (status & body & [Hin | []] & Hcode).
  injection Hin as <- <-. discriminate Hcode.
Qed.

Lemma rebalance_plan_gateway_failure_witness :
  exists (title : string) (before : list GatewayCall),
    ctx_sent (snd (rebalance_plan Stub.counting_currentMidPrice
                     Stub.flaky_priceToBinIndex Stub.anyPublicKey
                     "schema"%string Stub.body (initial 0%nat))) =
      [SentProblem 429
         {| body_type := defaultProblemType;
            body_title := title;
            body_status := 429;
            body_detail := Some "Rate limit exceeded"%string;
            body_code := Some "RateLimited"%string |}]
    /\ ctx_calls (snd (rebalance_plan Stub.counting_currentMidPrice
                         Stub.flaky_priceToBinIndex Stub.anyPublicKey
                         "schema"%string Stub.body (initial 0%nat))) =
       (before ++ [Stub.rate_limited_call])%list
    /\ Forall (fun earlier => call_failure earlier = None) before.
Proof.
  apply (@rebalance_plan_gateway_failure _ _ nat Stub.counting_currentMidPrice
           Stub.flaky_priceToBinIndex Stub.anyPublicKey "schema"%string
           Stub.body 0%nat Stub.rate_limited_call RateLimited
           (Some "Rate limit exceeded"%string)).
  - vm_compute. right. right. left. reflexivity.
  - reflexivity.
Defined.

End StrategyProofs.

(* ================================================================== *)
(** * Properties of the advanced-order bins *)
(* ================================================================== *)

Module AdvancedOrdersProofs.
Import Floats.
Import Strategy.
Import Float64.
Import Float64Laws.
Import AdvancedOrders.

Open Scope Z_scope.

(** ** Rounding keeps the sign *)

(** One shift to the right halves the mantissa. *)
Lemma shr_1_m (r : shr_record) : 0 <= shr_m r -> shr_m (shr_1 r) = shr_m r / 2.
Proof.
  destruct r as [m r s]. cbn [shr_m]. intros Hm.
  destruct m as [|p|p]; [reflexivity | | lia].
  destruct p as [p|p|]; cbn [shr_1 shr_m].
  - change (Z.pos p~1) with (2 * Z.pos p + 1).
    apply Z.div_unique with 1; lia.
  - change (Z.pos p~0) with (2 * Z.pos p).
    apply Z.div_unique with 0; lia.
  - reflexivity.
Qed.

Lemma iter_shr_1_m (p : positive) (r : shr_record) :
  0 <= shr_m r -> shr_m (iter_pos shr_1 p r) = shr_m r / 2 ^ Z.pos p.
Proof.
  revert r. induction p as [p IH | p IH |]; intros r Hr; cbn [iter_pos].
  - assert (0 <= shr_m (shr_1 r)) as H1.
    { rewrite shr_1_m by assumption. apply Z.div_pos; lia. }
    assert (0 <= shr_m (iter_pos shr_1 p (shr_1 r))) as H2.
    { rewrite IH by assumption. apply Z.div_pos; [assumption|].
      apply Z.pow_pos_nonneg; lia. }
    rewrite IH, IH, shr_1_m by assumption.
    rewrite !Z.div_div by solve [lia | apply Z.pow_nonzero; lia | apply Z.pow_pos_nonneg; lia].
    f_equal. replace (Z.pos p~1) with (1 + (Z.pos p + Z.pos p)) by lia.
    rewrite !Z.pow_add_r by lia. reflexivity.
  - assert (0 <= shr_m (iter_pos shr_1 p r)) as H2.
    { rewrite IH by assumption. apply Z.div_pos; [assumption|].
      apply Z.pow_pos_nonneg; lia. }
    rewrite IH, IH by assumption.
    rewrite Z.div_div by solve [lia | apply Z.pow_nonzero; lia | apply Z.pow_pos_nonneg; lia].
    f_equal. replace (Z.pos p~0) with (Z.pos p + Z.pos p) by lia.
    rewrite Z.pow_add_r by lia. reflexivity.
  - now apply shr_1_m.
Qed.

Lemma shr_record_of_loc_m (m : Z) (l : location) :
  shr_m (shr_record_of_loc m l) = m.
Proof. destruct l as [|[| |]]; reflexivity. Qed.

(** Shifting a mantissa to its place leaves a positive mantissa, when
    the number is above [2^-1075]. *)
Lemma shr_fexp_pos (m : positive) (e : Z) (l : location) :
  -1074 < Z.pos (digits2_pos m) + e ->
  0 < shr_m (fst (shr_fexp prec emax (Z.pos m) e l))
  /\ -1074 <= snd (shr_fexp prec emax (Z.pos m) e l)
  /\ (-1074 <= e -> e <= snd (shr_fexp prec emax (Z.pos m) e l)).
Proof.
  intros Hd. unfold shr_fexp, shr, fexp, SpecFloat.emin. cbn [Zdigits2].
  change prec with 53. change emax with 1024.
  pose proof (digits2_pos_bounds m) as [Hlo Hhi].
  set (d := Z.pos (digits2_pos m)) in *.
  destruct (Z.max (d + e - 53) (3 - 1024 - 53) - e) as [|p|p] eqn:Hn;
    cbn [fst snd]; rewrite ?shr_record_of_loc_m.
  - split; [lia|]. split; lia.
  - rewrite iter_shr_1_m by (rewrite shr_record_of_loc_m; lia).
    rewrite shr_record_of_loc_m.
    assert (Z.pos p <= d - 1) as Hp by lia.
    split; [|split; lia].
    apply Z.lt_le_trans with (2 ^ (d - 1) / 2 ^ Z.pos p).
    + replace (d - 1) with (d - 1 - Z.pos p + Z.pos p) by lia.
      rewrite Z.pow_add_r by lia.
      rewrite Z.div_mul by (apply Z.pow_nonzero; lia).
      apply Z.pow_pos_nonneg; lia.
    + apply Z.div_le_mono; [apply Z.pow_pos_nonneg; lia | assumption].
  - split; [lia|]. split; lia.
Qed.

(** Rounding a number above [2^-1075] gives a double of the same sign
    that is not a zero: a finite one or the infinity. *)
Lemma binary_round_aux_signed (s : bool) (m : positive) (e : Z) (l : location) :
  -1074 < Z.pos (digits2_pos m) + e ->
  signed s (binary_round_aux prec emax s (Z.pos m) e l).
Proof.
  intros Hd. unfold binary_round_aux.
  destruct (shr_fexp_pos m e l Hd) as (Hm1 & He1 & _).
  destruct (shr_fexp prec emax (Z.pos m) e l) as [mrs1 e1]. cbn [fst snd] in *.
  assert (0 < round_nearest_even (shr_m mrs1) (loc_of_shr_record mrs1)) as Hr.
  { unfold round_nearest_even.
    destruct (loc_of_shr_record mrs1) as [|[| |]]; try lia.
    destruct (Z.even (shr_m mrs1)); lia. }
  destruct (round_nearest_even (shr_m mrs1) (loc_of_shr_record mrs1))
    as [|m2|m2]; try lia.
  assert (-1074 < Z.pos (digits2_pos m2) + e1) as Hd2 by lia.
  destruct (shr_fexp_pos m2 e1 loc_Exact Hd2) as (Hm3 & _ & _).
  destruct (shr_fexp prec emax (Z.pos m2) e1 loc_Exact) as [mrs3 e3].
  cbn [fst] in Hm3.
  destruct (shr_m mrs3) as [|m3|m3]; try lia.
  destruct (e3 <=? emax - prec); reflexivity.
Qed.

(** [shl_align] leaves the number as it is. *)
Lemma shl_align_value (m : positive) (e e' : Z) :
  Z.pos (fst (shl_align m e e')) * 2 ^ (snd (shl_align m e e') + 1074)
  = Z.pos m * 2 ^ (e + 1074)
  \/ snd (shl_align m e e') + 1074 < 0.
Proof.
  unfold shl_align. destruct (e' - e) as [|d|d] eqn:Hd; cbn [fst snd].
  - now left.
  - now left.
  - destruct (Z_lt_le_dec (e' + 1074) 0) as [Hneg | Hpos]; [now right | left].
    change (Pos.iter xO m d) with (shift_pos d m).
    rewrite shift_pos_correct, Zpower_pos_nat, Zpower_nat_Z, positive_nat_Z.
    replace (e + 1074) with (Z.pos d + (e' + 1074)) by lia.
    rewrite (Z.pow_add_r 2 (Z.pos d) (e' + 1074)) by lia. ring.
Qed.

Lemma shl_align_digits (m : positive) (e e' : Z) :
  (e' <= e -> snd (shl_align m e e') = e')
  /\ Z.pos (digits2_pos m) + e
     = Z.pos (digits2_pos (fst (shl_align m e e'))) + snd (shl_align m e e').
Proof.
  unfold shl_align. destruct (e' - e) as [|d|d] eqn:Hd; cbn [fst snd];
    try (split; [lia | reflexivity]).
  split; [reflexivity|].
  assert (forall k p, Z.pos (digits2_pos (Pos.iter xO p k))
                      = Z.pos (digits2_pos p) + Z.pos k) as Hdigits.
  { intros k. induction k as [|k IH] using Pos.peano_ind; intros p.
    - cbn [Pos.iter digits2_pos]. lia.
    - rewrite Pos.iter_succ. cbn [digits2_pos]. rewrite Pos2Z.inj_succ, IH. lia. }
  rewrite Hdigits. lia.
Qed.

Lemma binary_round_signed (s : bool) (m : positive) (e : Z) :
  -1074 < Z.pos (digits2_pos m) + e ->
  signed s (binary_round prec emax s m e).
Proof.
  intros Hd. unfold binary_round.
  pose proof (shl_align_digits m e
                (fexp prec emax (Z.pos (digits2_pos m) + e))) as (_ & Hsame).
  destruct (shl_align m e (fexp prec emax (Z.pos (digits2_pos m) + e)))
    as [mz ez]. cbn [fst snd] in Hsame.
  apply binary_round_aux_signed. lia.
Qed.

(** ** Doubles by their kind *)

Lemma is_nan_spec (x : PrimFloat.float) :
  PrimFloat.is_nan x = is_nan (Prim2SF x).
Proof.
  unfold PrimFloat.is_nan. rewrite eqb_spec. unfold SFeqb.
  pose proof (Prim2SF_valid x) as V.
  destruct (is_nan (Prim2SF x)) eqn:N.
  - destruct (Prim2SF x); try discriminate. reflexivity.
  - rewrite (SFcompare_key _ _ V V N N), Z.compare_refl. reflexivity.
Qed.

Lemma is_finite_spec (x : PrimFloat.float) :
  PrimFloat.is_finite x = is_number (Prim2SF x).
Proof.
  unfold PrimFloat.is_finite, is_infinity.
  rewrite is_nan_spec, eqb_spec, abs_spec.
  change (Prim2SF infinity) with (S754_infinity false).
  destruct (Prim2SF x) as [s | s | | s m e]; reflexivity.
Qed.

(** ** The sign of a difference *)

(** The key of a finite double from its aligned mantissa. *)
Lemma aligned_key (s : bool) (m : positive) (e ez : Z) :
  -1074 <= ez <= e ->
  cond_Zopp s (Z.pos (fst (shl_align m e ez))) * 2 ^ (ez + 1074)
  = key (S754_finite s m e).
Proof.
  intros He.
  destruct (shl_align_digits m e ez) as (Hsnd & _).
  destruct (shl_align_value m e ez) as [Hv | Hneg];
    rewrite Hsnd in * by lia; [|lia].
  cbn [key]. unfold scaled.
  destruct s; cbn [cond_Zopp]; rewrite ?Z.mul_opp_l; now rewrite Hv.
Qed.

Lemma binary_normalize_signed (D e : Z) :
  -1074 <= e ->
  match D with
  | 0 => binary_normalize prec emax D e false = S754_zero false
  | Z.pos _ => signed false (binary_normalize prec emax D e false)
  | Z.neg _ => signed true (binary_normalize prec emax D e false)
  end.
Proof.
  intros He. destruct D as [|p|p]; cbn [binary_normalize];
    [reflexivity | |]; apply binary_round_signed; lia.
Qed.

(** The difference of two numbers is a zero when they are equal, and
    has the sign of their order otherwise. *)
Lemma SFsub_sign (x y : spec_float) :
  valid_binary x = true -> valid_binary y = true ->
  is_number x = true -> is_number y = true ->
  match key x ?= key y with
  | Eq => exists s, SFsub prec emax x y = S754_zero s
  | Lt => signed true (SFsub prec emax x y)
  | Gt => signed false (SFsub prec emax x y)
  end.
Proof.
  intros Vx Vy Nx Ny.
  destruct x as [sx | sx | | sx mx ex]; try discriminate;
    destruct y as [sy | sy | | sy my ey]; try discriminate.
  - cbn [key]. rewrite Z.compare_refl. cbn [SFsub].
    destruct sx, sy; eexists; reflexivity.
  - pose proof (scaled_pos sy _ _ Vy) as Hy. cbn [key SFsub].
    destruct sy; cbn [negb signed].
    + replace (0 ?= - scaled my ey) with Gt by (symmetry; apply Z.compare_gt_iff; lia).
      reflexivity.
    + replace (0 ?= scaled my ey) with Lt by (symmetry; apply Z.compare_lt_iff; lia).
      reflexivity.
  - pose proof (scaled_pos sx _ _ Vx) as Hx. cbn [key SFsub].
    destruct sx; cbn [signed].
    + replace (- scaled mx ex ?= 0) with Lt by (symmetry; apply Z.compare_lt_iff; lia).
      reflexivity.
    + replace (scaled mx ex ?= 0) with Gt by (symmetry; apply Z.compare_gt_iff; lia).
      reflexivity.
  - pose proof (valid_finite _ _ _ Vx) as (Hex & _).
    pose proof (valid_finite _ _ _ Vy) as (Hey & _).
    cbn [SFsub]. cbv zeta.
    set (ez := Z.min ex ey).
    assert (-1074 <= ez <= ex /\ ez <= ey) as (Hx & Hy) by (unfold ez; lia).
    pose proof (aligned_key sx mx Hx) as Kx.
    pose proof (aligned_key sy my (conj (proj1 Hx) Hy)) as Ky.
    set (ax := cond_Zopp sx (Z.pos (fst (shl_align mx ex ez)))) in *.
    set (ay := cond_Zopp sy (Z.pos (fst (shl_align my ey ez)))) in *.
    rewrite <- Kx, <- Ky.
    assert (0 < 2 ^ (ez + 1074)) as Hp by (apply Z.pow_pos_nonneg; lia).
    pose proof (binary_normalize_signed (ax - ay) (proj1 Hx)) as Hn.
    destruct (ax - ay) as [|p|p] eqn:HD.
    + replace ax with ay by lia. rewrite Z.compare_refl. now exists false.
    + replace (ax * 2 ^ (ez + 1074) ?= ay * 2 ^ (ez + 1074)) with Gt; [exact Hn|].
      symmetry. apply Z.compare_gt_iff. nia.
    + replace (ax * 2 ^ (ez + 1074) ?= ay * 2 ^ (ez + 1074)) with Lt; [exact Hn|].
      symmetry. apply Z.compare_lt_iff. nia.
Qed.

(** For two finite numbers the comparator [a - b] of [sort] is at most
    0 exactly when [a <= b]. *)
Lemma SortCompare_sub (x y : PrimFloat.float) :
  PrimFloat.is_finite x = true -> PrimFloat.is_finite y = true ->
  (SortCompare PrimFloat.sub x y <=? zero)%float = (x <=? y)%float.
Proof.
  intros Fx Fy. rewrite is_finite_spec in Fx, Fy.
  pose proof (SFsub_sign _ _ (Prim2SF_valid x) (Prim2SF_valid y) Fx Fy) as Hs.
  assert (is_nan (Prim2SF x) = false /\ is_nan (Prim2SF y) = false) as [Nx Ny].
  { destruct (Prim2SF x), (Prim2SF y); try discriminate; split; reflexivity. }
  assert ((x <=? y)%float = (key (Prim2SF x) <=? key (Prim2SF y))) as ->.
  { destruct (x <=? y)%float eqn:E.
    - apply leb_key in E as (_ & _ & E). symmetry. now apply Z.leb_le.
    - symmetry. apply Z.leb_gt. apply Z.lt_nge. intros Hle.
      assert ((x <=? y)%float = true) as E' by (apply leb_key; auto).
      congruence. }
  pose proof (sub_spec x y) as Hz.
  change (SF64sub (Prim2SF x) (Prim2SF y))
    with (SFsub prec emax (Prim2SF x) (Prim2SF y)) in Hz.
  rewrite <- Hz in Hs. unfold SortCompare. rewrite is_nan_spec.
  destruct (Z.compare_spec (key (Prim2SF x)) (key (Prim2SF y))) as [He | Hl | Hg].
  - destruct Hs as [s Hs]. rewrite Hs. cbn [is_nan].
    rewrite leb_spec, Hs, He, Z.leb_refl. now destruct s.
  - replace (_ <=? _) with true by (symmetry; apply Z.leb_le; lia).
    destruct (Prim2SF (x - y)) as [? | s' | | s' m' e'] eqn:E; cbn in Hs;
      try contradiction; subst s'; cbn [is_nan]; rewrite leb_spec, E; reflexivity.
  - replace (_ <=? _) with false by (symmetry; apply Z.leb_gt; lia).
    destruct (Prim2SF (x - y)) as [? | s' | | s' m' e'] eqn:E; cbn in Hs;
      try contradiction; subst s'; cbn [is_nan]; rewrite leb_spec, E; reflexivity.
Qed.

(** ** Integers as doubles *)

(** An integer below [2^53] is a double, with the key of that integer. *)
Lemma of_integer_spec (s : bool) (n : Z) :
  0 <= n < 2 ^ 53 ->
  valid_binary (of_integer s n) = true
  /\ is_number (of_integer s n) = true
  /\ key (of_integer s n) = (if s then - n else n) * 2 ^ 1074.
Proof.
  intros Hn. destruct n as [|p|p]; [| |lia].
  - cbn. destruct s; repeat split.
  - cbn [of_integer]. cbv zeta.
    pose proof (digits2_pos_bounds p) as [Hlo Hhi].
    set (d := Z.pos (digits2_pos p)) in *.
    assert (1 <= d <= 53) as Hd.
    { split; [unfold d; lia|].
      assert (d - 1 < 53); [|lia]. apply (Z.pow_lt_mono_r_iff 2); lia. }
    assert (0 < 2 ^ (53 - d)) as Hp by (apply Z.pow_pos_nonneg; lia).
    assert (2 ^ 52 <= Z.pos p * 2 ^ (53 - d) < 2 ^ 53) as Hm.
    { assert (2 ^ 52 = 2 ^ (d - 1) * 2 ^ (53 - d)) as ->.
      { rewrite <- Z.pow_add_r by lia. f_equal. lia. }
      assert (2 ^ 53 = 2 ^ d * 2 ^ (53 - d)) as ->.
      { rewrite <- Z.pow_add_r by lia. f_equal. lia. }
      split.
      - apply Z.mul_le_mono_nonneg_r; lia.
      - apply Z.mul_lt_mono_pos_r; lia. }
    assert (Z.pos (Z.to_pos (Z.pos p * 2 ^ (53 - d))) = Z.pos p * 2 ^ (53 - d))
      as Hpos by (apply Z2Pos.id; lia).
    split; [apply finite_valid; lia|]. split; [reflexivity|].
    cbn [key]. unfold scaled. rewrite Hpos.
    assert (Z.pos p * 2 ^ (53 - d) * 2 ^ (d - 53 + 1074) = Z.pos p * 2 ^ 1074)
      as Hk.
    { rewrite <- Z.mul_assoc, <- Z.pow_add_r by lia. do 2 f_equal. lia. }
    destruct s; rewrite Hk; ring.
Qed.

Lemma Prim2SF_of_integer (s : bool) (n : Z) :
  0 <= n < 2 ^ 53 -> Prim2SF (SF2Prim (of_integer s n)) = of_integer s n.
Proof. intros Hn. apply Prim2SF_SF2Prim. now apply of_integer_spec. Qed.

(** The integer part of a finite double whose exponent is negative. *)
Lemma integer_part_range (m : positive) (e : Z) :
  Z.pos m < 2 ^ 53 -> e < 0 -> 0 <= Z.pos m / 2 ^ (- e) < 2 ^ 53.
Proof.
  intros Hm He.
  assert (0 < 2 ^ (- e)) as Hp by (apply Z.pow_pos_nonneg; lia).
  split; [apply Z.div_pos; lia|].
  apply Z.le_lt_trans with (Z.pos m); [|assumption].
  apply Z.div_le_upper_bound; [assumption|]. nia.
Qed.

Lemma S754_finite_inj (s s' : bool) (m m' : positive) (e e' : Z) :
  S754_finite s m e = S754_finite s' m' e' -> s = s' /\ m = m' /\ e = e'.
Proof. intros [= -> -> ->]. repeat split. Qed.

(** [of_integer] at the integer part of itself. *)
Lemma of_integer_integer_part (s : bool) (n : Z) (s' : bool) (m : positive) (e : Z) :
  0 <= n < 2 ^ 53 -> of_integer s n = S754_finite s' m e -> e < 0 ->
  of_integer s' (Z.pos m / 2 ^ (- e)) = of_integer s n.
Proof.
  intros Hn Heq He. destruct n as [|p|p]; [discriminate | | lia].
  pose proof (digits2_pos_bounds p) as [Hlo Hhi].
  set (d := Z.pos (digits2_pos p)) in *.
  assert (of_integer s (Z.pos p)
          = S754_finite s (Z.to_pos (Z.pos p * 2 ^ (53 - d))) (d - 53)) as Hof
    by reflexivity.
  rewrite Hof in *.
  assert (0 < d) as Hd by (unfold d; lia). clearbody d.
  apply S754_finite_inj in Heq as (<- & <- & <-).
  assert (0 < 2 ^ (53 - d)) as Hp by (apply Z.pow_pos_nonneg; lia).
  rewrite Z2Pos.id by (apply Z.mul_pos_pos; lia).
  replace (- (d - 53)) with (53 - d) by lia.
  rewrite Z.div_mul by lia. rewrite <- Hof. reflexivity.
Qed.

(** ** [Math.trunc] *)

Lemma Math_trunc_cases (x : PrimFloat.float) :
  Math_trunc x = x
  \/ exists s m e,
       Prim2SF x = S754_finite s m e /\ e < 0
       /\ 0 <= Z.pos m / 2 ^ (- e) < 2 ^ 53
       /\ Math_trunc x = SF2Prim (of_integer s (Z.pos m / 2 ^ (- e))).
Proof.
  unfold Math_trunc. pose proof (Prim2SF_valid x) as V.
  destruct (Prim2SF x) as [s | s | | s m e] eqn:E; try now left.
  destruct (Z.leb_spec 0 e) as [He | He]; [now left | right].
  apply valid_finite in V as (_ & Hm & _).
  exists s, m, e. repeat split; try assumption; now apply integer_part_range.
Qed.

(** The integer part of an integer part is that integer part. *)
Lemma Math_trunc_idempotent (x : PrimFloat.float) :
  Math_trunc (Math_trunc x) = Math_trunc x.
Proof.
  destruct (Math_trunc_cases x) as [H | (s & m & e & E & He & Hn & ->)];
    [now rewrite !H|].
  destruct (Math_trunc_cases (SF2Prim (of_integer s (Z.pos m / 2 ^ (- e)))))
    as [H | (s' & m' & e' & E' & He' & Hn' & ->)]; [exact H|].
  rewrite Prim2SF_of_integer in E' by assumption.
  now rewrite (of_integer_integer_part _ Hn E' He').
Qed.

Lemma Math_trunc_finite (x : PrimFloat.float) :
  PrimFloat.is_finite (Math_trunc x) = PrimFloat.is_finite x.
Proof.
  destruct (Math_trunc_cases x) as [H | (s & m & e & E & He & Hn & ->)];
    [now rewrite H|].
  rewrite !is_finite_spec, E, Prim2SF_of_integer by assumption.
  now apply of_integer_spec.
Qed.

Lemma Math_trunc_nan (x : PrimFloat.float) :
  PrimFloat.is_nan (Math_trunc x) = PrimFloat.is_nan x.
Proof.
  destruct (Math_trunc_cases x) as [H | (s & m & e & E & He & Hn & ->)];
    [now rewrite H|].
  rewrite !is_nan_spec, E, Prim2SF_of_integer by assumption.
  destruct (of_integer_spec s Hn) as (_ & Hnum & _).
  now destruct (of_integer s _).
Qed.

(** The key of an integer part: it has the sign of the number and is
    not further from 0. *)
Lemma Math_trunc_key (x : PrimFloat.float) :
  (0 <= key (Prim2SF x) -> 0 <= key (Prim2SF (Math_trunc x)))
  /\ (key (Prim2SF x) <= 0 -> key (Prim2SF (Math_trunc x)) <= 0).
Proof.
  destruct (Math_trunc_cases x) as [H | (s & m & e & E & He & Hn & ->)];
    [rewrite H; split; trivial|].
  rewrite E, Prim2SF_of_integer by assumption.
  destruct (of_integer_spec s Hn) as (_ & _ & ->).
  pose proof (Prim2SF_valid x) as V. rewrite E in V.
  pose proof (scaled_pos s _ _ V) as Hpos. cbn [key].
  destruct s; split; intros; nia.
Qed.

(** An integer part is an integer. *)
Lemma Math_trunc_isInteger (x : PrimFloat.float) :
  PrimFloat.is_finite x = true -> Number_isInteger (Math_trunc x) = true.
Proof.
  intros Fx. unfold Number_isInteger.
  rewrite Math_trunc_idempotent, Math_trunc_finite, Fx. cbn [andb].
  assert (PrimFloat.is_nan (Math_trunc x) = false) as N.
  { rewrite Math_trunc_nan, is_nan_spec. rewrite is_finite_spec in Fx.
    now destruct (Prim2SF x). }
  unfold PrimFloat.is_nan in N. now apply negb_false_iff.
Qed.

(** ** The order of finite doubles *)

Lemma eqb_key (x y : PrimFloat.float) :
  (x =? y)%float = true
  <-> is_nan (Prim2SF x) = false /\ is_nan (Prim2SF y) = false
      /\ key (Prim2SF x) = key (Prim2SF y).
Proof.
  rewrite eqb_spec. unfold SFeqb.
  pose proof (Prim2SF_valid x) as Vx. pose proof (Prim2SF_valid y) as Vy.
  destruct (is_nan (Prim2SF x)) eqn:Nx.
  { destruct (Prim2SF x); try discriminate. cbn. split; [discriminate|].
    now intros (? & _). }
  destruct (is_nan (Prim2SF y)) eqn:Ny.
  { destruct (Prim2SF y); try discriminate.
    destruct (Prim2SF x); cbn; (split; [discriminate|]); now intros (_ & ? & _). }
  rewrite (SFcompare_key _ _ Vx Vy Nx Ny).
  destruct (Z.compare_spec (key (Prim2SF x)) (key (Prim2SF y))); split;
    try discriminate; try (intros (_ & _ & ?); lia); auto.
Qed.

Lemma finite_not_nan (x : PrimFloat.float) :
  PrimFloat.is_finite x = true -> is_nan (Prim2SF x) = false.
Proof. rewrite is_finite_spec. now destruct (Prim2SF x). Qed.

(** Of two finite numbers one is at most the other. *)
Lemma leb_total (x y : PrimFloat.float) :
  PrimFloat.is_finite x = true -> PrimFloat.is_finite y = true ->
  (x <=? y)%float = false -> (y <? x)%float = true.
Proof.
  intros Fx Fy Hle. apply finite_not_nan in Fx, Fy. apply ltb_key.
  repeat split; try assumption.
  apply Z.lt_nge. intros Hk.
  assert ((x <=? y)%float = true) as E by (apply leb_key; auto). congruence.
Qed.

Lemma leb_neq_ltb (x y : PrimFloat.float) :
  (x <=? y)%float = true -> (x =? y)%float = false -> (x <? y)%float = true.
Proof.
  intros Hle Hne. apply leb_key in Hle as (Nx & Ny & Hk). apply ltb_key.
  repeat split; try assumption.
  destruct (Z.eq_dec (key (Prim2SF x)) (key (Prim2SF y))) as [He|]; [|lia].
  assert ((x =? y)%float = true) as E by (apply eqb_key; auto). congruence.
Qed.

Lemma ltb_trans (x y z : PrimFloat.float) :
  (x <? y)%float = true -> (y <? z)%float = true -> (x <? z)%float = true.
Proof.
  rewrite !ltb_key. intros (? & ? & ?) (? & ? & ?). repeat split; try assumption; lia.
Qed.

Lemma ltb_leb (x y : PrimFloat.float) :
  (x <? y)%float = true -> (x <=? y)%float = true.
Proof.
  rewrite ltb_key, leb_key. intros (? & ? & ?). repeat split; try assumption; lia.
Qed.

Lemma ltb_neq (x y : PrimFloat.float) : (x <? y)%float = true -> x <> y.
Proof. rewrite ltb_key. intros (_ & _ & Hk) ->. lia. Qed.

Lemma eqb_sym (x y : PrimFloat.float) : (x =? y)%float = (y =? x)%float.
Proof.
  destruct (x =? y)%float eqn:E.
  - symmetry. apply eqb_key. apply eqb_key in E as (? & ? & ?). auto.
  - destruct (y =? x)%float eqn:E'; [|reflexivity].
    apply eqb_key in E' as (? & ? & ?).
    assert ((x =? y)%float = true) as E'' by (apply eqb_key; auto). congruence.
Qed.

(** ** [Math.max] against 0 *)

Lemma Math_max_zero (y : PrimFloat.float) :
  Math_max (of_Z 0) y
  = if PrimFloat.is_nan y then nan
    else if (of_Z 0 <? y)%float then y else of_Z 0.
Proof.
  unfold Math_max. change (PrimFloat.is_nan (of_Z 0)) with false.
  change (get_sign (of_Z 0)) with false. cbn [orb].
  destruct (PrimFloat.is_nan y); [reflexivity|].
  destruct (of_Z 0 <? y)%float; [reflexivity|].
  destruct (y <? of_Z 0)%float; reflexivity.
Qed.

Lemma Math_max_zero_nonneg (y : PrimFloat.float) :
  PrimFloat.is_nan y = false -> (of_Z 0 <=? Math_max (of_Z 0) y)%float = true.
Proof.
  intros Ny. rewrite Math_max_zero, Ny.
  destruct (of_Z 0 <? y)%float eqn:E; [now apply ltb_leb | reflexivity].
Qed.

(** A number that [sanitized] drops has the fallback of its integer
    part. *)
Lemma Math_max_zero_trunc (b : PrimFloat.float) :
  Number_isFinite b && (of_Z 0 <=? b)%float = false ->
  Math_max (of_Z 0) (Math_trunc b) = Math_max (of_Z 0) b.
Proof.
  intros Hb. rewrite !Math_max_zero, Math_trunc_nan.
  destruct (PrimFloat.is_nan b) eqn:Nb; [reflexivity|].
  destruct (Math_trunc_cases b) as [H | (s & m & e & E & He & Hn & H)];
    [now rewrite H|].
  assert (PrimFloat.is_finite b = true) as Fb by (now rewrite is_finite_spec, E).
  unfold Number_isFinite in Hb. rewrite Fb in Hb. cbn [andb] in Hb.
  assert (key (Prim2SF b) < 0) as Hk.
  { apply Z.lt_nge. intros Hk.
    assert ((of_Z 0 <=? b)%float = true) as E'; [|congruence].
    apply leb_key. split; [reflexivity|]. split; [now apply finite_not_nan|].
    exact Hk. }
  pose proof (Math_trunc_key b) as [_ Hneg]. specialize (Hneg ltac:(lia)).
  replace (of_Z 0 <? Math_trunc b)%float with false.
  - replace (of_Z 0 <? b)%float with false; [reflexivity|].
    symmetry. destruct (of_Z 0 <? b)%float eqn:E'; [|reflexivity].
    apply ltb_key in E' as (_ & _ & E'). change (key (Prim2SF (of_Z 0))) with 0 in E'.
    lia.
  - symmetry. destruct (of_Z 0 <? Math_trunc b)%float eqn:E'; [|reflexivity].
    apply ltb_key in E' as (_ & _ & E'). change (key (Prim2SF (of_Z 0))) with 0 in E'.
    lia.
Qed.

(** ** Bins *)

Lemma is_bin_zero : is_bin zero.
Proof. repeat split. Qed.

(** What [sanitized] keeps are bins. *)
Lemma sanitized_bins (kind : AdvancedKind) (baseIndex : PrimFloat.float) :
  Forall is_bin (sanitized kind baseIndex).
Proof.
  unfold sanitized. apply Forall_map, Forall_forall. intros c Hc.
  apply filter_In in Hc as [_ Hc]. apply andb_prop in Hc as [Fc Pc].
  unfold Number_isFinite in Fc. repeat split.
  - now rewrite Math_trunc_finite.
  - apply leb_key in Pc as (_ & Nc & Pc).
    change (key (Prim2SF (of_Z 0))) with 0 in Pc.
    apply leb_key. split; [reflexivity|]. split.
    + rewrite <- is_nan_spec, Math_trunc_nan, is_nan_spec. exact Nc.
    + change (key (Prim2SF (of_Z 0))) with 0. now apply Math_trunc_key.
  - now apply Math_trunc_isInteger.
Qed.

(** The base index is the first candidate. *)
Lemma sanitized_nil (kind : AdvancedKind) (baseIndex : PrimFloat.float) :
  sanitized kind baseIndex = [] ->
  Number_isFinite baseIndex && (of_Z 0 <=? baseIndex)%float = false.
Proof.
  unfold sanitized.
  destruct (Number_isFinite baseIndex && (of_Z 0 <=? baseIndex)%float) eqn:E;
    [|reflexivity].
  destruct kind; cbn [coreBins filter]; rewrite E; discriminate.
Qed.

(** ** [Array.from(new Set(...))] *)

Lemma distinct_snoc (l : list PrimFloat.float) (x : PrimFloat.float) :
  distinct l -> Forall (fun a => (a =? x)%float = false) l -> distinct (l ++ [x]).
Proof.
  induction 1 as [|a l Hs IH Ha]; intros Hx; simpl.
  - repeat constructor.
  - inversion Hx; subst. constructor; [now apply IH|].
    apply Forall_app. split; [assumption|]. now repeat constructor.
Qed.

Lemma Set_add_bins (seen : list PrimFloat.float) (x : PrimFloat.float) :
  Forall is_bin seen -> is_bin x -> distinct seen ->
  Forall is_bin (Set_add seen x) /\ distinct (Set_add seen x).
Proof.
  intros Hseen Hx Hd. unfold Set_add.
  destruct (existsb (SameValueZero x) seen) eqn:E; [now split|].
  split.
  - apply Forall_app. split; [assumption|]. constructor; [|constructor].
    destruct (is_zero x); [apply is_bin_zero | assumption].
  - apply distinct_snoc; [assumption|].
    apply Forall_forall. intros a Ha.
    assert (SameValueZero x a = false) as Hxa.
    { destruct (SameValueZero x a) eqn:E'; [|reflexivity].
      assert (existsb (SameValueZero x) seen = true) as E''; [|congruence].
      apply existsb_exists. now exists a. }
    unfold SameValueZero in Hxa. apply orb_false_iff in Hxa as [Hxa _].
    unfold is_zero. destruct (x =? zero)%float eqn:Z; [|now rewrite eqb_sym].
    destruct (a =? zero)%float eqn:Za; [|reflexivity].
    apply eqb_key in Z as (Nx & _ & Kx). apply eqb_key in Za as (Na & _ & Ka).
    assert ((x =? a)%float = true) as E'; [|congruence].
    apply eqb_key. repeat split; try assumption. congruence.
Qed.

Lemma fold_Set_add_bins (xs seen : list PrimFloat.float) :
  Forall is_bin xs -> Forall is_bin seen -> distinct seen ->
  Forall is_bin (fold_left Set_add xs seen)
  /\ distinct (fold_left Set_add xs seen).
Proof.
  revert seen. induction xs as [|x xs IH]; intros seen Hxs Hseen Hd; simpl.
  - now split.
  - inversion Hxs; subst.
    destruct (Set_add_bins Hseen H1 Hd) as [Hb Hd']. now apply IH.
Qed.

Lemma Array_from_Set_bins (xs : list PrimFloat.float) :
  Forall is_bin xs ->
  Forall is_bin (Array_from_Set xs) /\ distinct (Array_from_Set xs).
Proof.
  intros Hxs. apply fold_Set_add_bins; [assumption | constructor | constructor].
Qed.

(** ** [sort] *)

Lemma sort_insert_Permutation
    (compare : PrimFloat.float -> PrimFloat.float -> PrimFloat.float)
    (x : PrimFloat.float) (sorted : list PrimFloat.float) :
  Permutation (sort_insert compare x sorted) (x :: sorted).
Proof.
  induction sorted as [|y rest IH]; simpl; [reflexivity|].
  destruct (SortCompare compare y x <=? zero)%float; [|reflexivity].
  rewrite IH. apply perm_swap.
Qed.

(** Inserting a bin that the sorted bins do not hold keeps them strictly
    ascending. *)
Lemma sort_insert_ascending (x : PrimFloat.float) (sorted : list PrimFloat.float) :
  is_bin x -> Forall is_bin sorted -> ascending sorted ->
  Forall (fun a => (a =? x)%float = false) sorted ->
  ascending (sort_insert PrimFloat.sub x sorted).
Proof.
  intros Hx Hbins Hs Hne. induction Hs as [|y rest Hs IH Hy]; simpl.
  - repeat constructor.
  - inversion Hbins as [|? ? By Brest]; subst.
    inversion Hne as [|? ? Nyx Nrest]; subst.
    rewrite SortCompare_sub by (apply By || apply Hx).
    destruct (y <=? x)%float eqn:E.
    + constructor; [now apply IH|].
      rewrite sort_insert_Permutation. constructor; [|assumption].
      now apply leb_neq_ltb.
    + assert ((x <? y)%float = true) as Hxy
        by (apply leb_total; [apply By | apply Hx | assumption]).
      constructor; [now constructor|]. constructor; [assumption|].
      eapply Forall_impl; [|exact Hy]. intros a Ha. eapply ltb_trans; eassumption.
Qed.

Lemma fold_sort_insert (xs sorted : list PrimFloat.float) :
  Forall is_bin xs -> distinct xs ->
  Forall is_bin sorted -> ascending sorted ->
  Forall (fun x => Forall (fun a => (a =? x)%float = false) sorted) xs ->
  ascending (fold_left (fun sorted x => sort_insert PrimFloat.sub x sorted) xs sorted)
  /\ Permutation
       (fold_left (fun sorted x => sort_insert PrimFloat.sub x sorted) xs sorted)
       (sorted ++ xs).
Proof.
  revert sorted.
  induction xs as [|x xs IH]; intros sorted Hxs Hd Hbins Hs Hne; simpl.
  - rewrite app_nil_r. now split.
  - inversion Hxs as [|? ? Bx Bxs]; subst.
    inversion Hd as [|? ? Dxs Dx]; subst.
    inversion Hne as [|? ? Nx Nxs]; subst.
    destruct (IH (sort_insert PrimFloat.sub x sorted)) as [Ha Hp];
      try assumption.
    + rewrite sort_insert_Permutation. now constructor.
    + now apply sort_insert_ascending.
    + apply Forall_forall. intros b Hb.
      rewrite sort_insert_Permutation. constructor.
      * rewrite Forall_forall in Dx. now apply Dx.
      * rewrite Forall_forall in Nxs. now apply Nxs.
    + split; [assumption|]. rewrite Hp, sort_insert_Permutation.
      now rewrite <- Permutation_middle.
Qed.

Lemma Array_sort_bins (xs : list PrimFloat.float) :
  Forall is_bin xs -> distinct xs ->
  ascending (Array_sort PrimFloat.sub xs)
  /\ Permutation (Array_sort PrimFloat.sub xs) xs.
Proof.
  intros Hxs Hd. apply (fold_sort_insert (sorted := [])); try assumption;
    try constructor.
  apply Forall_forall. intros; constructor.
Qed.

Lemma ascending_NoDup (l : list PrimFloat.float) : ascending l -> NoDup l.
Proof.
  induction 1 as [|a l Hs IH Ha]; constructor; [|assumption].
  intros Hin. rewrite Forall_forall in Ha. now apply (ltb_neq (Ha _ Hin)).
Qed.

(** ** [buildAdvancedBins] *)

(** Either no candidate is kept and the result is the fallback alone, or
    the result is made of the candidates kept: bins in strictly ascending
    order. *)
Lemma buildAdvancedBins_cases (kind : AdvancedKind) (baseIndex : PrimFloat.float) :
  buildAdvancedBins kind baseIndex
  = [Math_max (of_Z 0) (Math_trunc baseIndex)]
  \/ (sanitized kind baseIndex <> []
      /\ buildAdvancedBins kind baseIndex <> []
      /\ ascending (buildAdvancedBins kind baseIndex)
      /\ Forall is_bin (buildAdvancedBins kind baseIndex)).
Proof.
  unfold buildAdvancedBins. cbv zeta.
  change (fun a b : PrimFloat.float => (a - b)%float) with PrimFloat.sub.
  destruct (Array_from_Set_bins (sanitized_bins kind baseIndex)) as [Hb Hd].
  destruct (Array_from_Set (sanitized kind baseIndex)) as [|u unique] eqn:E.
  - left. reflexivity.
  - right. cbn [List.length Nat.eqb].
    destruct (Array_sort_bins Hb Hd) as [Ha Hp].
    split; [|split; [|split]].
    + intros Hnil. rewrite Hnil in E. discriminate.
    + intros Hnil. rewrite Hnil in Hp. now apply Permutation_nil in Hp.
    + assumption.
    + eapply Permutation_Forall; [symmetry; exact Hp | assumption].
Qed.

(** C3. For every kind and every base index, [buildAdvancedBins] returns
    a list that is not empty, holds no bin twice and is in ascending
    order; its bins are at least 0, for every base index that is a
    number (at NaN the result is NaN alone); and when the filter keeps no
    candidate, the result is the single bin [Math.max(0, baseIndex)].
    This is so on the doubles that the code computes with: for base
    indices beyond [2^53], where candidates coincide, and for the
    infinities. *)
Theorem buildAdvancedBins_well_formed
    (kind : AdvancedKind) (baseIndex : PrimFloat.float) :
  let bins := buildAdvancedBins kind baseIndex in
  bins <> []
  /\ NoDup bins
  /\ StronglySorted (fun a b => (a <? b)%float = true) bins
  /\ (PrimFloat.is_nan baseIndex = false ->
      Forall (fun bin => (of_Z 0 <=? bin)%float = true) bins)
  /\ (filter (fun bin => Number_isFinite bin && (of_Z 0 <=? bin)%float)
        (coreBins kind baseIndex) = [] ->
      bins = [Math_max (of_Z 0) baseIndex]).
Proof.
  cbv zeta.
  assert (filter (fun bin => Number_isFinite bin && (of_Z 0 <=? bin)%float)
            (coreBins kind baseIndex) = [] ->
          sanitized kind baseIndex = []) as Hmap
    by (unfold sanitized; now intros ->).
  destruct (buildAdvancedBins_cases kind baseIndex)
    as [Hfall | (Hkept & Hne & Ha & Hb)].
  - rewrite Hfall. split; [discriminate|].
    split; [repeat constructor; intros []|].
    split; [repeat constructor|]. split.
    + intros Nb. repeat constructor. apply Math_max_zero_nonneg.
      now rewrite Math_trunc_nan.
    + intros Hnil. f_equal.
      now apply Math_max_zero_trunc, sanitized_nil with kind, Hmap.
  - split; [assumption|]. split; [now apply ascending_NoDup|].
    split; [assumption|]. split.
    + intros _. eapply Forall_impl; [|exact Hb]. now intros bin (_ & Hpos & _).
    + intros Hnil. now apply Hmap in Hnil.
Qed.

(** The bins at some base indices.  Above [2^53] a bin of the list may be
    no double: at [2^53] the bin [2^53 + 1] is rounded to [2^53] and the
    list has two bins.  At [Infinity] the only bin is [Infinity], and at
    [NaN], where no bin passes the filter, the fallback is [NaN]. *)
Example buildAdvancedBins_samples :
  buildAdvancedBins stopLoss (of_Z 100) = [of_Z 98; of_Z 99; of_Z 100]
  /\ buildAdvancedBins limitBuy (of_Z 1) = [of_Z 0; of_Z 1]
  /\ buildAdvancedBins limitSell (of_Z (-1)) = [of_Z 0; of_Z 1]
  /\ buildAdvancedBins limitBuy (of_Z (-7)) = [of_Z 0]
  /\ buildAdvancedBins limitSell (of_Z (2 ^ 53)) = [of_Z (2 ^ 53); of_Z (2 ^ 53 + 2)]
  /\ buildAdvancedBins limitSell infinity = [infinity]
  /\ buildAdvancedBins limitSell neg_infinity = [of_Z 0]
  /\ buildAdvancedBins limitSell nan = [nan].
Proof. vm_compute. repeat split. Qed.

(** ** Rounding a number that is a double *)

(** Shifting to the right the bits that a shift to the left has added
    loses nothing. *)
Lemma iter_shr_1_exact (n q : positive) :
  iter_pos shr_1 n (Build_shr_record (Z.pos (Pos.iter xO q n)) false false)
  = Build_shr_record (Z.pos q) false false.
Proof.
  revert q. induction n as [n IH | n IH |]; intros q; simpl.
  - now rewrite !IH.
  - now rewrite !IH.
  - reflexivity.
Qed.

Lemma iter_xO_value (n q : positive) :
  Z.pos (Pos.iter xO q n) = Z.pos q * 2 ^ Z.pos n.
Proof.
  change (Pos.iter xO q n) with (shift_pos n q).
  rewrite shift_pos_correct, Zpower_pos_nat, Zpower_nat_Z, positive_nat_Z. ring.
Qed.

Lemma iter_xO_digits (n q : positive) :
  Z.pos (digits2_pos (Pos.iter xO q n)) = Z.pos (digits2_pos q) + Z.pos n.
Proof.
  revert q. induction n as [|n IH] using Pos.peano_ind; intros q.
  - cbn [Pos.iter digits2_pos]. lia.
  - rewrite Pos.iter_succ. cbn [digits2_pos]. rewrite Pos2Z.inj_succ, IH. lia.
Qed.

(** A mantissa [p] at the exponent [e] whose number has the mantissa [q]
    at its own exponent [f], above [e], is rounded to that double. *)
Lemma binary_round_aux_exact (s : bool) (p q : positive) (e f : Z) :
  f = fexp prec emax (Z.pos (digits2_pos p) + e) ->
  e <= f <= 971 ->
  Z.pos p = Z.pos q * 2 ^ (f - e) ->
  binary_round_aux prec emax s (Z.pos p) e loc_Exact = S754_finite s q f.
Proof.
  intros Hf Hef Hp.
  assert (shr_fexp prec emax (Z.pos p) e loc_Exact
          = (Build_shr_record (Z.pos q) false false, f)
          /\ Z.pos (digits2_pos q) + f = Z.pos (digits2_pos p) + e) as [H1 Hd].
  { unfold shr_fexp. cbn [Zdigits2 shr_record_of_loc]. rewrite <- Hf.
    unfold shr. destruct (f - e) as [|k|k] eqn:Hk; try lia.
    - rewrite Z.pow_0_r, Z.mul_1_r in Hp. injection Hp as ->.
      split; [f_equal; lia | lia].
    - rewrite <- iter_xO_value in Hp. injection Hp as ->.
      rewrite iter_shr_1_exact, iter_xO_digits.
      split; [f_equal; lia | lia]. }
  unfold binary_round_aux. rewrite H1.
  cbn [shr_m loc_of_shr_record round_nearest_even].
  unfold shr_fexp. cbn [Zdigits2 shr_record_of_loc]. rewrite Hd, <- Hf, Z.sub_diag.
  cbn [shr shr_m].
  replace (f <=? emax - prec) with true; [reflexivity|].
  symmetry. apply Z.leb_le. change (emax - prec) with 971. lia.
Qed.

Lemma binary_round_exact (s : bool) (p q : positive) (e f : Z) :
  -1074 <= e ->
  f = fexp prec emax (Z.pos (digits2_pos p) + e) ->
  f <= 971 ->
  Z.pos p * 2 ^ (e + 1074) = Z.pos q * 2 ^ (f + 1074) ->
  binary_round prec emax s p e = S754_finite s q f.
Proof.
  intros He Hf Hf' Hv.
  assert (-1074 <= f) as Hlo.
  { rewrite Hf. unfold fexp, SpecFloat.emin. change (3 - emax - prec) with (-1074). lia. }
  unfold binary_round, shl_align. rewrite <- Hf.
  destruct (f - e) as [|k|k] eqn:Hk.
  - apply binary_round_aux_exact; [assumption | lia |].
    rewrite Hk, Z.pow_0_r, Z.mul_1_r. replace f with e in Hv by lia.
    apply Z.mul_cancel_r in Hv; [assumption|]. apply Z.pow_nonzero; lia.
  - apply binary_round_aux_exact; [assumption | lia |].
    replace (f + 1074) with (f - e + (e + 1074)) in Hv by lia.
    rewrite (Z.pow_add_r 2 (f - e) (e + 1074)), Z.mul_assoc in Hv by lia.
    apply Z.mul_cancel_r in Hv; [assumption|]. apply Z.pow_nonzero; lia.
  - assert (Pos.iter xO p k = q) as ->.
    { apply Pos2Z.inj. rewrite iter_xO_value.
      replace (e + 1074) with (Z.pos k + (f + 1074)) in Hv by lia.
      rewrite (Z.pow_add_r 2 (Z.pos k) (f + 1074)), Z.mul_assoc in Hv by lia.
      apply Z.mul_cancel_r in Hv; [assumption|]. apply Z.pow_nonzero; lia. }
    apply binary_round_aux_exact; [|lia|].
    + rewrite Hf. f_equal.
      assert (Z.pos p * 2 ^ Z.pos k = Z.pos q) as Hq.
      { replace (e + 1074) with (Z.pos k + (f + 1074)) in Hv by lia.
        rewrite (Z.pow_add_r 2 (Z.pos k) (f + 1074)), Z.mul_assoc in Hv by lia.
        apply Z.mul_cancel_r in Hv; [assumption|]. apply Z.pow_nonzero; lia. }
      rewrite <- iter_xO_value in Hq. apply Pos2Z.inj in Hq. subst q.
      rewrite iter_xO_digits. lia.
    + rewrite Z.sub_diag, Z.pow_0_r. lia.
Qed.

(** ** The doubles of the integers below [2^53] *)

(** The number of digits of a mantissa from the number itself. *)
Lemma digits_of_value (p k : positive) (e : Z) :
  -1074 <= e ->
  Z.pos p * 2 ^ (e + 1074) = Z.pos k * 2 ^ 1074 ->
  Z.pos (digits2_pos p) + e = Z.pos (digits2_pos k).
Proof.
  intros He Hv.
  pose proof (digits2_pos_bounds p) as [Hp1 Hp2].
  pose proof (digits2_pos_bounds k) as [Hk1 Hk2].
  set (dp := Z.pos (digits2_pos p)) in *.
  set (dk := Z.pos (digits2_pos k)) in *.
  assert (1 <= dp /\ 1 <= dk) as [Hdp Hdk] by (unfold dp, dk; lia).
  assert (0 < 2 ^ (e + 1074)) as He' by (apply Z.pow_pos_nonneg; lia).
  assert (0 < 2 ^ 1074) as H1074 by (apply Z.pow_pos_nonneg; lia).
  assert (2 ^ (dp - 1 + (e + 1074)) < 2 ^ (dk + 1074)) as H1.
  { rewrite (Z.pow_add_r 2 (dp - 1) (e + 1074)), (Z.pow_add_r 2 dk 1074) by lia.
    apply Z.le_lt_trans with (Z.pos p * 2 ^ (e + 1074)).
    - apply Z.mul_le_mono_nonneg_r; lia.
    - rewrite Hv. apply Z.mul_lt_mono_pos_r; lia. }
  assert (2 ^ (dk - 1 + 1074) < 2 ^ (dp + (e + 1074))) as H2.
  { rewrite (Z.pow_add_r 2 (dk - 1) 1074), (Z.pow_add_r 2 dp (e + 1074)) by lia.
    apply Z.le_lt_trans with (Z.pos k * 2 ^ 1074).
    - apply Z.mul_le_mono_nonneg_r; lia.
    - rewrite <- Hv. apply Z.mul_lt_mono_pos_r; lia. }
  apply Z.pow_lt_mono_r_iff in H1; [|lia|lia].
  apply Z.pow_lt_mono_r_iff in H2; [|lia|lia].
  lia.
Qed.

(** Rounding an integer below [2^53], given by a mantissa and an
    exponent, changes nothing. *)
Lemma binary_round_integer (s : bool) (p : positive) (e n : Z) :
  -1074 <= e -> 0 < n < 2 ^ 53 ->
  Z.pos p * 2 ^ (e + 1074) = n * 2 ^ 1074 ->
  binary_round prec emax s p e = of_integer s n.
Proof.
  intros He Hn Hv. destruct n as [|k|k]; try lia.
  cbn [of_integer]. cbv zeta.
  pose proof (@digits_of_value _ _ _ He Hv) as Hd.
  pose proof (digits2_pos_bounds k) as [Hk1 Hk2].
  set (d := Z.pos (digits2_pos k)) in *.
  assert (1 <= d <= 53) as Hd53.
  { split; [unfold d; lia|].
    assert (d - 1 < 53); [|lia]. apply (Z.pow_lt_mono_r_iff 2); lia. }
  assert (0 < 2 ^ (53 - d)) as Hp by (apply Z.pow_pos_nonneg; lia).
  assert (Z.pos (Z.to_pos (Z.pos k * 2 ^ (53 - d))) = Z.pos k * 2 ^ (53 - d))
    as Hpos by (apply Z2Pos.id; lia).
  apply binary_round_exact.
  - assumption.
  - rewrite Hd. unfold fexp, SpecFloat.emin.
    change (3 - emax - prec) with (-1074). change prec with 53. lia.
  - lia.
  - rewrite Hv, Hpos, <- Z.mul_assoc, <- Z.pow_add_r by lia.
    do 2 f_equal. lia.
Qed.

Lemma binary_normalize_integer (S e n : Z) :
  -1074 <= e -> Z.abs n < 2 ^ 53 ->
  S * 2 ^ (e + 1074) = n * 2 ^ 1074 ->
  binary_normalize prec emax S e false = of_integer (n <? 0) (Z.abs n).
Proof.
  intros He Hn Hv.
  assert (0 < 2 ^ (e + 1074)) as He' by (apply Z.pow_pos_nonneg; lia).
  assert (0 < 2 ^ 1074) as H1074 by (apply Z.pow_pos_nonneg; lia).
  destruct S as [|p|p]; cbn [binary_normalize].
  - assert (n = 0) as -> by nia. reflexivity.
  - assert (0 < n) as Hpos by nia.
    replace (n <? 0) with false by (symmetry; apply Z.ltb_ge; lia).
    apply binary_round_integer; [assumption | lia |].
    rewrite Hv. f_equal. lia.
  - assert (n < 0) as Hneg by nia.
    replace (n <? 0) with true by (symmetry; apply Z.ltb_lt; lia).
    apply binary_round_integer; [assumption | lia |].
    replace (Z.abs n) with (- n) by lia.
    rewrite Z.mul_opp_l, <- Hv. rewrite <- Pos2Z.opp_pos. ring.
Qed.

(** The double of an integer below [2^53] in absolute value. *)
Lemma Prim2SF_of_Z (n : Z) :
  Z.abs n < 2 ^ 53 -> Prim2SF (of_Z n) = of_integer (n <? 0) (Z.abs n).
Proof.
  intros Hn. unfold of_Z.
  rewrite (@binary_normalize_integer n 0 n) by (try reflexivity; lia).
  apply Prim2SF_of_integer. lia.
Qed.

Lemma of_Z_spec (n : Z) :
  Z.abs n < 2 ^ 53 ->
  PrimFloat.is_finite (of_Z n) = true
  /\ is_nan (Prim2SF (of_Z n)) = false
  /\ key (Prim2SF (of_Z n)) = n * 2 ^ 1074.
Proof.
  intros Hn. rewrite is_finite_spec, Prim2SF_of_Z by assumption.
  destruct (@of_integer_spec (n <? 0) (Z.abs n)) as (_ & Hnum & Hkey); [lia|].
  split; [assumption|]. split.
  - destruct (of_integer (n <? 0) (Z.abs n)); try discriminate; reflexivity.
  - rewrite Hkey. destruct (Z.ltb_spec n 0); f_equal; lia.
Qed.

Lemma float_eq (x y : PrimFloat.float) : Prim2SF x = Prim2SF y -> x = y.
Proof.
  intros E. rewrite <- (SF2Prim_Prim2SF x), <- (SF2Prim_Prim2SF y). now f_equal.
Qed.

(** ** Sums and differences of integers *)

Lemma of_integer_nonzero (s : bool) (n : Z) :
  n <> 0 -> Z.abs n < 2 ^ 53 ->
  exists m e,
    (forall s', of_integer s' (Z.abs n) = S754_finite s' m e)
    /\ valid_binary (S754_finite s m e) = true
    /\ key (S754_finite s m e) = (if s then - Z.abs n else Z.abs n) * 2 ^ 1074.
Proof.
  intros Hn Hlt.
  destruct (@of_integer_spec s (Z.abs n)) as (V & _ & K); [lia|].
  destruct (Z.abs n) as [|k|k] eqn:E; try lia.
  cbn [of_integer] in *. cbv zeta in *.
  eexists _, _. split; [intros s'; reflexivity|]. split; assumption.
Qed.

Lemma aligned_sum (sx sy : bool) (mx my : positive) (ex ey a b : Z) :
  valid_binary (S754_finite sx mx ex) = true ->
  valid_binary (S754_finite sy my ey) = true ->
  key (S754_finite sx mx ex) = a * 2 ^ 1074 ->
  key (S754_finite sy my ey) = b * 2 ^ 1074 ->
  let ez := Z.min ex ey in
  -1074 <= ez
  /\ cond_Zopp sx (Z.pos (fst (shl_align mx ex ez))) * 2 ^ (ez + 1074) = a * 2 ^ 1074
  /\ cond_Zopp sy (Z.pos (fst (shl_align my ey ez))) * 2 ^ (ez + 1074) = b * 2 ^ 1074.
Proof.
  intros Vx Vy Kx Ky ez.
  pose proof (valid_finite _ _ _ Vx) as (Hex & _).
  pose proof (valid_finite _ _ _ Vy) as (Hey & _).
  assert (-1074 <= ez <= ex /\ ez <= ey) as (Hx & Hy) by (unfold ez; lia).
  split; [lia|]. split.
  - rewrite <- Kx. now apply aligned_key.
  - rewrite <- Ky. apply aligned_key. lia.
Qed.

Lemma SFadd_finite_integer (sx sy : bool) (mx my : positive) (ex ey a b : Z) :
  valid_binary (S754_finite sx mx ex) = true ->
  valid_binary (S754_finite sy my ey) = true ->
  key (S754_finite sx mx ex) = a * 2 ^ 1074 ->
  key (S754_finite sy my ey) = b * 2 ^ 1074 ->
  Z.abs (a + b) < 2 ^ 53 ->
  SFadd prec emax (S754_finite sx mx ex) (S754_finite sy my ey)
  = of_integer (a + b <? 0) (Z.abs (a + b)).
Proof.
  intros Vx Vy Kx Ky Hab.
  destruct (@aligned_sum _ _ _ _ _ _ _ _ Vx Vy Kx Ky) as (Hez & Hx & Hy).
  cbn [SFadd]. cbv zeta.
  apply binary_normalize_integer; [assumption | assumption |].
  rewrite Z.mul_add_distr_r, Hx, Hy. ring.
Qed.

Lemma SFsub_finite_integer (sx sy : bool) (mx my : positive) (ex ey a b : Z) :
  valid_binary (S754_finite sx mx ex) = true ->
  valid_binary (S754_finite sy my ey) = true ->
  key (S754_finite sx mx ex) = a * 2 ^ 1074 ->
  key (S754_finite sy my ey) = b * 2 ^ 1074 ->
  Z.abs (a - b) < 2 ^ 53 ->
  SFsub prec emax (S754_finite sx mx ex) (S754_finite sy my ey)
  = of_integer (a - b <? 0) (Z.abs (a - b)).
Proof.
  intros Vx Vy Kx Ky Hab.
  destruct (@aligned_sum _ _ _ _ _ _ _ _ Vx Vy Kx Ky) as (Hez & Hx & Hy).
  cbn [SFsub]. cbv zeta.
  apply binary_normalize_integer; [assumption | assumption |].
  rewrite Z.mul_sub_distr_r, Hx, Hy. ring.
Qed.

(** The representation of a non-zero integer, with its sign. *)
Lemma of_integer_signed (n : Z) :
  n <> 0 -> Z.abs n < 2 ^ 53 ->
  exists m e,
    (forall s', of_integer s' (Z.abs n) = S754_finite s' m e)
    /\ valid_binary (S754_finite (n <? 0) m e) = true
    /\ key (S754_finite (n <? 0) m e) = n * 2 ^ 1074.
Proof.
  intros Hn Hlt.
  destruct (@of_integer_nonzero (n <? 0) n Hn Hlt) as (m & e & Hm & V & K).
  exists m, e. split; [assumption|]. split; [assumption|].
  rewrite K. destruct (Z.ltb_spec n 0); f_equal; lia.
Qed.

(** Below [2^53] the sum and the difference of two integers are those of
    their doubles. *)
Lemma add_of_Z (a b : Z) :
  Z.abs a < 2 ^ 53 -> Z.abs b < 2 ^ 53 -> Z.abs (a + b) < 2 ^ 53 ->
  (of_Z a + of_Z b)%float = of_Z (a + b).
Proof.
  intros Ha Hb Hab. apply float_eq.
  rewrite add_spec, !Prim2SF_of_Z by assumption.
  change SF64add with (SFadd prec emax).
  destruct (Z.eq_dec a 0) as [-> | Na]; [|destruct (Z.eq_dec b 0) as [-> | Nb]].
  - rewrite Z.add_0_l. destruct (Z.eq_dec b 0) as [-> | Nb]; [reflexivity|].
    destruct (@of_integer_signed _ Nb Hb) as (m & e & -> & _). reflexivity.
  - rewrite Z.add_0_r.
    destruct (@of_integer_signed _ Na Ha) as (m & e & -> & _). reflexivity.
  - destruct (@of_integer_signed _ Na Ha) as (ma & ea & -> & Va & Ka).
    destruct (@of_integer_signed _ Nb Hb) as (mb & eb & -> & Vb & Kb).
    now apply SFadd_finite_integer.
Qed.

Lemma sub_of_Z (a b : Z) :
  Z.abs a < 2 ^ 53 -> Z.abs b < 2 ^ 53 -> Z.abs (a - b) < 2 ^ 53 ->
  (of_Z a - of_Z b)%float = of_Z (a - b).
Proof.
  intros Ha Hb Hab. apply float_eq.
  rewrite sub_spec, !Prim2SF_of_Z by assumption.
  change SF64sub with (SFsub prec emax).
  destruct (Z.eq_dec b 0) as [-> | Nb]; [|destruct (Z.eq_dec a 0) as [-> | Na]].
  - rewrite Z.sub_0_r. destruct (Z.eq_dec a 0) as [-> | Na]; [reflexivity|].
    destruct (@of_integer_signed _ Na Ha) as (m & e & -> & _). reflexivity.
  - destruct (@of_integer_signed _ Nb Hb) as (m & e & Hm & _).
    rewrite Hm. cbn [Z.ltb Z.compare Z.abs of_integer SFsub].
    replace (Z.abs (0 - b)) with (Z.abs b) by lia. rewrite Hm.
    f_equal. destruct (Z.ltb_spec b 0), (Z.ltb_spec (0 - b) 0); try reflexivity; lia.
  - destruct (@of_integer_signed _ Na Ha) as (ma & ea & -> & Va & Ka).
    destruct (@of_integer_signed _ Nb Hb) as (mb & eb & -> & Vb & Kb).
    now apply SFsub_finite_integer.
Qed.

(** ** The bins of an integer base index *)

Lemma leb_of_Z (a b : Z) :
  small a -> small b -> (of_Z a <=? of_Z b)%float = (a <=? b).
Proof.
  intros Ha Hb.
  destruct (@of_Z_spec a Ha) as (_ & Na & Ka), (@of_Z_spec b Hb) as (_ & Nb & Kb).
  assert (0 < 2 ^ 1074) as H1074 by (apply Z.pow_pos_nonneg; lia).
  destruct (Z.leb_spec a b) as [Hle | Hgt].
  - apply leb_key. repeat split; try assumption. rewrite Ka, Kb. nia.
  - destruct (of_Z a <=? of_Z b)%float eqn:E; [|reflexivity].
    apply leb_key in E as (_ & _ & E). rewrite Ka, Kb in E. nia.
Qed.

Lemma ltb_of_Z (a b : Z) :
  small a -> small b -> (of_Z a <? of_Z b)%float = (a <? b).
Proof.
  intros Ha Hb.
  destruct (@of_Z_spec a Ha) as (_ & Na & Ka), (@of_Z_spec b Hb) as (_ & Nb & Kb).
  assert (0 < 2 ^ 1074) as H1074 by (apply Z.pow_pos_nonneg; lia).
  destruct (Z.ltb_spec a b) as [Hlt | Hge].
  - apply ltb_key. repeat split; try assumption. rewrite Ka, Kb. nia.
  - destruct (of_Z a <? of_Z b)%float eqn:E; [|reflexivity].
    apply ltb_key in E as (_ & _ & E). rewrite Ka, Kb in E. nia.
Qed.

Lemma eqb_of_Z (a b : Z) :
  small a -> small b -> (of_Z a =? of_Z b)%float = (a =? b).
Proof.
  intros Ha Hb.
  destruct (@of_Z_spec a Ha) as (_ & Na & Ka), (@of_Z_spec b Hb) as (_ & Nb & Kb).
  assert (0 < 2 ^ 1074) as H1074 by (apply Z.pow_pos_nonneg; lia).
  destruct (Z.eqb_spec a b) as [-> | Hne].
  - apply eqb_key. repeat split; assumption.
  - destruct (of_Z a =? of_Z b)%float eqn:E; [|reflexivity].
    apply eqb_key in E as (_ & _ & E). rewrite Ka, Kb in E. nia.
Qed.

Lemma Math_trunc_of_Z (n : Z) : small n -> Math_trunc (of_Z n) = of_Z n.
Proof.
  intros Hn. unfold Math_trunc.
  pose proof (@Prim2SF_of_Z n Hn) as E.
  destruct (Prim2SF (of_Z n)) as [| | | s m e] eqn:Ex; try reflexivity.
  destruct (Z.leb_spec 0 e) as [He | He]; [reflexivity|].
  assert (0 <= Z.abs n < 2 ^ 53) as Hrange by (unfold small in Hn; lia).
  rewrite (@of_integer_integer_part (n <? 0) (Z.abs n) s m e Hrange (eq_sym E) He).
  rewrite <- E, <- Ex. apply SF2Prim_Prim2SF.
Qed.

Lemma stored_of_Z (x : Z) :
  small x -> (if is_zero (of_Z x) then zero else of_Z x) = of_Z x.
Proof.
  intros Hx. unfold is_zero.
  change zero with (of_Z 0).
  rewrite eqb_of_Z by (assumption || (unfold small; simpl; lia)).
  destruct (Z.eqb_spec x 0) as [-> | _]; reflexivity.
Qed.

Lemma SameValueZero_of_Z (a b : Z) :
  small a -> small b -> SameValueZero (of_Z a) (of_Z b) = (a =? b).
Proof.
  intros Ha Hb. unfold SameValueZero. rewrite eqb_of_Z by assumption.
  destruct (@of_Z_spec a Ha) as (_ & Na & _).
  rewrite is_nan_spec, Na. cbn [andb]. apply orb_false_r.
Qed.

Lemma Set_add_of_Z (seen : list Z) (x : Z) :
  Forall small seen -> small x ->
  Set_add (map of_Z seen) (of_Z x) = map of_Z (Strategy.Set_add seen x).
Proof.
  intros Hseen Hx. unfold Set_add, Strategy.Set_add.
  assert (existsb (SameValueZero (of_Z x)) (map of_Z seen)
          = existsb (Z.eqb x) seen) as ->.
  { induction Hseen as [|y seen Hy Hseen IH]; [reflexivity|].
    cbn [map existsb]. now rewrite IH, SameValueZero_of_Z. }
  destruct (existsb (Z.eqb x) seen); [reflexivity|].
  now rewrite stored_of_Z, map_app.
Qed.

Lemma Set_add_small (seen : list Z) (x : Z) :
  Forall small seen -> small x -> Forall small (Strategy.Set_add seen x).
Proof.
  intros Hseen Hx. unfold Strategy.Set_add.
  destruct (existsb (Z.eqb x) seen); [assumption|].
  apply Forall_app. split; [assumption | now constructor].
Qed.

Lemma Array_from_Set_of_Z (xs : list Z) :
  Forall small xs ->
  Array_from_Set (map of_Z xs) = map of_Z (Strategy.Array_from_Set xs)
  /\ Forall small (Strategy.Array_from_Set xs).
Proof.
  unfold Array_from_Set, Strategy.Array_from_Set.
  change (@nil PrimFloat.float) with (map of_Z []).
  assert (Forall small []) as Hacc by constructor.
  revert Hacc. generalize (@nil Z) as acc.
  induction xs as [|x xs IH]; intros acc Hacc Hxs; cbn [map fold_left].
  - now split.
  - inversion Hxs as [|? ? Hx Hxs']; subst.
    rewrite Set_add_of_Z by assumption.
    apply IH; [now apply Set_add_small | assumption].
Qed.

Lemma sort_insert_of_Z (x : Z) (sorted : list Z) :
  Forall small sorted -> small x ->
  sort_insert PrimFloat.sub (of_Z x) (map of_Z sorted)
  = map of_Z (Strategy.sort_insert (fun a b => a - b) x sorted)
  /\ Forall small (Strategy.sort_insert (fun a b => a - b) x sorted).
Proof.
  intros Hs Hx. induction Hs as [|y sorted Hy Hs IH];
    cbn [map sort_insert Strategy.sort_insert].
  - split; [reflexivity | now constructor].
  - destruct (@of_Z_spec x Hx) as (Fx & _), (@of_Z_spec y Hy) as (Fy & _).
    rewrite SortCompare_sub, leb_of_Z by assumption.
    replace (y - x <=? 0) with (y <=? x)
      by (destruct (Z.leb_spec y x), (Z.leb_spec (y - x) 0); lia || reflexivity).
    destruct IH as [IH1 IH2].
    destruct (y <=? x).
    + cbn [map]. rewrite IH1. split; [reflexivity | now constructor].
    + split; [reflexivity | now repeat constructor].
Qed.

Lemma Array_sort_of_Z (xs : list Z) :
  Forall small xs ->
  Array_sort PrimFloat.sub (map of_Z xs)
  = map of_Z (Strategy.Array_sort (fun a b => a - b) xs).
Proof.
  unfold Array_sort, Strategy.Array_sort.
  change (@nil PrimFloat.float) with (map of_Z []).
  assert (Forall small []) as Hacc by constructor.
  revert Hacc. generalize (@nil Z) as acc.
  induction xs as [|x xs IH]; intros acc Hacc Hxs; cbn [map fold_left].
  - reflexivity.
  - inversion Hxs as [|? ? Hx Hxs']; subst.
    destruct (@sort_insert_of_Z x acc Hacc Hx) as [-> Hsmall].
    now apply IH.
Qed.

Lemma kept_of_Z (l : list Z) :
  Forall small l ->
  filter (fun bin => Number_isFinite bin && (of_Z 0 <=? bin)%float) (map of_Z l)
  = map of_Z (filter (fun bin => Strategy.Number_isFinite bin && (bin >=? 0)) l).
Proof.
  intros Hl. induction Hl as [|x l Hx Hl IH]; [reflexivity|].
  cbn [map filter]. rewrite IH.
  destruct (@of_Z_spec x Hx) as (Fx & _).
  unfold Number_isFinite, Strategy.Number_isFinite. rewrite Fx.
  rewrite leb_of_Z by (assumption || (unfold small; simpl; lia)).
  cbn [andb]. rewrite Z.geb_leb. now destruct (0 <=? x).
Qed.

Lemma truncated_of_Z (l : list Z) :
  Forall small l ->
  map Math_trunc (map of_Z l) = map of_Z (map Strategy.Math_trunc l).
Proof.
  intros Hl. induction Hl as [|x l Hx Hl IH]; [reflexivity|].
  cbn [map]. now rewrite IH, Math_trunc_of_Z.
Qed.

Lemma coreBins_of_Z (kind : AdvancedKind) (n : Z) :
  Z.abs n + 2 < 2 ^ 53 ->
  coreBins kind (of_Z n) = map of_Z (Strategy.coreBins kind n)
  /\ Forall small (Strategy.coreBins kind n).
Proof.
  intros Hn.
  assert (small 1 /\ small 2) as [H1 H2] by (unfold small; simpl; lia).
  assert (small n) as Hs by (unfold small; lia).
  split.
  - destruct kind; cbn [coreBins Strategy.coreBins map];
      rewrite ?add_of_Z, ?sub_of_Z by (assumption || (unfold small in *; lia));
      reflexivity.
  - destruct kind; cbn [Strategy.coreBins]; repeat constructor;
      unfold small in *; lia.
Qed.

Lemma fallback_of_Z (n : Z) :
  small n ->
  Math_max (of_Z 0) (Math_trunc (of_Z n))
  = of_Z (Z.max 0 (Strategy.Math_trunc n)).
Proof.
  intros Hn. rewrite Math_trunc_of_Z, Math_max_zero by assumption.
  destruct (@of_Z_spec n Hn) as (_ & Nn & _). rewrite is_nan_spec, Nn.
  rewrite ltb_of_Z by (assumption || (unfold small; simpl; lia)).
  unfold Strategy.Math_trunc.
  destruct (Z.ltb_spec 0 n); f_equal; lia.
Qed.

(** X26. For a base index that is an integer below [2^53 - 2] in
    absolute value, [buildAdvancedBins] on the doubles returns the bins
    that the function on the integers returns, [Strategy.buildAdvancedBins]:
    there the sums and differences are exact, every candidate is finite
    and its own integer part, and the set and the sort see the order of
    the integers. *)
Theorem buildAdvancedBins_of_Z (kind : AdvancedKind) (n : Z) :
  Z.abs n + 2 < 2 ^ 53 ->
  buildAdvancedBins kind (of_Z n)
  = map of_Z (Strategy.buildAdvancedBins kind n).
Proof.
  intros Hn.
  assert (small n) as Hs by (unfold small; lia).
  destruct (@coreBins_of_Z kind n Hn) as [Hcore Hsmall].
  unfold buildAdvancedBins, Strategy.buildAdvancedBins. cbv zeta.
  change (fun a b : PrimFloat.float => (a - b)%float) with PrimFloat.sub.
  unfold sanitized, Strategy.sanitized.
  rewrite Hcore, kept_of_Z by assumption.
  set (kept := filter (fun bin => Strategy.Number_isFinite bin && (bin >=? 0))
                 (Strategy.coreBins kind n)).
  assert (Forall small kept) as Hkept.
  { apply Forall_forall. intros x Hx. apply filter_In in Hx as [Hx _].
    rewrite Forall_forall in Hsmall. now apply Hsmall. }
  rewrite truncated_of_Z by assumption.
  assert (Forall small (map Strategy.Math_trunc kept)) as Htrunc
    by (unfold Strategy.Math_trunc; now rewrite map_id).
  destruct (@Array_from_Set_of_Z _ Htrunc) as [-> Hunique].
  rewrite length_map.
  destruct (List.length (Strategy.Array_from_Set (map Strategy.Math_trunc kept)) =? 0)%nat.
  - rewrite fallback_of_Z by assumption.
    change [of_Z (Z.max 0 (Strategy.Math_trunc n))]
      with (map of_Z [Z.max 0 (Strategy.Math_trunc n)]).
    rewrite <- map_app. apply Array_sort_of_Z.
    apply Forall_app. split; [assumption|].
    repeat constructor. unfold Strategy.Math_trunc, small in *. lia.
  - now apply Array_sort_of_Z.
Qed.

Lemma buildAdvancedBins_of_Z_witness :
  buildAdvancedBins limitBuy (of_Z 1)
  = map of_Z (Strategy.buildAdvancedBins limitBuy 1).
Proof.
  apply (@buildAdvancedBins_of_Z limitBuy 1). reflexivity.
Defined.

(** At [2^53] the two functions part: the integers have three bins, the
    doubles two. *)
Example buildAdvancedBins_beyond_exact :
  List.length (Strategy.buildAdvancedBins limitSell (2 ^ 53)) = 3%nat
  /\ List.length (buildAdvancedBins limitSell (of_Z (2 ^ 53))) = 2%nat.
Proof. split; vm_compute; reflexivity. Qed.

(** ** [Math.round] *)

Lemma rounded_range (s : bool) (m : positive) (e : Z) :
  Z.pos m < 2 ^ 53 -> e < 0 ->
  0 <= (if s then (2 * Z.pos m + 2 ^ (- e) - 1) / 2 ^ (1 - e)
        else (2 * Z.pos m + 2 ^ (- e)) / 2 ^ (1 - e)) < 2 ^ 53.
Proof.
  intros Hm He.
  assert (2 <= 2 ^ (- e)) as Hk.
  { change 2 with (2 ^ 1) at 1. apply Z.pow_le_mono_r; lia. }
  assert (2 ^ (1 - e) = 2 * 2 ^ (- e)) as ->.
  { replace (1 - e) with (Z.succ (- e)) by lia. apply Z.pow_succ_r. lia. }
  destruct s; (split; [apply Z.div_pos; lia|]);
    apply Z.div_lt_upper_bound; nia.
Qed.

Lemma Math_round_cases (x : PrimFloat.float) :
  Math_round x = x
  \/ exists s n, 0 <= n < 2 ^ 53 /\ is_number (Prim2SF x) = true
                 /\ Math_round x = SF2Prim (of_integer s n).
Proof.
  unfold Math_round. pose proof (Prim2SF_valid x) as V.
  destruct (Prim2SF x) as [s | s | | s m e] eqn:E; try now left.
  destruct (Z.leb_spec 0 e) as [He | He]; [now left | right].
  apply valid_finite in V as (_ & Hm & _).
  eexists s, _. split; [exact (rounded_range s Hm He)|]. split; reflexivity.
Qed.

(** The rounding of a finite number is a finite integer. *)
Lemma Math_round_finite (x : PrimFloat.float) :
  PrimFloat.is_finite x = true -> PrimFloat.is_finite (Math_round x) = true.
Proof.
  intros Fx. destruct (Math_round_cases x) as [H | (s & n & Hn & _ & H)];
    rewrite H; [assumption|].
  rewrite is_finite_spec, Prim2SF_of_integer by assumption.
  now apply of_integer_spec.
Qed.

(** ** The sign of a product *)

Lemma digits2_product (m1 m2 : positive) :
  Z.pos (digits2_pos m1) + Z.pos (digits2_pos m2) - 1
  <= Z.pos (digits2_pos (m1 * m2)).
Proof.
  pose proof (digits2_pos_bounds m1) as [L1 _].
  pose proof (digits2_pos_bounds m2) as [L2 _].
  pose proof (digits2_pos_bounds (m1 * m2)) as [_ H].
  set (d1 := Z.pos (digits2_pos m1)) in *. set (d2 := Z.pos (digits2_pos m2)) in *.
  set (d := Z.pos (digits2_pos (m1 * m2))) in *.
  assert (0 < d1 /\ 0 < d2 /\ 0 < d) as (P1 & P2 & P) by (unfold d1, d2, d; lia).
  assert (d1 - 1 + (d2 - 1) < d); [|lia].
  apply (Z.pow_lt_mono_r_iff 2); [lia | lia |].
  rewrite Z.pow_add_r by lia. rewrite Pos2Z.inj_mul in H.
  assert (0 < 2 ^ (d1 - 1)) by (apply Z.pow_pos_nonneg; lia).
  assert (0 < 2 ^ (d2 - 1)) by (apply Z.pow_pos_nonneg; lia).
  nia.
Qed.

(** A price above 0 times 100 is a number above 0 or [Infinity]. *)
Lemma price_scaled (price : PrimFloat.float) :
  (of_Z 0 <? price)%float = true ->
  PrimFloat.is_finite (price * of_Z 100) = false ->
  (price * of_Z 100)%float = infinity.
Proof.
  intros Hpos Hinf.
  apply ltb_key in Hpos as (_ & Np & Kp).
  change (key (Prim2SF (of_Z 0))) with 0 in Kp.
  rewrite is_finite_spec in Hinf. rewrite <- (SF2Prim_Prim2SF (price * of_Z 100)).
  change infinity with (SF2Prim (S754_infinity false)). f_equal.
  rewrite mul_spec in *.
  change (Prim2SF (of_Z 100)) with (S754_finite false 7036874417766400 (-46)) in *.
  pose proof (Prim2SF_valid price) as V.
  destruct (Prim2SF price) as [s | s | | s m e]; cbn [key] in Kp;
    [lia | | discriminate |].
  - destruct s; [unfold infinite_key in Kp; lia | reflexivity].
  - pose proof (scaled_pos s _ _ V) as Hs.
    destruct s; [lia|]. cbn [SF64mul SFmul xorb] in *.
    apply valid_finite in V as (He & _ & _).
    pose proof (digits2_product m 7036874417766400) as Hd.
    change (Z.pos (digits2_pos 7036874417766400)) with 53 in Hd.
    assert (0 < Z.pos (digits2_pos m)) by lia.
    pose proof (@binary_round_aux_signed false (m * 7036874417766400) (e + -46)
                  loc_Exact ltac:(lia)) as Hsig.
    destruct (binary_round_aux prec emax false
                (Z.pos (m * 7036874417766400)) (e + -46) loc_Exact)
      as [? | s' | | s' m' e']; cbn in Hsig; try contradiction; try discriminate.
    now subst s'.
Qed.

(** ** The plan of an advanced order *)

Lemma fallback_isInteger (baseIndex : PrimFloat.float) :
  PrimFloat.is_finite baseIndex = true ->
  Number_isInteger (Math_max (of_Z 0) (Math_trunc baseIndex)) = true.
Proof.
  intros Fb. rewrite Math_max_zero.
  assert (PrimFloat.is_nan (Math_trunc baseIndex) = false) as ->.
  { rewrite Math_trunc_nan, is_nan_spec. now apply finite_not_nan. }
  destruct (of_Z 0 <? Math_trunc baseIndex)%float;
    [now apply Math_trunc_isInteger | reflexivity].
Qed.

(** For a finite base index every bin is an integer. *)
Lemma buildAdvancedBins_integers (kind : AdvancedKind) (baseIndex : PrimFloat.float) :
  PrimFloat.is_finite baseIndex = true ->
  forallb Number_isInteger (buildAdvancedBins kind baseIndex) = true.
Proof.
  intros Fb.
  destruct (buildAdvancedBins_cases kind baseIndex) as [-> | (_ & _ & _ & Hb)].
  - cbn [forallb]. now rewrite fallback_isInteger.
  - apply forallb_forall. rewrite Forall_forall in Hb.
    intros bin Hin. now apply Hb.
Qed.

Section PlanProofs.

Variable World : Type.
Variable Thrown : Type.
Variable mapError : Thrown -> DomainError * option string.
Variable Metadata : Type.
Variable fetchPoolMetadata : string -> World -> (Thrown + Metadata) * World.
Variable priceIssues : string -> PrimFloat.float -> string.
Variable schemaMessage : string.

(** X21. [POST /orders/advanced/plan] over the gateway in mock mode, for
    a body that passes its schema.  The gateway's own validation accepts
    the price, and the bin is [Math.round(targetPrice * 100)].  When
    [targetPrice * 100] is finite the route sends the plan of that bin,
    whose bins are integers; when it is not, for a price above about
    [1.8e306], it is [Infinity], the only bin is [Infinity], the response
    fails its schema and no plan is sent.  The state of the gateway is as
    before. *)
Theorem mock_advanced_plan_finite_price (body : AdvancedPlanReq) (w : World) :
  AdvancedPlanReq_schema body = true ->
  let hundredfold := (adv_targetPrice body * of_Z 100)%float in
  let bins := buildAdvancedBins (adv_kind body) (Math_round hundredfold) in
  advanced_plan true mapError fetchPoolMetadata priceIssues schemaMessage body w
  = (if PrimFloat.is_finite hundredfold
     then PlanSent bins (singleSidedForKind (adv_kind body))
            (noteForKind (adv_kind body))
     else PlanThrows, w)
  /\ (PrimFloat.is_finite hundredfold = true ->
      forallb Number_isInteger bins = true)
  /\ (PrimFloat.is_finite hundredfold = false ->
      hundredfold = infinity /\ bins = [infinity]).
Proof.
  intros Hschema. cbv zeta.
  unfold advanced_plan, priceToBinIndex. rewrite Hschema. cbn [negb].
  unfold AdvancedPlanReq_schema in Hschema.
  apply andb_prop in Hschema as [Hschema Hprice].
  apply andb_prop in Hschema as [_ Hpool].
  unfold Gateway.priceRequestSchema, Gateway.poolIdSchema.
  rewrite Hpool, Hprice. cbn [andb negb].
  assert (PrimFloat.is_finite (adv_targetPrice body * of_Z 100) = false ->
          (adv_targetPrice body * of_Z 100)%float = infinity
          /\ buildAdvancedBins (adv_kind body)
               (Math_round (adv_targetPrice body * of_Z 100)) = [infinity])
    as Hinf.
  { intros Hinf. rewrite (@price_scaled _ Hprice Hinf).
    split; [reflexivity|]. now destruct (adv_kind body). }
  split; [|split; [|exact Hinf]].
  - unfold AdvancedPlanResp_schema.
    destruct (PrimFloat.is_finite (adv_targetPrice body * of_Z 100)) eqn:F.
    + now rewrite buildAdvancedBins_integers by now apply Math_round_finite.
    + destruct (Hinf eq_refl) as [_ ->]. reflexivity.
  - intros F. apply buildAdvancedBins_integers. now apply Math_round_finite.
Qed.

End PlanProofs.

Lemma mock_advanced_plan_finite_price_witness :
  let body := Samples.sell None in
  let hundredfold := (adv_targetPrice body * of_Z 100)%float in
  let bins := buildAdvancedBins (adv_kind body) (Math_round hundredfold) in
  advanced_plan true Samples.mapError Samples.fetchPoolMetadata
    Samples.priceIssues "schema" body tt
  = (if PrimFloat.is_finite hundredfold
     then PlanSent bins (singleSidedForKind (adv_kind body))
            (noteForKind (adv_kind body))
     else PlanThrows, tt)
  /\ (PrimFloat.is_finite hundredfold = true ->
      forallb Number_isInteger bins = true)
  /\ (PrimFloat.is_finite hundredfold = false ->
      hundredfold = infinity /\ bins = [infinity]).
Proof.
  apply (@mock_advanced_plan_finite_price unit string Samples.mapError unit
           Samples.fetchPoolMetadata Samples.priceIssues "schema"
           (Samples.sell None) tt).
  vm_compute. reflexivity.
Defined.

(** At the price [1e308], which passes the schema of the request,
    [targetPrice * 100] is [Infinity] and the route sends no plan; at the
    mid price of the mock mode it sends three bins. *)
Example mock_advanced_plan_samples :
  AdvancedPlanReq_schema dear = true
  /\ advanced_plan true Samples.mapError Samples.fetchPoolMetadata
       Samples.priceIssues "schema" dear tt = (PlanThrows, tt)
  /\ exists b0 b1 b2,
       advanced_plan true Samples.mapError Samples.fetchPoolMetadata
         Samples.priceIssues "schema" (Samples.sell None) tt
       = (PlanSent [b0; b1; b2] base (noteForKind limitSell), tt).
Proof.
  split; [vm_compute; reflexivity|].
  split; [vm_compute; reflexivity|].
  eexists _, _, _. vm_compute. reflexivity.
Qed.

End AdvancedOrdersProofs.

(* ================================================================== *)
(** * Properties of the analytics page *)
(* ================================================================== *)

Module AnalyticsProofs.
Import Analytics.

Section Simulator.

Context {num : Type} `{JsNumber num}.

Implicit Types (s : BacktestState (num := num)) (row : CandleRow (num := num)).

(** ** The loop *)

Lemma backtest_step_skip (ratio cooldownSec : num) s row :
  row_isFinite row = false -> backtest_step ratio cooldownSec s row = s.
Proof. unfold backtest_step. now intros ->. Qed.

(** A candle adds one exit or none. *)
Lemma backtest_step_exits (ratio cooldownSec : num) s row :
  st_exits (backtest_step ratio cooldownSec s row) =
  if row_isFinite row && canExit cooldownSec s row
     && (hitUpper s row || hitLower s row)
  then (st_exits s + 1)%nat else st_exits s.
Proof.
  unfold backtest_step.
  destruct (row_isFinite row); simpl; [|reflexivity].
  destruct (canExit cooldownSec s row && (hitUpper s row || hitLower s row));
    reflexivity.
Qed.

Lemma backtest_step_compounding (ratio cooldownSec : num) s row :
  compounding s -> compounding (backtest_step ratio cooldownSec s row).
Proof.
  unfold compounding, backtest_step. intros Hs.
  destruct (row_isFinite row); simpl; [|assumption].
  destruct (canExit cooldownSec s row && (hitUpper s row || hitLower s row));
    simpl; [|assumption].
  rewrite Hs, Nat.add_1_r. reflexivity.
Qed.

Lemma fold_backtest_step_compounding (ratio cooldownSec : num)
    (rows : list CandleRow) s :
  compounding s ->
  compounding (fold_left (backtest_step ratio cooldownSec) rows s).
Proof.
  revert s. induction rows as [|row rows IH]; intros s Hs; simpl.
  - assumption.
  - apply IH, backtest_step_compounding, Hs.
Qed.

Lemma backtest_loop_compounding (rows : list CandleRow) (bandBps cooldownSec : num) :
  compounding (backtest_loop rows bandBps cooldownSec).
Proof.
  unfold backtest_loop. apply fold_backtest_step_compounding. reflexivity.
Qed.


(** C4, as the code has it.  Of two consecutive candles, the first with
    finite fields, breaching the band and not held back by the cooldown,
    the second less than [cooldownSec] seconds after the first, exactly
    one counts as an exit, whatever the second candle's prices. *)
Theorem cooldown_allows_one_exit `{!JsOrder num}
    (ratio cooldownSec : num) s (first second : CandleRow) :
  row_isFinite first = true ->
  canExit cooldownSec s first = true ->
  hitUpper s first || hitLower s first = true ->
  (row_t second <? row_t first + cooldownSec * num_of_Z 1000)%js = true ->
  st_exits (backtest_step ratio cooldownSec
              (backtest_step ratio cooldownSec s first) second)
  = (st_exits s + 1)%nat.
Proof.
  intros Hfinite Hcan Hhit Hsoon.
  rewrite (backtest_step_exits ratio cooldownSec _ second).
  assert (canExit cooldownSec (backtest_step ratio cooldownSec s first) second
          = false) as ->.
  { unfold canExit, backtest_step. rewrite Hfinite, Hcan, Hhit. simpl.
    now apply num_ltb_not_leb. }
  rewrite andb_false_r. simpl.
  rewrite backtest_step_exits, Hfinite, Hcan, Hhit. reflexivity.
Qed.

(** ** Order of the equity series *)

Lemma StronglySorted_snoc {A : Type} (R : A -> A -> Prop) (l : list A) (x : A) :
  StronglySorted R l -> Forall (fun y => R y x) l ->
  StronglySorted R (l ++ [x]).
Proof.
  induction 1 as [|a l Hs IH Ha]; intros Hx; simpl.
  - repeat constructor.
  - inversion Hx; subst. constructor; [now apply IH|].
    apply Forall_app. split; [assumption|]. now repeat constructor.
Qed.

Section Order.

Context `{!JsOrder num} `{!JsRounding num} `{!JsCompounding num}.

#[local] Abbreviation zero := (num_of_Z 0).
#[local] Abbreviation one := (num_of_Z 1).

Lemma one_nonneg (e : num) : (one <=? e)%js = true -> (zero <=? e)%js = true.
Proof. apply num_leb_trans, num_zero_leb_one. Qed.

Lemma toFixed_ge_one (e : num) :
  (one <=? e)%js = true -> (one <=? num_toFixed e 6)%js = true.
Proof.
  intros He. rewrite <- (num_toFixed_one (num := num) (d := 6)) at 1 by lia.
  apply num_toFixed_mono; [lia | apply num_zero_leb_one | assumption].
Qed.

Lemma toFixed_nonneg (x : num) :
  (zero <=? x)%js = true -> (zero <=? num_toFixed x 4)%js = true.
Proof.
  intros Hx. rewrite <- (num_toFixed_zero (num := num) (d := 4)) at 1 by lia.
  apply num_toFixed_mono; [lia | | assumption].
  apply (num_leb_refl _ _ (num_zero_leb_one (num := num))).
Qed.

(** The accumulator of a state that counts its exits is at least 1. *)
Lemma compounding_ge_one s : compounding s -> (one <=? st_equity s)%js = true.
Proof. intros ->. apply compounded_ge_one. Qed.

Lemma exit_update_ordered (ratio : num) s row :
  ordered s -> ordered (exit_update ratio s row).
Proof.
  intros [Hc Hs Hlow Hhigh].
  assert ((st_equity s <=? compound_step (st_equity s))%js = true) as Hstep.
  { rewrite Hc. apply (compounded_step (num := num)). }
  constructor; simpl; fold (compound_step (st_equity s)).
  - unfold compounding. simpl. fold (compound_step (st_equity s)).
    rewrite Hc, Nat.add_1_r. reflexivity.
  - assumption.
  - assumption.
  - eapply Forall_impl; [|exact Hhigh].
    intros p Hp. simpl in Hp.
    eapply num_leb_trans; [exact Hp|].
    apply num_toFixed_mono; [lia | | assumption].
    now apply one_nonneg, compounding_ge_one.
Qed.

Lemma push_point_ordered s row : ordered s -> ordered (push_point s row).
Proof.
  intros [Hc Hs Hlow Hhigh].
  pose proof (compounding_ge_one Hc) as He.
  assert ((num_toFixed (st_equity s) 6 <=? num_toFixed (st_equity s) 6)%js = true)
    as Hrefl.
  { apply num_toFixed_mono; [lia | now apply one_nonneg |].
    now apply (num_leb_refl _ _ He). }
  constructor; simpl.
  - assumption.
  - apply StronglySorted_snoc; assumption.
  - apply Forall_app. split; [assumption|].
    repeat constructor. simpl. now apply toFixed_ge_one.
  - apply Forall_app. split; [assumption|].
    repeat constructor. exact Hrefl.
Qed.

Lemma backtest_step_ordered (ratio cooldownSec : num) s row :
  ordered s -> ordered (backtest_step ratio cooldownSec s row).
Proof.
  intros Hs. unfold backtest_step.
  destruct (row_isFinite row); simpl; [|assumption].
  apply push_point_ordered.
  destruct (canExit cooldownSec s row && (hitUpper s row || hitLower s row));
    [now apply exit_update_ordered | assumption].
Qed.

Lemma backtest_loop_ordered (rows : list CandleRow) (bandBps cooldownSec : num) :
  ordered (backtest_loop rows bandBps cooldownSec).
Proof.
  unfold backtest_loop.
  set (ratio := (bandBps / num_of_Z 10000)%js).
  assert (ordered (backtest_init ratio rows)) as Hinit.
  { constructor; simpl; constructor. }
  generalize dependent (backtest_init ratio rows).
  induction rows as [|row rows IH]; intros s Hs; simpl.
  - assumption.
  - apply IH, backtest_step_ordered, Hs.
Qed.

End Order.

(** Where arithmetic does not round, the accumulator has these
    properties by the laws of the order and of arithmetic. *)
Section Unrounded.

Context `{!JsOrder num} `{!JsArith num}.

Lemma FEE_PER_EXIT_pos :
  (num_of_Z 0 <? FEE_PER_EXIT)%js = true
  /\ num_isFinite (FEE_PER_EXIT (num := num)) = true.
Proof. apply (num_div_pos (num := num)); lia. Qed.

(** An exit does not lower an accumulator that is at least 1. *)
Lemma compound_step_le (e : num) :
  (num_of_Z 1 <=? e)%js = true -> (e <=? compound_step e)%js = true.
Proof.
  intros He. unfold compound_step.
  destruct FEE_PER_EXIT_pos as [Hpos Hfin].
  assert ((num_of_Z 0 <=? e)%js = true) as He0
    by (eapply num_leb_trans; [apply num_zero_leb_one | exact He]).
  apply num_add_nonneg; [assumption|].
  apply num_mul_nonneg; assumption.
Qed.

Lemma unrounded_compounding : JsCompounding num.
Proof.
  assert (forall n : nat, (num_of_Z 1 <=? compounded n)%js = true) as Hone.
  { induction n as [|n IH].
    - apply num_of_Z_leb. lia.
    - eapply num_leb_trans; [exact IH|]. now apply compound_step_le. }
  constructor.
  - exact Hone.
  - intros n. apply compound_step_le, Hone.
  - intros n. apply num_mul_nonneg.
    + apply num_sub_nonneg; [apply Hone|].
      apply num_of_Z_isFinite. simpl. lia.
    + apply num_of_Z_ltb; simpl; lia.
    + apply num_of_Z_isFinite. simpl. lia.
Qed.

End Unrounded.

(** C8, as the code has it.  [toMillis] keeps a timestamp above [10^12]
    and multiplies by 1000 one that is at most [10^12]; [10^12] itself is
    multiplied. *)
Theorem toMillis_threshold `{!JsOrder num} (v : num) :
  ((num_of_Z 1000000000000 <? v)%js = true -> toMillis v = v)
  /\ ((v <=? num_of_Z 1000000000000)%js = true ->
      toMillis v = (v * num_of_Z 1000)%js)
  /\ toMillis (num_of_Z 1000000000000)
     = (num_of_Z 1000000000000 * num_of_Z 1000)%js.
Proof.
  unfold toMillis. repeat split.
  - now intros ->.
  - intros Hle. now rewrite (num_leb_not_ltb _ _ Hle).
  - now rewrite num_ltb_irrefl.
Qed.

End Simulator.

(** ** CSV upload *)

Section Upload.

Context {num : Type} `{JsNumber num}.
Variable Number_of_string : string -> num.

#[local] Abbreviation toNumber := (toNumber Number_of_string).
#[local] Abbreviation parse_row := (parse_row Number_of_string).
#[local] Abbreviation parse_rows := (parse_rows Number_of_string).
#[local] Abbreviation malformed_row := (malformed_row Number_of_string).
#[local] Abbreviation csv_complete := (csv_complete Number_of_string).

Lemma parse_row_malformed (index : nat) (row : option CsvRow) :
  malformed_row row = true ->
  parse_row index row = inl (row_message index row).
Proof.
  destruct row as [row|]; [|reflexivity].
  unfold Analytics.malformed_row, Analytics.parse_row, is_numeric. simpl.
  destruct (toNumber (csv_timestamp row)), (toNumber (csv_open row)),
    (toNumber (csv_high row)), (toNumber (csv_low row)),
    (toNumber (csv_close row)); simpl; congruence.
Qed.

Lemma parse_row_well_formed (index : nat) (row : option CsvRow) :
  malformed_row row = false ->
  exists candle, parse_row index row = inr candle.
Proof.
  destruct row as [row|]; [|discriminate].
  unfold Analytics.malformed_row, Analytics.parse_row, is_numeric. simpl.
  destruct (toNumber (csv_timestamp row)), (toNumber (csv_open row)),
    (toNumber (csv_high row)), (toNumber (csv_low row)),
    (toNumber (csv_close row)); simpl; try discriminate.
  intros _. eexists. reflexivity.
Qed.

(** The loop ends early at the first malformed row, with its message. *)
Lemma parse_rows_first_malformed
    (good : list (option CsvRow)) (bad : option CsvRow)
    (rest : list (option CsvRow)) (index : nat) (parsed : list CandleRow) :
  forallb (fun row => negb (malformed_row row)) good = true ->
  malformed_row bad = true ->
  parse_rows index (good ++ bad :: rest)%list parsed
  = inl (row_message (index + List.length good) bad).
Proof.
  revert index parsed. induction good as [|row good IH];
    intros index parsed Hgood Hbad; simpl.
  - rewrite (parse_row_malformed _ _ Hbad), Nat.add_0_r. reflexivity.
  - simpl in Hgood. apply andb_true_iff in Hgood as [Hrow Hgood].
    apply negb_true_iff in Hrow.
    destruct (parse_row_well_formed index _ Hrow) as [candle ->].
    rewrite IH by assumption. f_equal. f_equal. lia.
Qed.

Lemma existsb_split {A : Type} (f : A -> bool) (l : list A) :
  existsb f l = true ->
  exists good bad rest,
    l = (good ++ bad :: rest)%list
    /\ forallb (fun x => negb (f x)) good = true /\ f bad = true.
Proof.
  induction l as [|x l IH]; simpl; [discriminate|].
  destruct (f x) eqn:Hx.
  - intros _. exists [], x, l. repeat split. assumption.
  - intros Hl. destruct (IH Hl) as (good & bad & rest & -> & Hgood & Hbad).
    exists (x :: good), bad, rest. repeat split; [|assumption].
    simpl. now rewrite Hx.
Qed.

(** When the loop runs to its end, it has pushed one candle per row. *)
Lemma parse_rows_length (data : list (option CsvRow)) (index : nat)
    (parsed all : list CandleRow) :
  parse_rows index data parsed = inr all ->
  List.length all = (List.length parsed + List.length data)%nat.
Proof.
  revert index parsed. induction data as [|row data IH];
    intros index parsed; simpl.
  - intros [= <-]. lia.
  - destruct (parse_row index row) as [message | candle]; [discriminate|].
    intros Hall. apply IH in Hall. rewrite length_app in Hall. simpl in Hall.
    lia.
Qed.

Lemma missingHeaders_nil (results : ParseResult (num := num)) :
  missingHeaders (match res_fields results with Some f => f | None => [] end)
  = [] <-> header_incomplete results = false.
Proof.
  unfold missingHeaders, header_incomplete.
  induction REQUIRED_HEADERS as [|header headers IH]; simpl.
  - tauto.
  - destruct (negb (existsb _ _)); simpl; [|exact IH].
    split; discriminate.
Qed.

(** C7. The upload is all or nothing.  When a required column is
    missing from the header, the file is rejected whatever its rows are,
    before the loop that builds candles.  When some row is empty or has a
    required field that is missing or not numeric, the file is rejected
    and no candle is kept.  The candles kept are either none or one for
    every row, never a part of the rows.  And when the parser reported no
    error and the header is complete, the message names the first
    malformed row by its line in the file. *)
Theorem csv_complete_atomic (fileName : string) (results : ParseResult) :
  (header_incomplete results = true ->
     forall data,
       csv_complete fileName (with_data results data)
       = csv_complete fileName results
       /\ out_backtestRows (csv_complete fileName (with_data results data)) = []
       /\ is_error (out_toast (csv_complete fileName (with_data results data)))
          = true)
  /\ (existsb malformed_row (res_data results) = true ->
      out_backtestRows (csv_complete fileName results) = []
      /\ is_error (out_toast (csv_complete fileName results)) = true)
  /\ (out_backtestRows (csv_complete fileName results) = []
      \/ List.length (out_backtestRows (csv_complete fileName results))
         = List.length (res_data results))
  /\ (forall good bad rest,
        res_errors results = [] ->
        header_incomplete results = false ->
        res_data results = (good ++ bad :: rest)%list ->
        forallb (fun row => negb (malformed_row row)) good = true ->
        malformed_row bad = true ->
        out_toast (csv_complete fileName results)
        = toast_error (row_message (List.length good) bad)).
Proof.
  unfold Analytics.csv_complete.
  split; [|split; [|split]].
  - intros Hheader data. simpl.
    destruct (res_errors results); [|repeat split; reflexivity].
    apply not_false_iff_true in Hheader.
    rewrite <- missingHeaders_nil in Hheader.
    destruct (missingHeaders _); [contradiction | repeat split; reflexivity].
  - intros Hrows.
    destruct (res_errors results); [|split; reflexivity].
    destruct (missingHeaders _); [|split; reflexivity].
    apply existsb_split in Hrows as (good & bad & rest & -> & Hgood & Hbad).
    rewrite parse_rows_first_malformed by assumption. split; reflexivity.
  - destruct (res_errors results); [|now left].
    destruct (missingHeaders _); [|now left].
    destruct (parse_rows 0 (res_data results) []) as [message | parsed] eqn:E;
      [now left|].
    apply parse_rows_length in E. destruct parsed; [now left|].
    right. simpl in *. lia.
  - intros good bad rest -> Hheader -> Hgood Hbad.
    apply missingHeaders_nil in Hheader. rewrite Hheader.
    rewrite parse_rows_first_malformed by assumption. reflexivity.
Qed.

End Upload.

(** ** The properties at the test candles *)

Import Floats.
Import Exact.
Import Float64.
Import Float64Laws.
Import ExactLaws.

(** Two doubles with different representations are different. *)
Ltac float_neq :=
  let E := fresh "E" in
  intros E; apply (f_equal Prim2SF) in E; vm_compute in E; discriminate E.

(** The example of the specification: with no cooldown both candles are
    exits, with a cooldown of 900 seconds only the first is. *)
Example runBacktest_two_candles :
  exits (runBacktest [Candles.first; Candles.second] Candles.bandBps (of_Z 0)) = 2%nat
  /\ exits (runBacktest [Candles.first; Candles.second] Candles.bandBps
              Candles.cooldownSec) = 1%nat
  /\ finalEquity (runBacktest [Candles.first; Candles.second] Candles.bandBps
                    Candles.cooldownSec) = Candles.dec 10002 10000.
Proof. vm_compute. repeat split. Qed.

(** C4, as stated, fails: after an exit at the first candle, the second
    and the third both breach the band and are 1 second apart, within
    the cooldown of 900 seconds, and neither counts as an exit. *)
Lemma cooldown_pair_counterexample :
  let s := backtest_loop [Candles.first] Candles.bandBps Candles.cooldownSec in
  let s1 := backtest_step Candles.ratio Candles.cooldownSec s Candles.second in
  let s2 := backtest_step Candles.ratio Candles.cooldownSec s1 Candles.third in
  backtest_loop [Candles.first; Candles.second; Candles.third]
    Candles.bandBps Candles.cooldownSec = s2
  /\ hitUpper s Candles.second = true
  /\ hitUpper s1 Candles.third = true
  /\ (row_t Candles.third
      <? row_t Candles.second + Candles.cooldownSec * of_Z 1000)%float = true
  /\ st_exits s2 = st_exits s
  /\ st_exits s2 <> (st_exits s + 1)%nat.
Proof. vm_compute. repeat split. discriminate. Qed.

Lemma cooldown_allows_one_exit_witness :
  st_exits
    (backtest_step Candles.ratio Candles.cooldownSec
       (backtest_step Candles.ratio Candles.cooldownSec
          (backtest_init Candles.ratio [Candles.first; Candles.second])
          Candles.first)
       Candles.second)
  = (st_exits (backtest_init Candles.ratio [Candles.first; Candles.second]) + 1)%nat.
Proof.
  apply (@cooldown_allows_one_exit PrimFloat.float _ float_JsOrder);
    vm_compute; reflexivity.
Defined.



(** In exact arithmetic the accumulator after [n] exits is
    [(1 + FEE_PER_EXIT)^n], that is [(5001/5000)^n]. *)
Lemma exact_compounded_power (n : nat) :
  compounded (num := xnum) n = fee_power n
  /\ compounded (num := xnum) n = XFin (Qred ((5001 # 5000) ^ Z.of_nat n)).
Proof.
  assert (compounded (num := xnum) n = fee_power n) as E.
  { induction n as [|n IH]; [reflexivity|].
    change (compounded (num := xnum) (S n))
      with (compound_step (compounded (num := xnum) n)).
    change (fee_power (num := xnum) (S n))
      with ((num_of_Z 1 + FEE_PER_EXIT) * fee_power (num := xnum) n)%js.
    rewrite <- IH. unfold compound_step.
    apply (num_add_share (num := xnum)). vm_compute. reflexivity. }
  split; [exact E|]. rewrite E. clear E.
  induction n as [|n IH]; [reflexivity|].
  change (fee_power (num := xnum) (S n))
    with ((num_of_Z 1 + FEE_PER_EXIT) * fee_power (num := xnum) n)%js.
  rewrite IH.
  assert ((num_of_Z 1 + FEE_PER_EXIT)%js = XFin (5001 # 5000)) as ->
    by (vm_compute; reflexivity).
  cbn [num_mul xnum_JsNumber xmul]. f_equal. apply Qred_complete.
  rewrite Qred_correct, Nat2Z.inj_succ, <- Z.add_1_l.
  rewrite Qpower_plus by discriminate. reflexivity.
Qed.

(** In binary64 the accumulator at the end of every run has passed the
    check of the scan. *)
Lemma runBacktest_accumulator_ok
    (rows : list CandleRow) (bandBps cooldownSec : PrimFloat.float) :
  Accumulator.accumulator_ok
    (st_equity (backtest_loop rows bandBps cooldownSec)) = true.
Proof.
  rewrite (backtest_loop_compounding rows bandBps cooldownSec).
  apply accumulator_ok_compounded.
Qed.

(** C8, as stated, fails: [10^12] is not below [10^12], and it is
    multiplied by 1000 all the same. *)
Lemma toMillis_boundary_counterexample :
  (of_Z 1000000000000 <? of_Z 1000000000000)%float = false
  /\ toMillis (of_Z 1000000000000) = of_Z 1000000000000000
  /\ toMillis (of_Z 1000000000000) <> of_Z 1000000000000.
Proof.
  split; [vm_compute; reflexivity|]. split; [vm_compute; reflexivity|].
  float_neq.
Qed.

Lemma toMillis_threshold_witness :
  ((of_Z 1000000000000 <? of_Z 1700000000)%float = true ->
   toMillis (of_Z 1700000000) = of_Z 1700000000)
  /\ ((of_Z 1700000000 <=? of_Z 1000000000000)%float = true ->
      toMillis (of_Z 1700000000) = (of_Z 1700000000 * of_Z 1000)%float)
  /\ toMillis (of_Z 1000000000000)
     = (of_Z 1000000000000 * of_Z 1000)%float.
Proof.
  exact (@toMillis_threshold PrimFloat.float _ float_JsOrder (of_Z 1700000000)).
Defined.

(** C10. In every result of [runBacktest] the equity series never
    decreases in input order, every equity it records is at least 1, and
    [totalFeesPct] and [finalEquity] are not negative: the accumulator
    starts at 1, an exit, the only update, does not lower it, and rounding
    to 6 decimals keeps the order.  This is of the binary64 numbers of the
    runtime, for every list of candles and every band width and cooldown,
    NaN and the infinities among them. *)
Theorem runBacktest_equity_nondecreasing
    (rows : list CandleRow) (bandBps cooldownSec : PrimFloat.float) :
  let r := runBacktest rows bandBps cooldownSec in
  StronglySorted point_le (equitySeries r)
  /\ Sorted point_le (equitySeries r)
  /\ Forall (fun p => (1 <=? point_equity p)%float = true) (equitySeries r)
  /\ (0 <=? totalFeesPct r)%float = true
  /\ (0 <=? finalEquity r)%float = true.
Proof.
  destruct (backtest_loop_ordered rows bandBps cooldownSec)
    as [Hc Hs Hlow Hhigh].
  pose proof (compounding_ge_one Hc) as He.
  cbv zeta. unfold runBacktest. cbn [equitySeries totalFeesPct finalEquity].
  set (e := st_equity (backtest_loop rows bandBps cooldownSec)) in *.
  change 0%float with (num_of_Z (num := PrimFloat.float) 0).
  change 1%float with (num_of_Z (num := PrimFloat.float) 1).
  change PrimFloat.leb with (num_leb (num := PrimFloat.float)).
  split; [assumption|]. split; [now apply StronglySorted_Sorted|].
  split; [assumption|]. split.
  - apply (toFixed_nonneg (num := PrimFloat.float)).
    destruct (num_of_Z 0 <? e)%js.
    + unfold e. rewrite Hc. apply (compounded_fees (num := PrimFloat.float)).
    + reflexivity.
  - apply (one_nonneg (num := PrimFloat.float)). now apply toFixed_ge_one.
Qed.

(** The same in exact arithmetic. *)
Lemma runBacktest_ordered_exact
    (rows : list CandleRow) (bandBps cooldownSec : xnum) :
  let r := runBacktest rows bandBps cooldownSec in
  StronglySorted point_le (equitySeries r)
  /\ Sorted point_le (equitySeries r)
  /\ Forall (fun p => (num_of_Z 1 <=? point_equity p)%js = true) (equitySeries r)
  /\ (num_of_Z 0 <=? totalFeesPct r)%js = true
  /\ (num_of_Z 0 <=? finalEquity r)%js = true.
Proof.
  pose proof (unrounded_compounding (num := xnum)) as Hlaws.
  destruct (backtest_loop_ordered rows bandBps cooldownSec)
    as [Hc Hs Hlow Hhigh].
  pose proof (compounding_ge_one Hc) as He.
  cbv zeta. unfold runBacktest. cbn [equitySeries totalFeesPct finalEquity].
  set (e := st_equity (backtest_loop rows bandBps cooldownSec)) in *.
  split; [assumption|]. split; [now apply StronglySorted_Sorted|].
  split; [assumption|]. split.
  - apply (toFixed_nonneg (num := xnum)).
    destruct (num_of_Z 0 <? e)%js.
    + unfold e. rewrite Hc. apply (compounded_fees (num := xnum)).
    + reflexivity.
  - apply (one_nonneg (num := xnum)). now apply toFixed_ge_one.
Qed.

(** Three exits, in binary64 and in exact arithmetic. *)
Example float_run_series :
  map point_equity
    (equitySeries (runBacktest (Candles.breaching 3) Candles.bandBps (of_Z 0)))
  = [Candles.dec 10002 10000; Candles.dec 10004 10000;
     Candles.dec 10006 10000].
Proof. vm_compute. reflexivity. Qed.

Example exact_run_series :
  map point_equity
    (equitySeries (runBacktest Candles.exact_rows (Exact.XFin 100) (Exact.XFin 0)))
  = [Exact.XFin (5001 # 5000); Exact.XFin (2501 # 2500);
     Exact.XFin (5003 # 5000)].
Proof. vm_compute. reflexivity. Qed.

(** A file whose third line has a close that is not a number. *)
Example upload_rejected :
  csv_complete Candles.no_number "candles.csv" Candles.upload
  = rejected "Malformed CSV: numeric values required (row 3)".
Proof. vm_compute. reflexivity. Qed.

End AnalyticsProofs.

(* ================================================================== *)
(** * Properties of the backtest: series, cooldown and quiet runs *)
(* ================================================================== *)

Module BacktestProofs.
Import Analytics.

Section Series.

Context {num : Type} `{JsNumber num}.

Implicit Types (s : BacktestState (num := num)) (row : CandleRow (num := num)).

(** ** The shape of the series *)

Lemma backtest_step_series (ratio cooldownSec : num) s row :
  map point_t (st_equitySeries (backtest_step ratio cooldownSec s row))
  = (map point_t (st_equitySeries s)
     ++ (if row_isFinite row then [row_t row] else []))%list.
Proof.
  unfold backtest_step. destruct (row_isFinite row); simpl.
  - destruct (canExit cooldownSec s row && (hitUpper s row || hitLower s row));
      simpl; rewrite map_app; reflexivity.
  - now rewrite app_nil_r.
Qed.

Lemma fold_backtest_step_series (ratio cooldownSec : num) (rows : list CandleRow) s :
  map point_t (st_equitySeries (fold_left (backtest_step ratio cooldownSec) rows s))
  = (map point_t (st_equitySeries s) ++ map row_t (filter row_isFinite rows))%list.
Proof.
  revert s. induction rows as [|row rows IH]; intros s; simpl.
  - now rewrite app_nil_r.
  - rewrite IH, backtest_step_series.
    destruct (row_isFinite row); simpl; rewrite <- app_assoc; reflexivity.
Qed.

(** X1. The equity series has one point for every candle whose [t],
    [h], [l] and [c] are finite, in the order of the candles and at
    that candle's time; the other candles leave no point. *)
Theorem runBacktest_series_times
    (rows : list CandleRow) (bandBps cooldownSec : num) :
  map point_t (equitySeries (runBacktest rows bandBps cooldownSec))
  = map row_t (filter row_isFinite rows).
Proof.
  unfold runBacktest, backtest_loop. cbn [equitySeries].
  now rewrite fold_backtest_step_series.
Qed.

(** ** Exits and points *)

(** A step keeps the exits at most as many as the points, and the last
    point equal to the rounded accumulator. *)
Lemma backtest_step_counted (ratio cooldownSec : num) s row :
  (st_exits s <= List.length (st_equitySeries s))%nat
  /\ (forall p, last (st_equitySeries s) p
                = p \/ point_equity (last (st_equitySeries s) p)
                       = num_toFixed (st_equity s) 6) ->
  let s' := backtest_step ratio cooldownSec s row in
  (st_exits s' <= List.length (st_equitySeries s'))%nat
  /\ (forall p, last (st_equitySeries s') p
                = p \/ point_equity (last (st_equitySeries s') p)
                       = num_toFixed (st_equity s') 6).
Proof.
  intros [He Hl]. cbv zeta. unfold backtest_step.
  destruct (row_isFinite row); simpl; [|split; assumption].
  destruct (canExit cooldownSec s row && (hitUpper s row || hitLower s row));
    split; simpl; try (rewrite length_app; simpl; lia);
    intros p; right; rewrite last_last; reflexivity.
Qed.

Lemma backtest_loop_counted (rows : list CandleRow) (bandBps cooldownSec : num) :
  let s := backtest_loop rows bandBps cooldownSec in
  (st_exits s <= List.length (st_equitySeries s))%nat
  /\ (forall p, last (st_equitySeries s) p
                = p \/ point_equity (last (st_equitySeries s) p)
                       = num_toFixed (st_equity s) 6).
Proof.
  cbv zeta. unfold backtest_loop.
  set (ratio := (bandBps / num_of_Z 10000)%js).
  assert ((st_exits (backtest_init ratio rows)
           <= List.length (st_equitySeries (backtest_init ratio rows)))%nat
          /\ (forall p, last (st_equitySeries (backtest_init ratio rows)) p = p
                        \/ point_equity (last (st_equitySeries (backtest_init ratio rows)) p)
                           = num_toFixed (st_equity (backtest_init ratio rows)) 6))
    as Hinit.
  { split; simpl; [lia | now left]. }
  generalize dependent (backtest_init ratio rows).
  induction rows as [|row rows IH]; intros s Hs; simpl.
  - assumption.
  - apply IH. now apply backtest_step_counted.
Qed.

(** X2. A candle counts as one exit at most: the number of exits is at
    most the number of points of the series, which is at most the number
    of candles. *)
Theorem runBacktest_exits_le_points
    (rows : list CandleRow) (bandBps cooldownSec : num) :
  let r := runBacktest rows bandBps cooldownSec in
  (exits r <= List.length (equitySeries r))%nat
  /\ (List.length (equitySeries r) <= List.length rows)%nat.
Proof.
  cbv zeta. split.
  - apply (backtest_loop_counted rows bandBps cooldownSec).
  - unfold runBacktest, backtest_loop. cbn [equitySeries].
    rewrite <- (length_map point_t), fold_backtest_step_series. simpl.
    rewrite length_map. apply filter_length_le.
Qed.

(** X3. [finalEquity] is the equity of the last point of the series;
    and a run that leaves no point (no candle with finite fields) has no
    exit and the rounded starting equity as [finalEquity]. *)
Theorem runBacktest_final_is_last
    (rows : list CandleRow) (bandBps cooldownSec : num) :
  let r := runBacktest rows bandBps cooldownSec in
  match rev (equitySeries r) with
  | p :: _ => point_equity p = finalEquity r
  | [] => exits r = 0%nat /\ finalEquity r = num_toFixed (num_of_Z 1) 6
  end.
Proof.
  cbv zeta.
  destruct (backtest_loop_counted rows bandBps cooldownSec) as [He Hl].
  pose proof (AnalyticsProofs.backtest_loop_compounding rows bandBps cooldownSec) as Hc.
  unfold runBacktest. cbn [equitySeries exits finalEquity].
  set (s := backtest_loop rows bandBps cooldownSec) in *.
  destruct (st_equitySeries s) as [|q l] eqn:E using rev_ind.
  - simpl in *. assert (st_exits s = 0%nat) as E0 by lia.
    split; [exact E0|]. unfold compounding in Hc. now rewrite Hc, E0.
  - rewrite rev_app_distr. simpl.
    destruct (Hl {| point_t := point_t q;
                    point_equity := num_toFixed (st_equity s) 6 |}) as [Hp | Hp];
      rewrite last_last in Hp; [now rewrite Hp | exact Hp].
Qed.

(** ** Runs without a breach *)

(** A state that has not seen an exit yet. *)
Lemma backtest_step_idle (ratio cooldownSec : num) s row :
  (row_isFinite row = true -> hitUpper s row = false /\ hitLower s row = false) ->
  let s' := backtest_step ratio cooldownSec s row in
  st_exits s' = st_exits s /\ st_equity s' = st_equity s
  /\ st_band s' = st_band s
  /\ st_equitySeries s'
     = (st_equitySeries s
        ++ (if row_isFinite row
            then [{| point_t := row_t row;
                     point_equity := num_toFixed (st_equity s) 6 |}]
            else []))%list.
Proof.
  intros Hrow. cbv zeta. unfold backtest_step.
  destruct (row_isFinite row); simpl.
  - destruct (Hrow eq_refl) as [-> ->]. rewrite andb_false_r. simpl.
    repeat split; reflexivity.
  - rewrite app_nil_r. repeat split; reflexivity.
Qed.

Lemma fold_backtest_step_idle (ratio cooldownSec : num) (rows : list CandleRow) s :
  Forall (fun row => row_isFinite row = true ->
                     (row_h row >? band_upper (st_band s))%js = false
                     /\ (row_l row <? band_lower (st_band s))%js = false) rows ->
  let s' := fold_left (backtest_step ratio cooldownSec) rows s in
  st_exits s' = st_exits s /\ st_equity s' = st_equity s
  /\ (Forall (fun p => point_equity p = num_toFixed (st_equity s) 6)
             (st_equitySeries s) ->
      Forall (fun p => point_equity p = num_toFixed (st_equity s) 6)
             (st_equitySeries s')).
Proof.
  cbv zeta. revert s. induction rows as [|row rows IH]; intros s Hrows; simpl.
  - repeat split; trivial.
  - inversion Hrows as [|? ? Hrow Hrest]; subst.
    destruct (backtest_step_idle ratio cooldownSec s row Hrow)
      as (He & Hq & Hb & Hs).
    specialize (IH (backtest_step ratio cooldownSec s row)).
    rewrite Hb, He, Hq in IH. destruct (IH Hrest) as (He' & Hq' & Hs').
    repeat split; try assumption.
    intros Hall. apply Hs'. rewrite Hs. apply Forall_app. split; [assumption|].
    destruct (row_isFinite row); repeat constructor.
Qed.

(** A run in which no candle breaches the first band ends as it
    started. *)
Lemma backtest_loop_idle (rows : list CandleRow) (bandBps cooldownSec : num) :
  let band :=
    toBand (bandBps / num_of_Z 10000)%js
      (match rows with row :: _ => row_c row | [] => num_of_Z 1 end) in
  Forall (fun row => row_isFinite row = true ->
                     (row_h row >? band_upper band)%js = false
                     /\ (row_l row <? band_lower band)%js = false) rows ->
  let s := backtest_loop rows bandBps cooldownSec in
  st_exits s = 0%nat /\ st_equity s = num_of_Z 1
  /\ Forall (fun p => point_equity p = num_toFixed (num_of_Z 1) 6)
            (st_equitySeries s).
Proof.
  cbv zeta. intros Hrows. unfold backtest_loop.
  destruct (@fold_backtest_step_idle (bandBps / num_of_Z 10000)%js cooldownSec rows
              (backtest_init (bandBps / num_of_Z 10000)%js rows) Hrows)
    as (He & Hq & Hs).
  repeat split; try assumption. apply Hs. constructor.
Qed.

(** ** Candles inside one cooldown window *)

Lemma fold_backtest_step_cooling `{!JsOrder num} (ratio cooldownSec : num)
    (rows : list CandleRow) s :
  Forall (fun row => (row_t row <? st_lastExitTs s + cooldownSec * num_of_Z 1000)%js
                     = true) rows ->
  st_exits (fold_left (backtest_step ratio cooldownSec) rows s) = st_exits s.
Proof.
  revert s. induction rows as [|row rows IH]; intros s Hrows; simpl.
  - reflexivity.
  - inversion Hrows as [|? ? Hrow Hrest]; subst.
    assert (canExit cooldownSec s row = false) as Hcan
      by (unfold canExit; now apply num_ltb_not_leb).
    assert (backtest_step ratio cooldownSec s row
            = if row_isFinite row then push_point s row else s) as Hstep.
    { unfold backtest_step. rewrite Hcan. simpl.
      destruct (row_isFinite row); reflexivity. }
    rewrite IH; rewrite Hstep; destruct (row_isFinite row); trivial.
Qed.

(** X4. After an exit, no candle whose time is below the exit's time
    plus [cooldownSec * 1000] counts as an exit, however many there are
    and whatever their prices: the exit and the candles that follow it
    inside its cooldown window count as one exit. *)
Theorem cooldown_window_one_exit `{!JsOrder num} (ratio cooldownSec : num)
    s (first : CandleRow) (rest : list CandleRow) :
  row_isFinite first = true ->
  canExit cooldownSec s first = true ->
  hitUpper s first || hitLower s first = true ->
  Forall (fun row => (row_t row <? row_t first + cooldownSec * num_of_Z 1000)%js
                     = true) rest ->
  st_exits (fold_left (backtest_step ratio cooldownSec) (first :: rest) s)
  = (st_exits s + 1)%nat.
Proof.
  intros Hfinite Hcan Hhit Hrest. simpl.
  assert (backtest_step ratio cooldownSec s first
          = push_point (exit_update ratio s first) first) as ->.
  { unfold backtest_step. now rewrite Hfinite, Hcan, Hhit. }
  now rewrite fold_backtest_step_cooling.
Qed.

End Series.

(** ** In binary64 *)

Section Doubles.

Import Floats.
Import Float64.
Import Float64Laws.

Implicit Types (row : CandleRow (num := float)).

(** The band around a close that is NaN has NaN for its bounds, and no
    price is beyond them. *)
Lemma ltb_nan_r (x y : float) : PrimFloat.is_nan y = true -> (x <? y)%float = false.
Proof.
  intros Hy. destruct (x <? y)%float eqn:E; [|reflexivity].
  apply ltb_key in E as (_ & Ny & _).
  unfold PrimFloat.is_nan in Hy. rewrite eqb_spec in Hy. unfold SFeqb in Hy.
  rewrite (SFcompare_key _ _ (Prim2SF_valid y) (Prim2SF_valid y) Ny Ny),
    Z.compare_refl in Hy. discriminate.
Qed.

Lemma ltb_nan_l (x y : float) : PrimFloat.is_nan x = true -> (x <? y)%float = false.
Proof.
  intros Hx. destruct (x <? y)%float eqn:E; [|reflexivity].
  apply ltb_key in E as (Nx & _ & _).
  unfold PrimFloat.is_nan in Hx. rewrite eqb_spec in Hx. unfold SFeqb in Hx.
  rewrite (SFcompare_key _ _ (Prim2SF_valid x) (Prim2SF_valid x) Nx Nx),
    Z.compare_refl in Hx. discriminate.
Qed.

Lemma is_nan_Prim2SF (x : float) : PrimFloat.is_nan x = true <-> Prim2SF x = S754_nan.
Proof.
  unfold PrimFloat.is_nan. rewrite eqb_spec. unfold SFeqb. split.
  - intros Hx. destruct (Prim2SF x) as [s | s | | s m e] eqn:E; try reflexivity;
      exfalso; pose proof (Prim2SF_valid x) as V; rewrite E in V;
      rewrite (SFcompare_key _ _ V V eq_refl eq_refl), Z.compare_refl in Hx;
      discriminate.
  - now intros ->.
Qed.

Lemma mul_nan_l (x y : float) : PrimFloat.is_nan x = true -> PrimFloat.is_nan (x * y) = true.
Proof.
  rewrite !is_nan_Prim2SF, mul_spec. now intros ->.
Qed.

(** X5. When no candle with finite fields has a high above or a low
    below the band around the first close, the run has no exit: every
    point of the series has equity 1, [finalEquity] is 1 and
    [totalFeesPct] is 0. *)
Theorem runBacktest_no_breach
    (rows : list CandleRow) (bandBps cooldownSec : float) :
  let band :=
    toBand (bandBps / of_Z 10000)%float
      (match rows with row :: _ => row_c row | [] => of_Z 1 end) in
  Forall (fun row => row_isFinite row = true ->
                     (band_upper band <? row_h row)%float = false
                     /\ (row_l row <? band_lower band)%float = false) rows ->
  let r := runBacktest rows bandBps cooldownSec in
  exits r = 0%nat
  /\ Forall (fun p => point_equity p = 1%float) (equitySeries r)
  /\ finalEquity r = 1%float
  /\ totalFeesPct r = 0%float.
Proof.
  cbv zeta. intros Hrows.
  destruct (@backtest_loop_idle _ _ rows bandBps cooldownSec Hrows) as (He & Hq & Hs).
  unfold runBacktest. cbn [exits equitySeries finalEquity totalFeesPct].
  rewrite Hq. repeat split; try assumption; reflexivity.
Qed.

(** X6. A first candle whose close is NaN disables the run: the band
    around NaN is never breached and is never replaced, so there is no
    exit whatever the other candles are. *)
Theorem runBacktest_nan_first_close
    (row0 : CandleRow) (rest : list CandleRow) (bandBps cooldownSec : float) :
  PrimFloat.is_nan (row_c row0) = true ->
  let r := runBacktest (row0 :: rest) bandBps cooldownSec in
  exits r = 0%nat
  /\ Forall (fun p => point_equity p = 1%float) (equitySeries r)
  /\ finalEquity r = 1%float.
Proof.
  cbv zeta. intros Hnan.
  assert (Forall (fun row : CandleRow =>
            row_isFinite row = true ->
            (band_upper (toBand (bandBps / of_Z 10000)%float (row_c row0))
             <? row_h row)%float = false
            /\ (row_l row
                <? band_lower (toBand (bandBps / of_Z 10000)%float (row_c row0)))%float
               = false) (row0 :: rest)) as Hrows.
  { apply Forall_forall. intros row _ _. cbn [toBand band_upper band_lower].
    split; [apply ltb_nan_l | apply ltb_nan_r]; now apply mul_nan_l. }
  destruct (@backtest_loop_idle _ _ (row0 :: rest) bandBps cooldownSec Hrows)
    as (He & Hq & Hs).
  unfold runBacktest. cbn [exits equitySeries finalEquity].
  rewrite Hq. repeat split; try assumption; reflexivity.
Qed.

End Doubles.

(** ** The properties at the test candles *)

Import Floats.
Import Float64.
Import Float64Laws.

Lemma cooldown_window_one_exit_witness :
  st_exits
    (fold_left (backtest_step Candles.ratio Candles.cooldownSec)
       [Candles.first; Candles.second; Candles.third]
       (backtest_init Candles.ratio
          [Candles.first; Candles.second; Candles.third]))
  = (st_exits
       (backtest_init Candles.ratio
          [Candles.first; Candles.second; Candles.third]) + 1)%nat.
Proof.
  apply (@cooldown_window_one_exit PrimFloat.float _ float_JsOrder);
    [vm_compute; reflexivity .. |].
  repeat constructor.
Defined.

Lemma runBacktest_no_breach_witness :
  exits (runBacktest Samples.quiet Candles.bandBps Candles.cooldownSec) = 0%nat
  /\ Forall (fun p => point_equity p = 1%float)
       (equitySeries (runBacktest Samples.quiet Candles.bandBps Candles.cooldownSec))
  /\ finalEquity (runBacktest Samples.quiet Candles.bandBps Candles.cooldownSec)
     = 1%float
  /\ totalFeesPct (runBacktest Samples.quiet Candles.bandBps Candles.cooldownSec)
     = 0%float.
Proof.
  apply (@runBacktest_no_breach Samples.quiet Candles.bandBps Candles.cooldownSec).
  repeat constructor; vm_compute; reflexivity.
Defined.

Lemma runBacktest_nan_first_close_witness :
  exits (runBacktest (Samples.blank :: Candles.breaching 3)
           Candles.bandBps Candles.cooldownSec) = 0%nat
  /\ Forall (fun p => point_equity p = 1%float)
       (equitySeries (runBacktest (Samples.blank :: Candles.breaching 3)
                        Candles.bandBps Candles.cooldownSec))
  /\ finalEquity (runBacktest (Samples.blank :: Candles.breaching 3)
                    Candles.bandBps Candles.cooldownSec) = 1%float.
Proof.
  apply (@runBacktest_nan_first_close Samples.blank (Candles.breaching 3)
           Candles.bandBps Candles.cooldownSec).
  vm_compute. reflexivity.
Defined.

End BacktestProofs.

(* ================================================================== *)
(** * Properties of the upload: accepted files *)
(* ================================================================== *)

Module UploadProofs.
Import Analytics.

Section Accepted.

Context {num : Type} `{JsNumber num}.
Variable Number_of_string : string -> num.

#[local] Abbreviation toNumber := (toNumber Number_of_string).
#[local] Abbreviation parse_row := (parse_row Number_of_string).
#[local] Abbreviation parse_rows := (parse_rows Number_of_string).
#[local] Abbreviation malformed_row := (malformed_row Number_of_string).
#[local] Abbreviation csv_complete := (csv_complete Number_of_string).

(** [toNumber] yields finite numbers only. *)
Lemma toNumber_isFinite (value : JsValue) (n : num) :
  toNumber value = Some n -> num_isFinite n = true.
Proof.
  destruct value as [m | s |]; simpl; try discriminate.
  - destruct (num_isFinite m) eqn:E; [|discriminate]. now intros [= <-].
  - destruct (0 <? String.length (trim s))%nat; [|discriminate].
    destruct (num_isFinite (Number_of_string s)) eqn:E; [|discriminate].
    now intros [= <-].
Qed.

(** The candle of a row is made of the numbers of its five cells, the
    time through [toMillis]. *)
Lemma parse_row_candle (index : nat) (row : option CsvRow) (candle : CandleRow) :
  parse_row index row = inr candle ->
  exists r ts,
    row = Some r
    /\ toNumber (csv_timestamp r) = Some ts /\ row_t candle = toMillis ts
    /\ toNumber (csv_open r) = Some (row_o candle)
    /\ toNumber (csv_high r) = Some (row_h candle)
    /\ toNumber (csv_low r) = Some (row_l candle)
    /\ toNumber (csv_close r) = Some (row_c candle).
Proof.
  destruct row as [r|]; [|discriminate]. unfold Analytics.parse_row.
  destruct (toNumber (csv_timestamp r)) as [ts|] eqn:Ets; [|discriminate].
  destruct (toNumber (csv_open r)) eqn:Eo; [|discriminate].
  destruct (toNumber (csv_high r)) eqn:Eh; [|discriminate].
  destruct (toNumber (csv_low r)) eqn:El; [|discriminate].
  destruct (toNumber (csv_close r)) eqn:Ec; [|discriminate].
  intros [= <-]. exists r, ts. simpl. repeat split; first [reflexivity | assumption].
Qed.

Lemma parse_rows_candles (data : list (option CsvRow)) (index : nat)
    (parsed all : list CandleRow) :
  parse_rows index data parsed = inr all ->
  exists candles,
    all = (parsed ++ candles)%list
    /\ Forall2 (fun row candle => exists i, parse_row i row = inr candle)
               data candles.
Proof.
  revert index parsed. induction data as [|row data IH];
    intros index parsed; simpl.
  - intros [= <-]. exists []. rewrite app_nil_r. split; constructor.
  - destruct (parse_row index row) as [message | candle] eqn:E; [discriminate|].
    intros Hall. destruct (IH _ _ Hall) as (candles & -> & Hrel).
    exists (candle :: candles). rewrite <- app_assoc. split; [reflexivity|].
    constructor; [now exists index | assumption].
Qed.

Lemma parse_rows_well_formed (data : list (option CsvRow)) (index : nat)
    (parsed : list CandleRow) :
  existsb malformed_row data = false ->
  exists all, parse_rows index data parsed = inr all.
Proof.
  revert index parsed. induction data as [|row data IH];
    intros index parsed; simpl.
  - intros _. now exists parsed.
  - intros Hrows. apply orb_false_iff in Hrows as [Hrow Hrest].
    destruct (AnalyticsProofs.parse_row_well_formed Number_of_string index _ Hrow)
      as [candle ->].
    now apply IH.
Qed.

(** X7. A parse without parser error, with the five columns in its
    header and with numbers in the five cells of every row is accepted
    whole: the candles stored are those of the rows, one per row and in
    order, each made of the row's five numbers with the time through
    [toMillis]; the toast counts them and the file name is kept.  With no
    row at all the file is rejected as having no valid rows. *)
Theorem csv_complete_accepts (fileName : string) (results : ParseResult) :
  res_errors results = [] ->
  header_incomplete results = false ->
  existsb malformed_row (res_data results) = false ->
  let out := csv_complete fileName results in
  match res_data results with
  | [] => out = rejected "Malformed CSV: no valid rows found."
  | _ :: _ =>
      out_toast out
      = toast_success
          ("Successfully loaded " ++ decimal (List.length (res_data results))
           ++ " candles from " ++ fileName)
      /\ out_csvName out = fileName
      /\ Forall2
           (fun row candle =>
              exists r ts,
                row = Some r
                /\ toNumber (csv_timestamp r) = Some ts
                /\ row_t candle = toMillis ts
                /\ toNumber (csv_open r) = Some (row_o candle)
                /\ toNumber (csv_high r) = Some (row_h candle)
                /\ toNumber (csv_low r) = Some (row_l candle)
                /\ toNumber (csv_close r) = Some (row_c candle))
           (res_data results) (out_backtestRows out)
  end.
Proof.
  intros Herrors Hheader Hrows. cbv zeta. unfold Analytics.csv_complete.
  rewrite Herrors.
  apply AnalyticsProofs.missingHeaders_nil in Hheader. rewrite Hheader.
  destruct (parse_rows_well_formed (res_data results) 0 [] Hrows) as [all Hall].
  rewrite Hall.
  pose proof (AnalyticsProofs.parse_rows_length Number_of_string _ _ _ Hall) as Hlen.
  destruct (parse_rows_candles _ _ _ Hall) as (candles & -> & Hrel).
  cbn [app] in Hlen |- *. change (List.length []) with 0%nat in Hlen.
  rewrite Nat.add_0_l in Hlen.
  destruct (res_data results) as [|row data]; destruct candles as [|candle candles];
    try discriminate; [reflexivity|].
  cbv beta iota. cbn [out_toast out_csvName out_backtestRows]. rewrite Hlen.
  repeat split.
  eapply Forall2_impl; [|exact Hrel].
  intros r c [i Hi]. exact (parse_row_candle _ _ Hi).
Qed.

(** X8. Whatever the file, every candle that the upload stores has a
    finite open, high, low and close, and a time that is [toMillis] of a
    finite number: [runBacktest] can skip a stored candle only for its
    time. *)
Theorem csv_complete_finite_candles (fileName : string) (results : ParseResult) :
  Forall (fun candle =>
            num_isFinite (row_o candle) = true
            /\ num_isFinite (row_h candle) = true
            /\ num_isFinite (row_l candle) = true
            /\ num_isFinite (row_c candle) = true
            /\ exists ts, num_isFinite ts = true /\ row_t candle = toMillis ts)
         (out_backtestRows (csv_complete fileName results)).
Proof.
  unfold Analytics.csv_complete.
  destruct (res_errors results); [|constructor].
  destruct (missingHeaders _); [|constructor].
  destruct (parse_rows 0 (res_data results) []) as [message | all] eqn:Hall;
    [constructor|].
  destruct (parse_rows_candles _ _ _ Hall) as (candles & -> & Hrel).
  cbn [app]. destruct candles as [|candle candles]; [constructor|].
  cbn [out_backtestRows].
  clear Hall. induction Hrel as [|row c data cs [i Hi] Hrel IH];
    constructor; [|exact IH].
  destruct (parse_row_candle _ _ Hi) as (r & ts & _ & Hts & Ht & Ho & Hh & Hl & Hc).
  repeat split; try (eapply toNumber_isFinite; eassumption).
  exists ts. split; [eapply toNumber_isFinite; eassumption | assumption].
Qed.

End Accepted.

(** ** The properties at a test file *)

Import Floats.
Import Float64.
Open Scope string_scope.

Lemma csv_complete_accepts_witness :
  let out := csv_complete Candles.no_number "candles.csv" Samples.accepted_upload in
  out_toast out = toast_success "Successfully loaded 2 candles from candles.csv"
  /\ out_csvName out = "candles.csv"
  /\ Forall2
       (fun row candle =>
          exists r ts,
            row = Some r
            /\ toNumber Candles.no_number (csv_timestamp r) = Some ts
            /\ row_t candle = toMillis ts
            /\ toNumber Candles.no_number (csv_open r) = Some (row_o candle)
            /\ toNumber Candles.no_number (csv_high r) = Some (row_h candle)
            /\ toNumber Candles.no_number (csv_low r) = Some (row_l candle)
            /\ toNumber Candles.no_number (csv_close r) = Some (row_c candle))
       (res_data Samples.accepted_upload) (out_backtestRows out).
Proof.
  apply (@csv_complete_accepts PrimFloat.float _ Candles.no_number "candles.csv"
           Samples.accepted_upload); vm_compute; reflexivity.
Defined.

End UploadProofs.

(* ================================================================== *)
(** * Properties of maps and strings *)
(* ================================================================== *)

Module JsMapProofs.
Import JsMap.

Section Laws.

Variables K V : Type.
Variable eqb : K -> K -> bool.
Hypothesis eqb_eq : forall a b : K, eqb a b = true <-> a = b.

Lemma eqb_refl (a : K) : eqb a a = true.
Proof. now apply eqb_eq. Qed.

Lemma eqb_neq (a b : K) : a <> b -> eqb a b = false.
Proof.
  intros Hne. destruct (eqb a b) eqn:E; [|reflexivity].
  apply eqb_eq in E. contradiction.
Qed.

Lemma get_set_same (key : K) (value : V) (map : t K V) :
  get eqb key (set eqb key value map) = Some value.
Proof.
  induction map as [|[k v] rest IH]; simpl.
  - now rewrite eqb_refl.
  - destruct (eqb key k) eqn:E; simpl; rewrite E; [reflexivity | exact IH].
Qed.

Lemma get_set_other (key other : K) (value : V) (map : t K V) :
  key <> other ->
  get eqb other (set eqb key value map) = get eqb other map.
Proof.
  intros Hne. induction map as [|[k v] rest IH]; simpl.
  - rewrite (eqb_neq (a := other) (b := key)); [reflexivity | congruence].
  - destruct (eqb key k) eqn:E; simpl; [|now rewrite IH].
    apply eqb_eq in E. subst k.
    rewrite (eqb_neq (a := other) (b := key)); [reflexivity | congruence].
Qed.

Lemma get_delete_same (key : K) (map : t K V) :
  get eqb key (delete eqb key map) = None.
Proof.
  induction map as [|[k v] rest IH]; simpl; [reflexivity|].
  destruct (eqb key k) eqn:E; simpl; [exact IH | now rewrite E].
Qed.

Lemma get_delete_other (key other : K) (map : t K V) :
  key <> other ->
  get eqb other (delete eqb key map) = get eqb other map.
Proof.
  intros Hne. induction map as [|[k v] rest IH]; simpl; [reflexivity|].
  destruct (eqb key k) eqn:E; simpl.
  - apply eqb_eq in E. subst k.
    rewrite (eqb_neq (a := other) (b := key)); [exact IH | congruence].
  - now rewrite IH.
Qed.

End Laws.

End JsMapProofs.

Module JsStringProofs.

Open Scope string_scope.

Lemma length_append (s1 s2 : string) :
  String.length (s1 ++ s2) = (String.length s1 + String.length s2)%nat.
Proof. induction s1 as [|c s1 IH]; simpl; [reflexivity | now rewrite IH]. Qed.

Lemma append_assoc (s1 s2 s3 : string) : (s1 ++ s2) ++ s3 = s1 ++ s2 ++ s3.
Proof. induction s1 as [|c s1 IH]; simpl; [reflexivity | now rewrite IH]. Qed.

(** A string is its first [n] characters followed by the others. *)
Lemma substring_split (n : nat) (s : string) :
  (n <= String.length s)%nat ->
  s = substring 0 n s ++ substring n (String.length s - n) s
  /\ String.length (substring 0 n s) = n.
Proof.
  revert s. induction n as [|n IH]; intros s Hn.
  - rewrite Nat.sub_0_r. split.
    + simpl. destruct s; [reflexivity|]. simpl.
      clear. f_equal. induction s as [|c s IH]; simpl; [reflexivity|].
      now rewrite <- IH.
    + destruct s; reflexivity.
  - destruct s as [|c s]; simpl in *; [lia|].
    destruct (IH s) as [Hs Hl]; [lia|]. split; [|now rewrite Hl].
    f_equal. exact Hs.
Qed.

Lemma length_substring (n m : nat) (s : string) :
  (n + m <= String.length s)%nat -> String.length (substring n m s) = m.
Proof.
  revert m s. induction n as [|n IH]; intros m s Hn.
  - revert s Hn. induction m as [|m IHm]; intros s Hn.
    + destruct s; reflexivity.
    + destruct s as [|c s]; simpl in *; [lia|]. rewrite IHm; [reflexivity | lia].
  - destruct s as [|c s]; simpl in *; [lia|]. apply IH. lia.
Qed.

End JsStringProofs.

(* ================================================================== *)
(** * Properties of the link codes *)
(* ================================================================== *)

Module LinkStoreProofs.
Import LinkStore.
Import Service.
Import JsMapProofs.
Import JsStringProofs.

Open Scope string_scope.

(** ** Codes *)

Lemma code_char_alphabet (byte : N) :
  exists c, code_char byte = String c "" /\ is_upper_alphanumeric c = true.
Proof.
  unfold code_char.
  change (N.of_nat (String.length CODE_ALPHABET)) with 32%N.
  assert (N.to_nat (byte mod 32) < 32)%nat as Hlt.
  { pose proof (N.mod_lt byte 32). lia. }
  set (i := N.to_nat (byte mod 32)) in *. clearbody i.
  do 32 (destruct i as [|i]; [eexists; split; reflexivity|]).
  lia.
Qed.

Lemma generateCode_loop_spec (bytes : list N) (count index : nat) (code : string) :
  exists tail,
    generateCode_loop bytes index count code = code ++ tail
    /\ String.length tail = count
    /\ string_forallb is_upper_alphanumeric tail = true.
Proof.
  revert index code. induction count as [|count IH]; intros index code; simpl.
  - exists "". split; [|split; reflexivity].
    clear. induction code as [|c code IH]; simpl; [reflexivity | now rewrite <- IH].
  - destruct (code_char_alphabet (nth index bytes 0%N)) as (c & -> & Hc).
    destruct (IH (index + 1)%nat (code ++ String c "")) as (tail & -> & Hlen & Hall).
    exists (String c tail). rewrite append_assoc. simpl.
    split; [reflexivity|]. split; [now rewrite Hlen | now rewrite Hc].
Qed.

Lemma generateCode_spec (bytes : list N) :
  String.length (generateCode bytes) = 8%nat
  /\ string_forallb is_upper_alphanumeric (generateCode bytes) = true.
Proof.
  unfold generateCode.
  destruct (generateCode_loop_spec bytes CODE_LENGTH 0 "") as (tail & -> & Hlen & Hall).
  simpl. split; assumption.
Qed.

Lemma createCode_retry_spec (pending : JsMap.t string PendingCode)
    (draw : nat -> list N) (attempts k : nat) :
  exists j, createCode_retry pending draw attempts k (generateCode (draw k))
            = generateCode (draw j).
Proof.
  revert k. induction attempts as [|attempts IH]; intros k; simpl.
  - now exists k.
  - destruct (JsMap.has String.eqb _ pending); [apply IH | now exists k].
Qed.

(** X9. Whatever bytes the random source returns and whatever the store
    holds, the code that [createCode] returns has 8 characters, all of
    them capital letters or digits, so that it passes the schema of
    [POST /bot/consume-link]; and the code is then pending for the wallet,
    with the time of creation and the time to live, while the wallets
    linked to Telegram users are as before. *)
Theorem createCode_issues_valid_code (wallet : string) (ttlMs : Z)
    (draw : nat -> list N) (now : Z) (store : Store) :
  let (code, store') := createCode wallet ttlMs draw now store in
  String.length code = 8%nat
  /\ linkCodeSchema code = true
  /\ JsMap.get String.eqb code (pendingByCode store')
     = Some {| pending_wallet := wallet;
               pending_createdAt := now;
               pending_ttlMs := ttlMs |}
  /\ walletByTelegram store' = walletByTelegram store.
Proof.
  unfold createCode.
  destruct (createCode_retry_spec (pendingByCode store) draw 5 0) as [j ->].
  destruct (generateCode_spec (draw j)) as [Hlen Hall].
  cbn [pendingByCode walletByTelegram].
  split; [assumption|]. split.
  - unfold linkCodeSchema. rewrite Hlen, Hall. reflexivity.
  - split; [|reflexivity]. apply get_set_same. apply String.eqb_eq.
Qed.

(** ** Consuming a code *)

(** X10. A code that [createCode] has just returned for a wallet is
    consumed by [consumeCode] when its age is at most the time to live
    (an age equal to it included): the result is that wallet and
    [getWallet] then gives it for the Telegram user.  When the age is
    above the time to live the result is [expired] and the user's wallet
    is as before.  Either way the code is pending no more. *)
Theorem consumeCode_after_createCode (wallet : string) (ttlMs : Z)
    (draw : nat -> list N) (created : Z) (store : Store)
    (telegramId now later : Z) :
  let (code, store1) := createCode wallet ttlMs draw created store in
  let (result, store2) := consumeCode code telegramId now later store1 in
  JsMap.has String.eqb code (pendingByCode store2) = false
  /\ if (now - created >? ttlMs)%Z
     then result = Expired
          /\ getWallet telegramId store2 = getWallet telegramId store
     else result = Consumed wallet
          /\ getWallet telegramId store2 = Some wallet.
Proof.
  unfold createCode, consumeCode. cbn [pendingByCode walletByTelegram].
  rewrite get_set_same by apply String.eqb_eq.
  cbn [pending_createdAt pending_ttlMs pending_wallet].
  destruct (now - created >? ttlMs)%Z; cbn [pendingByCode walletByTelegram];
    (split; [unfold JsMap.has; rewrite get_delete_same by apply String.eqb_eq;
             reflexivity|]);
    (split; [reflexivity|]).
  - reflexivity.
  - unfold getWallet. cbn [walletByTelegram].
    rewrite get_set_same by apply Z.eqb_eq. reflexivity.
Qed.

(** X11. A code is used once: after [consumeCode] has been called with
    a code, whatever it answered, a second call with the same code
    answers [invalid] and changes nothing. *)
Theorem consumeCode_single_use (code : string) (store : Store)
    (telegramId1 now1 later1 telegramId2 now2 later2 : Z) :
  let store1 := snd (consumeCode code telegramId1 now1 later1 store) in
  consumeCode code telegramId2 now2 later2 store1 = (Invalid, store1).
Proof.
  cbv zeta.
  assert (JsMap.get String.eqb code
            (pendingByCode (snd (consumeCode code telegramId1 now1 later1 store)))
          = None) as Hgone.
  { unfold consumeCode.
    destruct (JsMap.get String.eqb code (pendingByCode store)) as [pending|] eqn:E.
    - destruct (_ >? _)%Z; cbn [snd pendingByCode];
        apply get_delete_same; apply String.eqb_eq.
    - exact E. }
  set (store1 := snd (consumeCode code telegramId1 now1 later1 store)) in *.
  clearbody store1. unfold consumeCode. now rewrite Hgone.
Qed.

(** X12. [consumeCode] changes the wallet of no other Telegram user,
    and when it does not answer with a wallet it changes the wallet of
    none; a code that is not pending is [invalid] and leaves the store as
    it is. *)
Theorem consumeCode_frame (code : string) (store : Store)
    (telegramId now later : Z) :
  let (result, store') := consumeCode code telegramId now later store in
  (forall other, other <> telegramId ->
     getWallet other store' = getWallet other store)
  /\ (forall wallet, result = Consumed wallet ->
        getWallet telegramId store' = Some wallet)
  /\ ((forall wallet, result <> Consumed wallet) ->
      walletByTelegram store' = walletByTelegram store)
  /\ (JsMap.has String.eqb code (pendingByCode store) = false ->
      result = Invalid /\ store' = store).
Proof.
  unfold consumeCode, JsMap.has.
  destruct (JsMap.get String.eqb code (pendingByCode store)) as [pending|].
  - destruct (_ >? _)%Z.
    + repeat split; try discriminate.
    + split; [|split; [|split]].
      * intros other Hne. unfold getWallet. cbn [walletByTelegram].
        rewrite get_set_other; [reflexivity | apply Z.eqb_eq | congruence].
      * intros wallet [= <-]. unfold getWallet. cbn [walletByTelegram].
        rewrite get_set_same by apply Z.eqb_eq. reflexivity.
      * intros Hno. exfalso. now apply (Hno (pending_wallet pending)).
      * discriminate.
  - repeat split; discriminate.
Qed.

End LinkStoreProofs.

(* ================================================================== *)
(** * Properties of the cooldown and of the other routes *)
(* ================================================================== *)

Module ServiceProofs.
Import Strategy.
Import Service.
Import JsMapProofs.
Import JsStringProofs.

Open Scope string_scope.

(** ** [maskUrl] *)

Lemma substring_append_prefix (n : nat) (s1 s2 : string) :
  (n <= String.length s1)%nat -> substring 0 n (s1 ++ s2) = substring 0 n s1.
Proof.
  revert s1. induction n as [|n IH]; intros s1 Hn.
  - destruct s1; simpl; [destruct s2|]; reflexivity.
  - destruct s1 as [|c s1]; simpl in *; [lia|]. rewrite IH; [reflexivity | lia].
Qed.

(** A string of more than 30 characters is its first 24 characters, a
    middle and its last 6 characters. *)
Lemma slice_split (s : string) :
  (30 <= String.length s)%nat ->
  exists middle,
    s = JsString.slice_to 24 s ++ middle ++ JsString.slice_last 6 s
    /\ String.length (JsString.slice_to 24 s) = 24%nat
    /\ String.length middle = (String.length s - 30)%nat
    /\ String.length (JsString.slice_last 6 s) = 6%nat.
Proof.
  intros Hlen. unfold JsString.slice_to, JsString.slice_last.
  destruct (@substring_split (String.length s - 6)%nat s) as [Hs Hl]; [lia|].
  replace (String.length s - (String.length s - 6))%nat with 6%nat in Hs by lia.
  set (a := substring 0 (String.length s - 6) s) in *.
  set (sfx := substring (String.length s - 6) 6 s) in *.
  destruct (@substring_split 24 a) as [Ha Hp]; [lia|].
  assert (substring 0 24 s = substring 0 24 a) as Hpre.
  { rewrite Hs at 1. apply substring_append_prefix. lia. }
  exists (substring 24 (String.length a - 24)%nat a).
  rewrite Hpre. split; [|split; [exact Hp|split]].
  - rewrite <- append_assoc, <- Ha. exact Hs.
  - rewrite length_substring; lia.
  - unfold sfx. apply length_substring. lia.
Qed.

(** X13. [maskUrl] never returns more than 33 characters.  Of a value
    whose trimmed text is longer than 32 characters it returns the first
    24 characters, three dots and the last 6 characters, and nothing of
    the characters between them; a shorter text is returned trimmed, and
    a missing or empty value gives [unknown]. *)
Theorem maskUrl_hides_middle (value : option string) :
  (String.length (maskUrl value) <= 33)%nat
  /\ match value with
     | None | Some EmptyString => maskUrl value = "unknown"
     | Some v =>
         let trimmed := Analytics.trim v in
         if (String.length trimmed <=? 32)%nat then maskUrl value = trimmed
         else exists prefix middle suffix,
             trimmed = prefix ++ middle ++ suffix
             /\ String.length prefix = 24%nat
             /\ String.length suffix = 6%nat
             /\ (3 <= String.length middle)%nat
             /\ maskUrl value = prefix ++ "..." ++ suffix
     end.
Proof.
  destruct value as [[|c v]|]; [split; [simpl; lia | reflexivity]| |
                                split; [simpl; lia | reflexivity]].
  unfold maskUrl. cbv zeta.
  set (trimmed := Analytics.trim (String c v)).
  destruct (Nat.leb_spec (String.length trimmed) 32) as [Hle | Hgt].
  - split; [lia | reflexivity].
  - destruct (@slice_split trimmed) as (middle & Hs & Hp & Hm & Hx); [lia|].
    split.
    + rewrite !length_append, Hp, Hx. simpl. lia.
    + exists (JsString.slice_to 24 trimmed), middle, (JsString.slice_last 6 trimmed).
      repeat split; try assumption. lia.
Qed.

(** ** The cooldown of a wallet *)

Lemma ceil_seconds_bounds (ms : Z) :
  (0 < ms <= 15000)%Z -> (1 <= ceil_seconds ms <= 15)%Z.
Proof. unfold ceil_seconds. intros Hms. Z.div_mod_to_equations. lia. Qed.

Lemma ceil_seconds_pos (ms : Z) : (0 < ms)%Z -> (1 <= ceil_seconds ms)%Z.
Proof. unfold ceil_seconds. intros Hms. Z.div_mod_to_equations. lia. Qed.

(** After a check that passed at [now], the map holds [now + 15000] for
    the wallet and what it held for the others. *)
Lemma checkCooldown_ok (wallet : string) (now : Z) (map : JsMap.t string Z) :
  fst (checkCooldown wallet now map) = CooldownOk ->
  snd (checkCooldown wallet now map)
  = JsMap.set String.eqb wallet (now + walletCooldownMs)%Z map.
Proof.
  unfold checkCooldown. destruct (now <? _)%Z; [discriminate | reflexivity].
Qed.

Lemma checkCooldown_wait (wallet : string) (now next : Z) (map : JsMap.t string Z) :
  JsMap.get String.eqb wallet map = Some next -> (now < next)%Z ->
  checkCooldown wallet now map = (CooldownWait (ceil_seconds (next - now)), map).
Proof.
  intros Hget Hlt. unfold checkCooldown. rewrite Hget. simpl.
  apply Z.ltb_lt in Hlt. now rewrite Hlt.
Qed.

(** X14. A check that passes at [now] starts a window of 15 seconds for
    the wallet: a check for it at a time from [now] on and before
    [now + 15000] is refused, with the seconds left rounded up, from 1 to
    15, and leaves the map as it is; a check at [now + 15000] or later
    passes.  The other wallets are not affected.  A check that is refused
    changes nothing, and tells at least 1 second. *)
Theorem checkCooldown_window (wallet : string) (now : Z) (map : JsMap.t string Z) :
  let (result, map') := checkCooldown wallet now map in
  match result with
  | CooldownOk =>
      (forall later, (now <= later < now + 15000)%Z ->
         checkCooldown wallet later map'
         = (CooldownWait (ceil_seconds (now + 15000 - later)), map')
         /\ (1 <= ceil_seconds (now + 15000 - later) <= 15)%Z)
      /\ (forall later, (now + 15000 <= later)%Z ->
            fst (checkCooldown wallet later map') = CooldownOk)
      /\ (forall other, other <> wallet ->
            JsMap.get String.eqb other map' = JsMap.get String.eqb other map)
  | CooldownWait retryAfter => map' = map /\ (1 <= retryAfter)%Z
  end.
Proof.
  unfold checkCooldown at 1.
  destruct (Z.ltb_spec now (nullish (JsMap.get String.eqb wallet map) 0%Z))
    as [Hlt | Hge].
  - split; [reflexivity|]. apply ceil_seconds_pos. lia.
  - assert (JsMap.get String.eqb wallet
              (JsMap.set String.eqb wallet (now + walletCooldownMs)%Z map)
            = Some (now + 15000)%Z) as Hget
      by (apply get_set_same, String.eqb_eq).
    split; [|split].
    + intros later Hlater. split.
      * apply checkCooldown_wait; [exact Hget | lia].
      * apply ceil_seconds_bounds. lia.
    + intros later Hlater. unfold checkCooldown. rewrite Hget. simpl.
      destruct (Z.ltb_spec later (now + 15000)); [lia | reflexivity].
    + intros other Hne. apply get_set_other; [apply String.eqb_eq | congruence].
Qed.

(** ** Handlers *)

Section HandlerProofs.

Context {num : Type} `{JsNumber num}.
Variable World : Type.
Variable priceToBinIndex : string -> num -> World -> Result Z * World.
Variable isPublicKey : string -> bool.
Variable schemaMessage : string.
Variable MOCK_MODE : bool.
Variable md5_hex : string -> string.
Variable stringify_rebalance : RebalanceBody -> string.
Variable stringify_arm : AdvancedPlanReq (num := num) -> list Z -> string.
Variable stringify_disarm : string -> string -> string.
Variable Number_of_string : string -> num.

#[local] Abbreviation rebalance_execute :=
  (rebalance_execute (num := num) (World := World) isPublicKey schemaMessage).
#[local] Abbreviation advanced_arm :=
  (advanced_arm priceToBinIndex schemaMessage MOCK_MODE md5_hex stringify_arm
     Number_of_string).
#[local] Abbreviation advanced_disarm :=
  (advanced_disarm (num := num) (World := World) schemaMessage MOCK_MODE md5_hex
     stringify_disarm).


(** What a request finds when the wallet is cooling down: the reply of
    [advanced_arm], with the gateway not called and nothing changed. *)
Lemma advanced_arm_wait (now next : Z) (body : AdvancedPlanReq) (st : State World) :
  AdvancedPlanReq_schema body = true ->
  JsMap.get String.eqb (adv_wallet body) (st_walletCooldown st) = Some next ->
  (now < next)%Z ->
  advanced_arm now body st
  = (buildProblem 429 "Too Many Requests"
       (Some (retry_message (ceil_seconds (next - now)))) (Some "RateLimited"),
     st).
Proof.
  intros Hschema Hget Hlt. unfold Service.advanced_arm.
  rewrite Hschema, (@checkCooldown_wait _ now _ _ Hget Hlt). cbn [negb].
  destruct st. reflexivity.
Qed.

(** Once the body has passed the schema and the wallet was not cooling
    down, [advanced_arm] has started the cooldown, whatever it answers. *)
Lemma advanced_arm_charges (now : Z) (body : AdvancedPlanReq) (st : State World) :
  AdvancedPlanReq_schema body = true ->
  fst (checkCooldown (adv_wallet body) now (st_walletCooldown st)) = CooldownOk ->
  st_walletCooldown (snd (advanced_arm now body st))
  = JsMap.set String.eqb (adv_wallet body) (now + walletCooldownMs)%Z
      (st_walletCooldown st).
Proof.
  intros Hschema Hok. unfold Service.advanced_arm. rewrite Hschema. cbn [negb].
  pose proof (checkCooldown_ok _ _ _ Hok) as Hmap.
  destruct (checkCooldown (adv_wallet body) now (st_walletCooldown st))
    as [result map']. simpl in Hok, Hmap. subst result map'.
  destruct (priceToBinIndex _ _ _) as [[baseIndex | error detail] w];
    [|reflexivity].
  cbv zeta.
  repeat match goal with
         | |- context [if ?b then _ else _] => destruct b
         end; reflexivity.
Qed.

(** X16. An attempt to arm an order is charged to the wallet even when
    it fails.  When the body passes the schema and the wallet is not
    cooling down, then whatever [POST /orders/advanced/arm] answers (a
    gateway failure, a missing size, 501 in live mode or a transaction
    id), another request to arm for the same wallet less than 15 seconds
    later is answered 429 with the seconds left, without calling the
    gateway and without changing anything. *)
Theorem advanced_arm_failed_attempt_charged
    (now later : Z) (body again : AdvancedPlanReq) (st : State World) :
  AdvancedPlanReq_schema body = true ->
  fst (checkCooldown (adv_wallet body) now (st_walletCooldown st)) = CooldownOk ->
  AdvancedPlanReq_schema again = true ->
  adv_wallet again = adv_wallet body ->
  (now <= later < now + 15000)%Z ->
  let st1 := snd (advanced_arm now body st) in
  advanced_arm later again st1
  = (buildProblem 429 "Too Many Requests"
       (Some (retry_message (ceil_seconds (now + 15000 - later))))
       (Some "RateLimited"),
     st1)
  /\ (1 <= ceil_seconds (now + 15000 - later) <= 15)%Z.
Proof.
  intros Hschema Hok Hagain Hwallet Hlater. cbv zeta. split.
  - apply advanced_arm_wait; [assumption | | lia].
    rewrite (advanced_arm_charges _ _ _ Hschema Hok), Hwallet.
    apply get_set_same, String.eqb_eq.
  - apply ceil_seconds_bounds. lia.
Qed.

(** X17. The three routes that act for a wallet share one cooldown:
    after [POST /rebalance/execute] has passed the schema and the
    cooldown check at [now], a request to arm or to disarm an order for
    the same wallet less than 15 seconds later is answered 429. *)
Theorem cooldown_shared_by_routes
    (mock : bool) (now later : Z) (body : RebalanceBody)
    (arm : AdvancedPlanReq) (pool : string) (st : State World) :
  rebalanceBodySchema isPublicKey body = true ->
  fst (checkCooldown (req_wallet body) now (st_walletCooldown st)) = CooldownOk ->
  AdvancedPlanReq_schema arm = true ->
  adv_wallet arm = req_wallet body ->
  AdvancedDisarmReq_schema (req_wallet body) pool = true ->
  (now <= later < now + 15000)%Z ->
  let st1 :=
    snd (rebalance_execute mock md5_hex stringify_rebalance now body st) in
  let wait :=
    buildProblem (num := num) 429 "Too Many Requests"
      (Some (retry_message (ceil_seconds (now + 15000 - later))))
      (Some "RateLimited") in
  advanced_arm later arm st1 = (wait, st1)
  /\ advanced_disarm later (req_wallet body) pool st1 = (wait, st1).
Proof.
  intros Hschema Hok Harm Hwallet Hdisarm Hlater. cbv zeta.
  assert (JsMap.get String.eqb (req_wallet body)
            (st_walletCooldown
               (snd (rebalance_execute mock md5_hex stringify_rebalance now body st)))
          = Some (now + 15000)%Z) as Hget.
  { unfold Service.rebalance_execute. rewrite Hschema. cbn [negb].
    pose proof (checkCooldown_ok _ _ _ Hok) as Hmap.
    destruct (checkCooldown (req_wallet body) now (st_walletCooldown st))
      as [result map']. simpl in Hok, Hmap. subst result map'.
    destruct mock; cbn [snd st_walletCooldown];
      apply get_set_same; apply String.eqb_eq. }
  set (st1 := snd (rebalance_execute mock md5_hex stringify_rebalance now body st))
    in *. clearbody st1.
  split.
  - apply advanced_arm_wait; [assumption | now rewrite Hwallet | lia].
  - unfold Service.advanced_disarm. rewrite Hdisarm. cbn [negb].
    rewrite (@checkCooldown_wait _ later _ _ Hget) by lia.
    destruct st1. reflexivity.
Qed.

(** X18. Which size an order needs.  When the body has passed the
    schema, the wallet is not cooling down and the gateway has given the
    bin of the target price, [POST /orders/advanced/arm] looks at one
    size only, [sizeBase] for a limit sell or a stop loss and [sizeQuote]
    for a limit buy, and answers 400 when it is missing, empty or read by
    [Number] as at most 0; the other size is not looked at.  Otherwise it
    answers with a transaction id in mock mode and 501 in live mode. *)
Theorem advanced_arm_size_rule
    (now : Z) (body : AdvancedPlanReq) (st : State World)
    (baseIndex : Z) (w : World) :
  AdvancedPlanReq_schema body = true ->
  fst (checkCooldown (adv_wallet body) now (st_walletCooldown st)) = CooldownOk ->
  priceToBinIndex (adv_pool body) (adv_targetPrice body) (st_world st)
  = (Success baseIndex, w) ->
  let size :=
    match adv_kind body with
    | limitBuy => adv_sizeQuote body
    | limitSell | stopLoss => adv_sizeBase body
    end in
  let side :=
    match adv_kind body with limitBuy => "quote" | _ => "base" end in
  fst (advanced_arm now body st)
  = if no_positive_size Number_of_string size then
      buildProblem 400 "Invalid Request"
        (Some ("Provide a positive " ++ side ++ " size for this advanced order."))
        (Some "InvalidInput")
    else if MOCK_MODE then
      ReplyTxid
        (mockTxId md5_hex "advanced-arm"
           (stringify_arm body (buildAdvancedBins (adv_kind body) baseIndex)))
    else
      buildProblem 501 "Not Implemented"
        (Some "Advanced order arming is not implemented for live mode yet.")
        (Some "NotImplemented").
Proof.
  intros Hschema Hok Hindex. cbv zeta. unfold Service.advanced_arm.
  rewrite Hschema. cbn [negb].
  destruct (checkCooldown (adv_wallet body) now (st_walletCooldown st))
    as [result map']. simpl in Hok. subst result.
  rewrite Hindex. cbv zeta.
  destruct (adv_kind body); cbn [singleSidedForKind is_base negb andb];
    destruct (no_positive_size Number_of_string _); cbn [fst];
    try reflexivity; destruct MOCK_MODE; reflexivity.
Qed.

End HandlerProofs.

(** ** Sizes in binary64 *)

Section DoubleSizes.

Import Floats.
Import Float64.

Variable World : Type.
Variable priceToBinIndex : string -> PrimFloat.float -> World -> Result Z * World.
Variable schemaMessage : string.
Variable md5_hex : string -> string.
Variable stringify_arm : AdvancedPlanReq (num := PrimFloat.float) -> list Z -> string.
Variable Number_of_string : string -> PrimFloat.float.

(** NaN is at most nothing. *)
Lemma leb_nan_l (x y : PrimFloat.float) :
  PrimFloat.is_nan x = true -> (x <=? y)%float = false.
Proof.
  intros Hx. apply BacktestProofs.is_nan_Prim2SF in Hx.
  rewrite leb_spec, Hx. reflexivity.
Qed.

(** X19. A size that is not a number passes for a positive size.  When
    the size that [POST /orders/advanced/arm] looks at is a string that
    is not empty and that [Number] reads as NaN, the test
    [Number(amount) <= 0] fails as it does for a positive size, and in
    mock mode the order is armed: the reply is a transaction id. *)
Theorem advanced_arm_accepts_nan_size
    (now : Z) (body : AdvancedPlanReq) (st : State World)
    (baseIndex : Z) (w : World) (size : string) :
  AdvancedPlanReq_schema body = true ->
  fst (checkCooldown (adv_wallet body) now (st_walletCooldown st)) = CooldownOk ->
  priceToBinIndex (adv_pool body) (adv_targetPrice body) (st_world st)
  = (Success baseIndex, w) ->
  match adv_kind body with
  | limitBuy => adv_sizeQuote body
  | limitSell | stopLoss => adv_sizeBase body
  end = Some size ->
  size <> "" ->
  PrimFloat.is_nan (Number_of_string size) = true ->
  fst (advanced_arm priceToBinIndex schemaMessage true md5_hex stringify_arm
         Number_of_string now body st)
  = ReplyTxid
      (mockTxId md5_hex "advanced-arm"
         (stringify_arm body (buildAdvancedBins (adv_kind body) baseIndex))).
Proof.
  intros Hschema Hok Hindex Hsize Hfilled Hnan. unfold advanced_arm.
  rewrite Hschema. cbn [negb].
  destruct (checkCooldown (adv_wallet body) now (st_walletCooldown st))
    as [result map']. simpl in Hok. subst result.
  rewrite Hindex. cbv zeta.
  assert (no_positive_size Number_of_string (Some size) = false) as Hpositive.
  { unfold no_positive_size. destruct size; [contradiction|].
    now apply leb_nan_l. }
  destruct (adv_kind body); cbn [singleSidedForKind is_base negb andb];
    rewrite Hsize, Hpositive; reflexivity.
Qed.

End DoubleSizes.

(** ** The properties at test requests *)

Import Floats.
Import Float64.
Open Scope string_scope.

#[local] Abbreviation arm :=
  (advanced_arm Stub.flat_priceToBinIndex "schema" true Samples.plain_hash
     Samples.stringify_arm Samples.size_of_string).

Lemma advanced_arm_failed_attempt_charged_witness :
  arm 5000%Z (Samples.sell (Some "5"))
    (snd (arm 1000%Z (Samples.sell None) Samples.fresh))
  = (buildProblem 429 "Too Many Requests"
       (Some (retry_message (ceil_seconds (1000 + 15000 - 5000))))
       (Some "RateLimited"),
     snd (arm 1000%Z (Samples.sell None) Samples.fresh))
  /\ (1 <= ceil_seconds (1000 + 15000 - 5000) <= 15)%Z.
Proof.
  apply (@advanced_arm_failed_attempt_charged PrimFloat.float _ unit
           Stub.flat_priceToBinIndex "schema" true Samples.plain_hash
           Samples.stringify_arm Samples.size_of_string
           1000%Z 5000%Z (Samples.sell None) (Samples.sell (Some "5"))
           Samples.fresh);
    first [lia | vm_compute; reflexivity].
Defined.

Lemma cooldown_shared_by_routes_witness :
  let st1 :=
    snd (rebalance_execute (num := PrimFloat.float) Stub.anyPublicKey "schema"
           true Samples.plain_hash Samples.stringify_rebalance
           1000%Z Stub.body Samples.fresh) in
  let wait :=
    buildProblem (num := PrimFloat.float) 429 "Too Many Requests"
      (Some (retry_message (ceil_seconds (1000 + 15000 - 5000))))
      (Some "RateLimited") in
  arm 5000%Z (Samples.sell (Some "5")) st1 = (wait, st1)
  /\ advanced_disarm "schema" true Samples.plain_hash Samples.stringify_disarm
       5000%Z (req_wallet Stub.body) Stub.pool st1 = (wait, st1).
Proof.
  apply (@cooldown_shared_by_routes PrimFloat.float _ unit
           Stub.flat_priceToBinIndex Stub.anyPublicKey "schema" true
           Samples.plain_hash Samples.stringify_rebalance Samples.stringify_arm
           Samples.stringify_disarm Samples.size_of_string
           true 1000%Z 5000%Z Stub.body (Samples.sell (Some "5")) Stub.pool
           Samples.fresh);
    first [lia | vm_compute; reflexivity].
Defined.

Lemma advanced_arm_size_rule_witness :
  fst (arm 1000%Z (Samples.sell None) Samples.fresh)
  = buildProblem 400 "Invalid Request"
      (Some "Provide a positive base size for this advanced order.")
      (Some "InvalidInput").
Proof.
  apply (@advanced_arm_size_rule PrimFloat.float _ unit
           Stub.flat_priceToBinIndex "schema" true Samples.plain_hash
           Samples.stringify_arm Samples.size_of_string
           1000%Z (Samples.sell None) Samples.fresh 123%Z tt);
    vm_compute; reflexivity.
Defined.

Lemma advanced_arm_accepts_nan_size_witness :
  fst (arm 1000%Z (Samples.sell (Some "five")) Samples.fresh)
  = ReplyTxid
      (mockTxId Samples.plain_hash "advanced-arm"
         (Samples.stringify_arm (Samples.sell (Some "five"))
            (buildAdvancedBins limitSell 123))).
Proof.
  apply (@advanced_arm_accepts_nan_size unit
           Stub.flat_priceToBinIndex "schema" Samples.plain_hash
           Samples.stringify_arm Samples.size_of_string
           1000%Z (Samples.sell (Some "five")) Samples.fresh 123%Z tt "five");
    first [discriminate | vm_compute; reflexivity].
Defined.

End ServiceProofs.

(* ================================================================== *)
(** * Properties of the routes over the gateway *)
(* ================================================================== *)

Module GatewayProofs.
Import Strategy.

Open Scope string_scope.

Ltac run_handlers :=
  cbv [Strategy.rebalance_plan Strategy.computeTargetBins
       bind ret mapResult
       await_priceToBinIndex await_currentMidPrice sendProblem buildProblem
       reply_send initial ctx_world ctx_calls ctx_sent].

(** ** The routes, whatever the gateway *)

Section Replies.

Context {num : Type} `{JsNumber num}.
Variable World : Type.
Variable currentMidPrice : string -> World -> Result num * World.
Variable priceToBinIndex : string -> num -> World -> Result Z * World.
Variable isPublicKey : string -> bool.
Variable schemaMessage : string.

#[local] Abbreviation rebalance_plan :=
  (rebalance_plan currentMidPrice priceToBinIndex isPublicKey schemaMessage).

Ltac await_call :=
  match goal with
  | |- context [priceToBinIndex ?p ?x ?w] =>
      let r := fresh "r" in
      let w' := fresh "w" in
      let E := fresh "E" in
      destruct (priceToBinIndex p x w) as [r w'] eqn:E; destruct r; simpl
  | |- context [currentMidPrice ?p ?w] =>
      let r := fresh "r" in
      let w' := fresh "w" in
      let E := fresh "E" in
      destruct (currentMidPrice p w) as [r w'] eqn:E; destruct r; simpl
  end.

(** What [POST /rebalance/plan] has done when it returns: either it has
    sent one problem, or the four gateway calls have succeeded and it has
    sent the plan made of their results. *)
Lemma rebalance_plan_cases (body : RebalanceBody) (w : World) :
  let c := snd (rebalance_plan body (initial w)) in
  let pool := req_pool body in
  let ratio := (num_of_Z (req_bandBps body) / num_of_Z 10000)%js in
  (exists code problem,
      ctx_sent c = [SentProblem code problem]
      /\ body_status problem = code
      /\ (List.length (ctx_calls c) <= 4)%nat
      /\ (rebalanceBodySchema isPublicKey body = false ->
          ctx_calls c = [] /\ ctx_world c = w))
  \/ (exists mid current lower upper w0 w1 w2 w3,
        rebalanceBodySchema isPublicKey body = true
        /\ currentMidPrice pool w = (Success mid, w0)
        /\ priceToBinIndex pool mid w0 = (Success current, w1)
        /\ priceToBinIndex pool (mid * (num_of_Z 1 - ratio))%js w1
           = (Success lower, w2)
        /\ priceToBinIndex pool (mid * (num_of_Z 1 + ratio))%js w2
           = (Success upper, w3)
        /\ ctx_sent c
           = [SentRebalancePlan
                {| plan_inBand :=
                     (current >=? Z.min lower upper)%Z
                     && (current <=? Z.max lower upper)%Z;
                   plan_binLower := Z.min lower upper;
                   plan_binUpper := Z.max lower upper;
                   plan_midPrice := mid;
                   plan_binIndex := current |}]
        /\ ctx_calls c
           = [CallCurrentMidPrice pool (Success mid);
              CallPriceToBinIndex pool mid (Success current);
              CallPriceToBinIndex pool (mid * (num_of_Z 1 - ratio))%js
                (Success lower);
              CallPriceToBinIndex pool (mid * (num_of_Z 1 + ratio))%js
                (Success upper)]
        /\ ctx_world c = w3).
Proof.
  cbv zeta. run_handlers.
  destruct (rebalanceBodySchema isPublicKey body) eqn:Hschema; simpl.
  - repeat await_call;
      try (left; do 2 eexists; repeat split; try reflexivity;
           try (simpl; lia); discriminate).
    right.
    match goal with
    | Emid : currentMidPrice _ _ = (Success ?mid, ?w0),
      Ecurrent : priceToBinIndex _ ?mid ?w0 = (Success ?current, ?w1),
      Elower : priceToBinIndex _ _ ?w1 = (Success ?lower, ?w2),
      Eupper : priceToBinIndex _ _ ?w2 = (Success ?upper, ?w3) |- _ =>
        exists mid, current, lower, upper, w0, w1, w2, w3
    end.
    repeat split; first [assumption | reflexivity].
  - left. do 2 eexists. repeat split; try reflexivity. simpl. lia.
Qed.

(** X20. [POST /rebalance/plan] answers every request exactly once and
    calls the gateway at most four times: not at all for a body that
    fails the schema, and four times, each call a success, when it sends
    a plan. *)
Theorem rebalance_plan_one_reply (body : RebalanceBody) (w : World) :
  let c := snd (rebalance_plan body (initial w)) in
  List.length (ctx_sent c) = 1%nat
  /\ (List.length (ctx_calls c) <= 4)%nat
  /\ (rebalanceBodySchema isPublicKey body = false ->
      ctx_calls c = [] /\ ctx_world c = w)
  /\ (forall plan,
        In (SentRebalancePlan plan) (ctx_sent c) ->
        List.length (ctx_calls c) = 4%nat
        /\ Forall (fun call => call_failure call = None) (ctx_calls c)).
Proof.
  cbv zeta.
  destruct (rebalance_plan_cases body w)
    as [(code & problem & Hsent & _ & Hcalls & Hinvalid)
       | (mid & current & lower & upper & w0 & w1 & w2 & w3
          & Hschema & _ & _ & _ & _ & Hsent & Hcalls & _)];
    rewrite Hsent.
  - split; [reflexivity|]. split; [assumption|]. split; [assumption|].
    intros plan [[=] | []].
  - rewrite Hcalls. split; [reflexivity|]. split; [simpl; lia|].
    split; [congruence|]. intros plan _. split; [reflexivity|].
    repeat constructor.
Qed.

End Replies.

(** ** The routes over the gateway, on the doubles *)

Section Doubles.

Import Floats.
Import Float64.

Variable World : Type.
Variable Thrown : Type.
Variable Error : string -> Thrown.
Variable mapError : Thrown -> DomainError * option string.
Variable Metadata : Type.
Variable fetchPoolMetadata : string -> World -> (Thrown + Metadata) * World.
Variable computeMidPriceFromMetadata : Metadata -> PrimFloat.float.
Variable Math_round : PrimFloat.float -> Z.
Variable poolIssues : string -> string.
Variable priceIssues : string -> PrimFloat.float -> string.
Variable isPublicKey : string -> bool.
Variable schemaMessage : string.

#[local] Abbreviation currentMidPrice mode :=
  (Gateway.currentMidPrice mode Error mapError fetchPoolMetadata
     computeMidPriceFromMetadata poolIssues).
#[local] Abbreviation priceToBinIndex mode :=
  (Gateway.priceToBinIndex mode mapError fetchPoolMetadata Math_round priceIssues).
#[local] Abbreviation rebalance_plan mode :=
  (rebalance_plan (currentMidPrice mode) (priceToBinIndex mode)
     isPublicKey schemaMessage).

(** The lower price of a band of 10000 basis points is not positive:
    it is a zero, or NaN at an infinite mid price. *)
Lemma lowerPrice_full_band (mid : PrimFloat.float) :
  (num_of_Z 0 <? mid * (num_of_Z 1 - num_of_Z 10000 / num_of_Z 10000))%js = false.
Proof.
  change ((0 <? mid * 0)%float = false).
  rewrite ltb_spec, mul_spec.
  change (Prim2SF 0) with (S754_zero false).
  destruct (Prim2SF mid) as [s | s | | s m e]; reflexivity.
Qed.

(** X22. A band of 10000 basis points passes the schema of
    [POST /rebalance/plan] and is then never planned: the lower price of
    the band is [midPrice * (1 - 1)], which the gateway's validation
    rejects as not positive.  The route sends one problem and no plan;
    when the mid price and its bin have been found, the problem is a 400
    with code [InvalidInput], sent after three gateway calls. *)
Theorem rebalance_plan_full_band_rejected
    (MOCK_MODE : bool) (body : RebalanceBody) (w : World) :
  req_bandBps body = 10000%Z ->
  let c := snd (rebalance_plan MOCK_MODE body (initial w)) in
  exists code problem,
    ctx_sent c = [SentProblem code problem]
    /\ body_status problem = code
    /\ forall mid w0 current w1,
         rebalanceBodySchema isPublicKey body = true ->
         currentMidPrice MOCK_MODE (req_pool body) w = (Success mid, w0) ->
         priceToBinIndex MOCK_MODE (req_pool body) mid w0 = (Success current, w1) ->
         code = 400%Z
         /\ body_code problem = Some "InvalidInput"
         /\ List.length (ctx_calls c) = 3%nat
         /\ ctx_world c = w1.
Proof.
  intros Hband. cbv zeta.
  assert (forall mid w1,
            priceToBinIndex MOCK_MODE (req_pool body)
              (mid * (num_of_Z 1 - num_of_Z (req_bandBps body) / num_of_Z 10000))%js w1
            = (Failure InvalidInput
                 (Some (priceIssues (req_pool body)
                          (mid * (num_of_Z 1
                                  - num_of_Z (req_bandBps body) / num_of_Z 10000))%js)),
               w1)) as Hlower.
  { intros mid w1. rewrite Hband.
    unfold Gateway.priceToBinIndex, Gateway.priceRequestSchema.
    now rewrite lowerPrice_full_band, andb_false_r. }
  destruct (rebalance_plan_cases (currentMidPrice MOCK_MODE)
              (priceToBinIndex MOCK_MODE) isPublicKey schemaMessage body w)
    as [(code & problem & Hsent & Hstatus & _)
       | (mid & current & lower & upper & w0 & w1 & w2 & w3
          & _ & _ & _ & Hlow & _)].
  - exists code, problem. split; [assumption|]. split; [assumption|].
    intros mid w0 current w1 Hschema Hmid Hcurrent.
    revert Hsent. run_handlers. rewrite Hschema. cbn [negb].
    rewrite Hmid. cbv beta iota. rewrite Hcurrent. cbv beta iota.
    rewrite Hlower. cbv beta iota. cbn [app nullish statusByError].
    intros [= <- <-]. repeat split.
  - rewrite Hlower in Hlow. discriminate.
Qed.

(** The prices of a band of 1 to 9999 basis points at the mid price of
    the mock mode. *)
Lemma widths_ok : forallb MockBands.band_ok MockBands.widths = true.
Proof. vm_compute. reflexivity. Qed.

Lemma band_ok_width (bandBps : Z) :
  (1 <= bandBps <= 9999)%Z -> MockBands.band_ok bandBps = true.
Proof.
  intros Hband. pose proof widths_ok as Hall.
  rewrite forallb_forall in Hall. apply Hall.
  unfold MockBands.widths. apply in_map_iff. exists (Z.to_nat bandBps).
  split; [lia|]. apply in_seq. lia.
Qed.

(** X23. In mock mode the planned band always holds the current bin.
    For a body that passes the schema with a band below 10000 basis
    points, [POST /rebalance/plan] over the gateway in mock mode sends a
    plan with the mid price 1.2345, the bins [Math.round] gives the
    three prices scaled by 100, and [inBand] true: the lower price is at
    most the mid price and the mid price at most the upper price, for
    every one of these bands, so that a rounding that keeps the order
    puts the current bin in the band. *)
Theorem mock_rebalance_plan_inBand (body : RebalanceBody) (w : World) :
  rebalanceBodySchema isPublicKey body = true ->
  req_bandBps body <> 10000%Z ->
  (forall x y : PrimFloat.float,
      (x <=? y)%js = true -> (Math_round x <= Math_round y)%Z) ->
  let c := snd (rebalance_plan true body (initial w)) in
  let mid : PrimFloat.float := Gateway.mock_midPrice in
  let ratio := (num_of_Z (req_bandBps body) / num_of_Z 10000)%js in
  ctx_sent c
  = [SentRebalancePlan
       {| plan_inBand := true;
          plan_binLower :=
            Math_round (mid * (num_of_Z 1 - ratio) * num_of_Z 100)%js;
          plan_binUpper :=
            Math_round (mid * (num_of_Z 1 + ratio) * num_of_Z 100)%js;
          plan_midPrice := mid;
          plan_binIndex := Math_round (mid * num_of_Z 100)%js |}]
  /\ ctx_world c = w.
Proof.
  intros Hschema Hband Hround. cbv zeta.
  assert (Gateway.poolIdSchema (req_pool body) = true
          /\ (1 <= req_bandBps body <= 9999)%Z) as [Hpool Hwidth].
  { unfold rebalanceBodySchema in Hschema.
    repeat (apply andb_prop in Hschema as [Hschema ?]).
    split; [assumption | lia]. }
  pose proof (band_ok_width Hwidth) as Hok.
  unfold MockBands.band_ok, MockBands.band_check in Hok. cbv zeta in Hok.
  apply andb_prop in Hok as [Hok Hle2]. apply andb_prop in Hok as [Hok Hle1].
  apply andb_prop in Hok as [Hok Hup]. apply andb_prop in Hok as [Hmid Hlow].
  set (mid := Gateway.mock_midPrice : PrimFloat.float) in *.
  set (ratio := (num_of_Z (req_bandBps body) / num_of_Z 10000)%js).
  assert ((num_of_Z 0 <? mid)%js = true) as Hmid' by exact Hmid.
  assert ((num_of_Z 0 <? mid * (num_of_Z 1 - ratio))%js = true) as Hlow'
    by exact Hlow.
  assert ((num_of_Z 0 <? mid * (num_of_Z 1 + ratio))%js = true) as Hup'
    by exact Hup.
  assert ((mid * (num_of_Z 1 - ratio) * num_of_Z 100 <=? mid * num_of_Z 100)%js
          = true) as Hle1' by exact Hle1.
  assert ((mid * num_of_Z 100 <=? mid * (num_of_Z 1 + ratio) * num_of_Z 100)%js
          = true) as Hle2' by exact Hle2.
  apply Hround in Hle1', Hle2'.
  assert (forall price : PrimFloat.float,
            (num_of_Z 0 <? price)%js = true ->
            priceToBinIndex true (req_pool body) price w
            = (Success (Math_round (price * num_of_Z 100)%js), w)) as Hcall.
  { intros price Hprice.
    unfold Gateway.priceToBinIndex, Gateway.priceRequestSchema.
    now rewrite Hpool, Hprice. }
  assert (currentMidPrice true (req_pool body) w = (Success mid, w)) as Hcall_mid.
  { unfold Gateway.currentMidPrice. now rewrite Hpool. }
  run_handlers. rewrite Hschema. cbn [negb].
  rewrite Hcall_mid. cbv beta iota.
  rewrite (Hcall mid Hmid'). cbv beta iota.
  fold ratio.
  rewrite (Hcall _ Hlow'). cbv beta iota.
  rewrite (Hcall _ Hup'). cbv beta iota.
  cbn [snd app binLower binUpper currentBin ctx_sent ctx_world].
  split; [|reflexivity].
  rewrite Z.min_l, Z.max_r by lia.
  replace (_ >=? _)%Z with true by (symmetry; apply Z.geb_le; lia).
  replace (_ <=? _)%Z with true by (symmetry; apply Z.leb_le; lia).
  reflexivity.
Qed.

End Doubles.

(** ** The properties at the test gateway *)

Import Floats.
Import Float64.
Import Float64Laws.
Open Scope string_scope.

#[local] Abbreviation currentMidPrice :=
  (Gateway.currentMidPrice true Samples.thrown_message Samples.mapError
     Samples.fetchPoolMetadata Samples.computeMidPriceFromMetadata
     Samples.poolIssues).
#[local] Abbreviation priceToBinIndex :=
  (Gateway.priceToBinIndex true Samples.mapError Samples.fetchPoolMetadata
     MockBands.Math_round Samples.priceIssues).

(** The rounding of the test gateway keeps the order. *)
Lemma Math_round_mono (x y : PrimFloat.float) :
  (x <=? y)%float = true -> (MockBands.Math_round x <= MockBands.Math_round y)%Z.
Proof.
  intros Hxy. apply leb_key in Hxy as (_ & _ & Hkey).
  unfold MockBands.Math_round. apply Z.div_le_mono.
  - apply Z.pow_pos_nonneg; lia.
  - lia.
Qed.

Lemma rebalance_plan_full_band_rejected_witness :
  let c :=
    snd (rebalance_plan currentMidPrice priceToBinIndex Stub.anyPublicKey
           "schema" Samples.full_band (initial tt)) in
  exists code problem,
    ctx_sent c = [SentProblem code problem]
    /\ body_status problem = code
    /\ forall mid w0 current w1,
         rebalanceBodySchema Stub.anyPublicKey Samples.full_band = true ->
         currentMidPrice (req_pool Samples.full_band) tt = (Success mid, w0) ->
         priceToBinIndex (req_pool Samples.full_band) mid w0
         = (Success current, w1) ->
         code = 400%Z
         /\ body_code problem = Some "InvalidInput"
         /\ List.length (ctx_calls c) = 3%nat
         /\ ctx_world c = w1.
Proof.
  apply (@rebalance_plan_full_band_rejected unit string Samples.thrown_message
           Samples.mapError unit Samples.fetchPoolMetadata
           Samples.computeMidPriceFromMetadata MockBands.Math_round
           Samples.poolIssues Samples.priceIssues Stub.anyPublicKey "schema"
           true Samples.full_band tt).
  reflexivity.
Defined.

Lemma mock_rebalance_plan_inBand_witness :
  let c :=
    snd (rebalance_plan currentMidPrice priceToBinIndex Stub.anyPublicKey
           "schema" Stub.body (initial tt)) in
  let mid : PrimFloat.float := Gateway.mock_midPrice in
  let ratio := (num_of_Z (req_bandBps Stub.body) / num_of_Z 10000)%js in
  ctx_sent c
  = [SentRebalancePlan
       {| plan_inBand := true;
          plan_binLower :=
            MockBands.Math_round (mid * (num_of_Z 1 - ratio) * num_of_Z 100)%js;
          plan_binUpper :=
            MockBands.Math_round (mid * (num_of_Z 1 + ratio) * num_of_Z 100)%js;
          plan_midPrice := mid;
          plan_binIndex := MockBands.Math_round (mid * num_of_Z 100)%js |}]
  /\ ctx_world c = tt.
Proof.
  apply (@mock_rebalance_plan_inBand unit string Samples.thrown_message
           Samples.mapError unit Samples.fetchPoolMetadata
           Samples.computeMidPriceFromMetadata MockBands.Math_round
           Samples.poolIssues Samples.priceIssues Stub.anyPublicKey "schema"
           Stub.body tt).
  - vm_compute. reflexivity.
  - discriminate.
  - exact Math_round_mono.
Defined.

(** What the plan of the test body is in mock mode. *)
Example mock_plan_bins :
  ctx_sent
    (snd (rebalance_plan currentMidPrice priceToBinIndex Stub.anyPublicKey
            "schema" Stub.body (initial tt)))
  = [SentRebalancePlan
       {| plan_inBand := true;
          plan_binLower := 122;
          plan_binUpper := 125;
          plan_midPrice := Stub.midPrice;
          plan_binIndex := 123 |}].
Proof. vm_compute. reflexivity. Qed.

End GatewayProofs.

(* ================================================================== *)
(** * Properties of the routes of the Telegram bot *)
(* ================================================================== *)

Module BotProofs.
Import Strategy.
Import LinkStore.
Import Service.
Import Bot.
Import JsMapProofs.
Import LinkStoreProofs.

Open Scope string_scope.

Section RouteProofs.

Variable MOCK_MODE : bool.
Variable isPublicKey : string -> bool.
Variable schemaMessage : string.
Variable walletMessage : string.
Variable process_BOT_USERNAME : option string.
Variable env_BOT_USERNAME : option string.
Variable isUrl : string -> bool.

#[local] Abbreviation link_code :=
  (link_code MOCK_MODE isPublicKey schemaMessage walletMessage
     process_BOT_USERNAME env_BOT_USERNAME isUrl).
#[local] Abbreviation consume_link := (consume_link schemaMessage).
#[local] Abbreviation wallet_by_telegram := (wallet_by_telegram schemaMessage).

(** What [POST /bot/link-code] has done when it does not answer with a
    problem: the wallet is a key and was not rate limited, the rate limit
    of the wallet has been started and a code created for it. *)
Lemma link_code_passed (now created : Z) (draw : nat -> list N)
    (wallet : string) (st : BotState) :
  (forall status body,
      fst (link_code now created draw wallet st) <> BotProblem status body) ->
  let linked := walletToUse (Analytics.trim wallet) in
  let created_code :=
    createCode linked default_ttlMs draw created (bot_store st) in
  wallet <> ""
  /\ publicKeySchema isPublicKey linked = true
  /\ snd (link_code now created draw wallet st)
     = {| bot_linkCooldownByWallet :=
            JsMap.set String.eqb linked (now + linkRateLimitMs)%Z
              (bot_linkCooldownByWallet st);
          bot_store := snd created_code |}
  /\ forall code deeplink note,
       fst (link_code now created draw wallet st) = BotLinkCode code deeplink note ->
       code = fst created_code.
Proof.
  cbv zeta. unfold Bot.link_code. intros Hpassed.
  destruct (negb (1 <=? String.length wallet)%nat) eqn:Hschema;
    [now elim (Hpassed _ _ eq_refl)|].
  destruct (String.eqb (Analytics.trim wallet) "WALLET_MOCK" && negb MOCK_MODE);
    [now elim (Hpassed _ _ eq_refl)|].
  destruct (negb (publicKeySchema isPublicKey _)) eqn:Hkey;
    [now elim (Hpassed _ _ eq_refl)|].
  destruct (_ <? _)%Z; [now elim (Hpassed _ _ eq_refl)|].
  destruct (createCode _ _ _ _ _) as [code store].
  split; [now destruct wallet|].
  split; [now apply negb_false_iff|].
  destruct (linkCodeResponseSchema _ _ _); cbn [fst snd];
    (split; [reflexivity|]); intros code' deeplink note; [|discriminate].
  now intros [= <- _ _].
Qed.

(** A wallet that passes [publicKeySchema] has 32 characters or more. *)
Lemma publicKeySchema_length (wallet : string) :
  publicKeySchema isPublicKey wallet = true ->
  walletResponseSchema wallet = true /\ wallet <> "".
Proof.
  unfold publicKeySchema, walletResponseSchema. intros Hkey.
  apply andb_prop in Hkey as [Hkey _]. apply andb_prop in Hkey as [Hlen _].
  split; [assumption|]. now destruct wallet.
Qed.

(** X24. The linking of a wallet to a Telegram user, end to end.  When
    [POST /bot/link-code] answers with a code, the code has 8 characters;
    [POST /bot/consume-link] with that code and a positive Telegram id
    then answers with the wallet that was linked (the trimmed wallet of
    the request, or the mock wallet) when the age of the code is at most
    ten minutes, and [GET /bot/wallet/:telegramId] answers with the same
    wallet from then on; when the code is older, it answers 400 with
    [Link code expired] and the user's wallet is as it was. *)
Theorem link_code_then_consume_link
    (now created : Z) (draw : nat -> list N) (wallet : string) (st : BotState)
    (code : string) (deeplink note : option string)
    (telegramId now2 later2 : Z) :
  fst (link_code now created draw wallet st) = BotLinkCode code deeplink note ->
  (0 < telegramId)%Z ->
  let st1 := snd (link_code now created draw wallet st) in
  let linked := walletToUse (Analytics.trim wallet) in
  let (reply, st2) := consume_link now2 later2 code telegramId st1 in
  String.length code = 8%nat
  /\ if (now2 - created >? 10 * 60 * 1000)%Z
     then reply = buildProblem 400 "Invalid Link Code" (Some "Link code expired")
                    (Some "InvalidInput")
          /\ wallet_by_telegram (Some telegramId) st2
             = wallet_by_telegram (Some telegramId) st
     else reply = BotWallet linked
          /\ wallet_by_telegram (Some telegramId) st2 = BotWallet linked.
Proof.
  intros Hreply Hid. cbv zeta.
  assert (forall status body,
             fst (link_code now created draw wallet st) <> BotProblem status body)
    as Hpassed by (intros status body; rewrite Hreply; discriminate).
  destruct (link_code_passed _ _ _ _ _ Hpassed) as (_ & Hkey & -> & Hcode).
  apply Hcode in Hreply. clear Hcode Hpassed.
  destruct (publicKeySchema_length _ Hkey) as [Hresponse Hfilled].
  set (linked := walletToUse (Analytics.trim wallet)) in *. clearbody linked.
  unfold createCode in *. cbn [fst snd] in *.
  destruct (createCode_retry_spec (pendingByCode (bot_store st)) draw 5 0) as [j Hj].
  rewrite Hj in *. subst code.
  destruct (generateCode_spec (draw j)) as [Hlen Hall].
  unfold Bot.consume_link, linkCodeSchema, telegramIdSchema.
  rewrite Hlen, Hall. apply Z.ltb_lt in Hid. rewrite Hid. cbn [andb negb Nat.leb].
  unfold consumeCode. cbn [bot_store pendingByCode walletByTelegram].
  rewrite get_set_same by apply String.eqb_eq.
  cbn [pending_createdAt pending_ttlMs pending_wallet].
  change default_ttlMs with (10 * 60 * 1000)%Z.
  destruct (now2 - created >? 10 * 60 * 1000)%Z.
  - split; [reflexivity|]. split; reflexivity.
  - rewrite Hresponse. split; [reflexivity|]. split; [reflexivity|].
    unfold Bot.wallet_by_telegram, telegramIdSchema, getWallet.
    rewrite Hid. cbn [negb bot_store walletByTelegram].
    rewrite get_set_same by apply Z.eqb_eq. cbn [option_map binding_wallet].
    rewrite Hresponse. now destruct linked.
Qed.

(** X25. [POST /bot/link-code] gives a wallet one code in ten seconds.
    After a request that was not answered with a problem, a request for
    the same wallet less than 10 seconds later is answered 429 with the
    seconds left, from 1 to 10, and changes nothing: no code is created
    and the code given before stays pending. *)
Theorem link_code_rate_limited
    (now created : Z) (draw : nat -> list N) (wallet : string) (st : BotState)
    (now2 created2 : Z) (draw2 : nat -> list N) (again : string) :
  (forall status body,
      fst (link_code now created draw wallet st) <> BotProblem status body) ->
  Analytics.trim again = Analytics.trim wallet ->
  again <> "" ->
  (now <= now2 < now + 10000)%Z ->
  let st1 := snd (link_code now created draw wallet st) in
  link_code now2 created2 draw2 again st1
  = (buildProblem 429 "Rate Limited"
       (Some (retry_message (ceil_seconds (now + 10000 - now2))))
       (Some "RateLimited"),
     st1)
  /\ (1 <= ceil_seconds (now + 10000 - now2) <= 10)%Z.
Proof.
  intros Hpassed Hsame Hfilled Hlater. cbv zeta.
  destruct (link_code_passed _ _ _ _ _ Hpassed) as (_ & Hkey & -> & _).
  split.
  - unfold Bot.link_code at 1. rewrite Hsame.
    destruct again as [|c again]; [contradiction|]. cbn [String.length Nat.leb negb].
    assert (String.eqb (Analytics.trim wallet) "WALLET_MOCK" && negb MOCK_MODE
            = false) as Hmock.
    { revert Hpassed. unfold Bot.link_code.
      destruct (negb (1 <=? String.length wallet)%nat);
        [intros Hpassed; now elim (Hpassed _ _ eq_refl)|].
      destruct (String.eqb _ _ && negb MOCK_MODE);
        [intros Hpassed; now elim (Hpassed _ _ eq_refl) | reflexivity]. }
    rewrite Hmock, Hkey. cbn [negb bot_linkCooldownByWallet].
    rewrite get_set_same by apply String.eqb_eq. cbn [nullish].
    unfold linkRateLimitMs.
    replace (now2 <? now + 10000)%Z with true by (symmetry; apply Z.ltb_lt; lia).
    reflexivity.
  - unfold ceil_seconds. Z.div_mod_to_equations. lia.
Qed.

End RouteProofs.

(** ** The properties at a test request *)

Open Scope string_scope.

#[local] Abbreviation link :=
  (link_code true Stub.anyPublicKey "schema" "no key" None (Some "copilot_bot")
     Samples.anyUrl).

Lemma link_code_then_consume_link_witness :
  let st1 := snd (link 1000%Z 1001%Z Samples.bytes Stub.wallet Samples.bot_fresh) in
  let linked := walletToUse (Analytics.trim Stub.wallet) in
  let (reply, st2) := consume_link "schema" 2000%Z 2001%Z "ABCDEFGH" 42%Z st1 in
  String.length "ABCDEFGH" = 8%nat
  /\ if (2000 - 1001 >? 10 * 60 * 1000)%Z
     then reply = buildProblem 400 "Invalid Link Code" (Some "Link code expired")
                    (Some "InvalidInput")
          /\ wallet_by_telegram "schema" (Some 42%Z) st2
             = wallet_by_telegram "schema" (Some 42%Z) Samples.bot_fresh
     else reply = BotWallet linked
          /\ wallet_by_telegram "schema" (Some 42%Z) st2 = BotWallet linked.
Proof.
  apply (@link_code_then_consume_link true Stub.anyPublicKey "schema" "no key"
           None (Some "copilot_bot") Samples.anyUrl
           1000%Z 1001%Z Samples.bytes Stub.wallet Samples.bot_fresh
           "ABCDEFGH" (Some "https://t.me/copilot_bot?start=link_ABCDEFGH") None
           42%Z 2000%Z 2001%Z).
  - vm_compute. reflexivity.
  - lia.
Defined.

Lemma link_code_rate_limited_witness :
  let st1 := snd (link 1000%Z 1001%Z Samples.bytes Stub.wallet Samples.bot_fresh) in
  link 4000%Z 4001%Z Samples.bytes Stub.wallet st1
  = (buildProblem 429 "Rate Limited"
       (Some (retry_message (ceil_seconds (1000 + 10000 - 4000))))
       (Some "RateLimited"),
     st1)
  /\ (1 <= ceil_seconds (1000 + 10000 - 4000) <= 10)%Z.
Proof.
  apply (@link_code_rate_limited true Stub.anyPublicKey "schema" "no key"
           None (Some "copilot_bot") Samples.anyUrl
           1000%Z 1001%Z Samples.bytes Stub.wallet Samples.bot_fresh
           4000%Z 4001%Z Samples.bytes Stub.wallet).
  - intros status body. vm_compute. discriminate.
  - reflexivity.
  - discriminate.
  - lia.
Defined.

(** The code, the link and the reply of the bot's routes at the test
    request. *)
Example link_code_reply :
  fst (link 1000%Z 1001%Z Samples.bytes Stub.wallet Samples.bot_fresh)
  = BotLinkCode "ABCDEFGH"
      (Some "https://t.me/copilot_bot?start=link_ABCDEFGH") None.
Proof. vm_compute. reflexivity. Qed.

End BotProofs.
